(** * Media views: reference-counted caches, in-flight registries and
      scene-graph inflation

    A shallow embedding of [src/components/media-views.js] (the texture
    cache and the image component, the animated-image texture, the glTF
    cache, the model loader, the entity inflater and the schema
    migration), followed by the properties established about it.

    Conventions.  JavaScript numbers that count or index are [Z]; a
    missing (undefined) value is [None]; a JavaScript [Map] or plain
    object used as a dictionary is a [gmap]; an object whose property
    order matters is an association list.  Objects that are compared by
    identity carry an object identifier ([nat]).  Calls into the host
    platform (DOM, three.js, A-Frame, console) are recorded as a list of
    [Effect]s in program order. *)

From stdpp Require Import gmap strings list fin_maps.
From Stdlib Require Import ZArith Ascii.

Set Warnings "-register-all".

(** ** JavaScript helpers *)

Module JS.

(** [a || b] where [a] is a number that may be undefined. *)
Definition num_or (a : option Z) (b : Z) : Z :=
  match a with
  | Some x => if (x =? 0)%Z then b else x
  | None => b
  end.

(** [a > b] where [b] may be undefined (the comparison is then false). *)
Definition gt_maybe (a : Z) (b : option Z) : bool :=
  match b with
  | Some y => (y <? a)%Z
  | None => false
  end.

(** [arr[i]] for a number [i] that may be NaN ([None]). *)
Definition index {A} (arr : list A) (i : option Z) : option A :=
  match i with
  | Some z => if (z <? 0)%Z then None else arr !! Z.to_nat z
  | None => None
  end.

(** [a % b]; NaN ([None]) when an operand is NaN or [b] is zero. *)
Definition rem (a : option Z) (b : Z) : option Z :=
  match a with
  | Some x => if (b =? 0)%Z then None else Some (Z.rem x b)
  | None => None
  end.

(** The property names every plain object inherits from
    [Object.prototype]; the [in] operator sees them. *)
Definition Object_prototype_keys : list string :=
  [ "constructor"; "toString"; "toLocaleString"; "valueOf";
    "hasOwnProperty"; "isPrototypeOf"; "propertyIsEnumerable";
    "__proto__"; "__defineGetter__"; "__defineSetter__";
    "__lookupGetter__"; "__lookupSetter__" ]%string.

(** [key in obj] for a plain object created by a literal, given the
    names of its own properties. *)
Definition in_object (key : string) (own : list string) : bool :=
  bool_decide (key ∈ own) || bool_decide (key ∈ Object_prototype_keys).

(** Property access on an object whose properties are listed in order. *)
Fixpoint prop {V} (key : string) (obj : list (string * V)) : option V :=
  match obj with
  | [] => None
  | (k, v) :: rest => if bool_decide (k = key) then Some v else prop key rest
  end.

(** [delete obj[key]]. *)
Fixpoint delete_prop {V} (key : string) (obj : list (string * V)) : list (string * V) :=
  match obj with
  | [] => []
  | (k, v) :: rest =>
      if bool_decide (k = key) then delete_prop key rest else (k, v) :: delete_prop key rest
  end.

Definition ascii_between (lo hi c : ascii) : bool :=
  (nat_of_ascii lo <=? nat_of_ascii c)%nat && (nat_of_ascii c <=? nat_of_ascii hi)%nat.

(** The class [\w] together with the hyphen: the characters kept by
    [replace(/[^\w-]/g, "")]. *)
Definition is_word_or_hyphen (c : ascii) : bool :=
  ascii_between "a" "z" c || ascii_between "A" "Z" c
  || ascii_between "0" "9" c || bool_decide (c = "_"%char) || bool_decide (c = "-"%char).

Fixpoint filter_chars (keep : ascii -> bool) (s : string) : string :=
  match s with
  | EmptyString => EmptyString
  | String c rest =>
      if keep c then String c (filter_chars keep rest) else filter_chars keep rest
  end.

Definition lower_char (c : ascii) : ascii :=
  if ascii_between "A" "Z" c then ascii_of_nat (nat_of_ascii c + 32) else c.

Fixpoint toLowerCase (s : string) : string :=
  match s with
  | EmptyString => EmptyString
  | String c rest => String (lower_char c) (toLowerCase rest)
  end.

(** [a || b] on strings: the empty string is falsy. *)
Definition str_or (a b : string) : string :=
  if bool_decide (a = ""%string) then b else a.

(** [obj[key] = v] on an object whose properties are listed in creation
    order: a property that exists keeps its place and takes the value,
    a new one is added last. *)
Fixpoint set_prop {V} (key : string) (v : V) (obj : list (string * V))
  : list (string * V) :=
  match obj with
  | [] => [(key, v)]
  | (k, x) :: rest =>
      if bool_decide (k = key) then (k, v) :: rest else (k, x) :: set_prop key v rest
  end.

(** The same assignment on an object literal.  The name [__proto__]
    is no property name there: assigning to it creates no property (it
    replaces the prototype, and an object whose prototype was replaced
    is outside this model). *)
Definition assign {V} (key : string) (v : V) (obj : list (string * V))
  : list (string * V) :=
  if bool_decide (key = "__proto__"%string) then obj else set_prop key v obj.

Fixpoint decimal (acc : Z) (s : string) : option Z :=
  match s with
  | EmptyString => Some acc
  | String c rest =>
      if ascii_between "0" "9" c
      then decimal (acc * 10 + (Z.of_nat (nat_of_ascii c) - 48)) rest
      else None
  end.

(** The number a property name stands for when the name is an array
    index: decimal digits without a leading zero, for a number below
    2^32 - 1. *)
Definition array_index (key : string) : option Z :=
  match key with
  | EmptyString => None
  | String c rest =>
      if bool_decide (c = "0"%char) && negb (bool_decide (rest = EmptyString))
      then None
      else
        match decimal 0 key with
        | Some n => if (n <? 4294967295)%Z then Some n else None
        | None => None
        end
  end.

Fixpoint insert_index {V} (i : Z) (kv : string * V) (sorted : list (Z * (string * V)))
  : list (Z * (string * V)) :=
  match sorted with
  | [] => [(i, kv)]
  | (j, x) :: rest =>
      if (i <? j)%Z then (i, kv) :: (j, x) :: rest
      else (j, x) :: insert_index i kv rest
  end.

(** The order in which [for (const key in obj)] visits the properties
    of a plain object: the array indices in ascending order, then the
    other names in creation order. *)
Definition for_in {V} (obj : list (string * V)) : list (string * V) :=
  let indexed :=
    omap (fun kv => (fun i => (i, kv)) <$> array_index kv.1) obj in
  let named :=
    List.filter (fun kv => negb (bool_decide (is_Some (array_index kv.1)))) obj in
  (snd <$> foldr (fun ikv acc => insert_index ikv.1 ikv.2 acc) [] indexed) ++ named.

(** JSON data carried by extension blocks. *)
Inductive json :=
| JNull
| JBool (b : bool)
| JNum (n : Z)
| JStr (s : string)
| JArr (items : list json)
| JObj (fields : list (string * json)).

Definition truthy (v : json) : bool :=
  match v with
  | JNull => false
  | JBool b => b
  | JNum n => negb (n =? 0)%Z
  | JStr s => negb (bool_decide (s = ""%string))
  | JArr _ | JObj _ => true
  end.

End JS.

(** ** Calls into the host platform *)

Inductive Effect :=
| VideoPause (texture : nat)
| VideoSetSrc (texture : nat) (src : string)
| VideoLoad (texture : nat)
| HlsDestroy (controller : nat)
| TextureDispose (texture : nat)
| DisposeNode (node : nat)
| ConsoleError (message : string)
| ConsoleWarn (message : string)
| Emit (consumer : nat) (event : string)
| LoadStarted (loader : string) (src : string) (promise : nat)
| BatchAdd (consumer : nat)
| BatchRemove (consumer : nat)
| InflatorCall (component : string) (className : string)
| TemplateAttached (template : string) (templateRoot : nat) (target : nat)
| DisposeInflatedEl (consumer : nat) (root : nat)
| GenerateMeshBVH (root : nat)
| InitMixer (consumer : nat)
| SetObject3D (consumer : nat) (key : string) (root : nat)
| NextTick (promise : nat).

#[global] Instance Effect_eq_dec : EqDecision Effect.
Proof. solve_decision. Defined.

(** ** The animated-image texture *)

Module GIFTexture.

Record Frame := { frame_id : nat; frame_width : Z; frame_height : Z }.

Inductive CanvasOp :=
| ClearRect (x y w h : Z)
| DrawImage (img : option Frame) (x y w h : Z).

Record t := {
  frames : option (list Frame);
  delays : option (list Z);
  disposals : option (list Z);
  frame : option Z;
  frameStartTime : Z;
  image_width : Z;
  image_height : Z;
  ctx : list CanvasOp;
  needsUpdate : bool
}.

(** [new GIFTexture(frames, delays, disposals)] at time [now]; reading
    [frames[0].width] throws when there is no first frame. *)
Definition constructor (fs : list Frame) (ds dps : option (list Z)) (now : Z) : option t :=
  match fs with
  | [] => None
  | f0 :: _ =>
      Some {| frames := Some fs; delays := ds; disposals := dps;
              frame := Some 0%Z; frameStartTime := now;
              image_width := frame_width f0; image_height := frame_height f0;
              ctx := []; needsUpdate := false |}
  end.

(** [update()], with [Date.now()] returning [now]. *)
Definition update (now : Z) (g : t) : t :=
  match frames g, delays g, disposals g with
  | Some fs, Some ds, Some dps =>
      if JS.gt_maybe (now - frameStartTime g) (JS.index ds (frame g)) then
        let cleared :=
          if bool_decide (JS.index dps (frame g) = Some 2%Z)
          then [ClearRect 0 0 (image_width g) (image_width g)]
          else [] in
        let next := JS.rem (Z.succ <$> frame g) (Z.of_nat (length fs)) in
        {| frames := frames g; delays := delays g; disposals := disposals g;
           frame := next; frameStartTime := now;
           image_width := image_width g; image_height := image_height g;
           ctx := ctx g ++ cleared
                    ++ [DrawImage (JS.index fs next) 0 0 (image_width g) (image_height g)];
           needsUpdate := true |}
      else g
  | _, _, _ => g
  end.

(** Canvas geometry: the pixels a [clearRect] erases, and whether it
    erases the whole [w] by [h] surface. *)
Definition clears_pixel (op : CanvasOp) (px py : Z) : bool :=
  match op with
  | ClearRect x y w h => (x <=? px)%Z && (px <? x + w)%Z && (y <=? py)%Z && (py <? y + h)%Z
  | DrawImage _ _ _ _ _ => false
  end.

Definition on_surface (g : t) (px py : Z) : bool :=
  (0 <=? px)%Z && (px <? image_width g)%Z && (0 <=? py)%Z && (py <? image_height g)%Z.

End GIFTexture.

(** ** Textures and their disposal *)

Record Image := {
  isHTMLVideoElement : bool;
  videoHeight : option Z;
  videoWidth : option Z;
  height : Z;
  width : Z
}.

Record Texture := {
  texture_id : nat;
  image : Image;
  hls : option nat
}.

Definition disposeTexture (texture : Texture) : list Effect :=
  (if isHTMLVideoElement (image texture)
   then [VideoPause (texture_id texture);
         VideoSetSrc (texture_id texture) "";
         VideoLoad (texture_id texture)]
   else [])
  ++ match hls texture with Some h => [HlsDestroy h] | None => [] end
  ++ [TextureDispose (texture_id texture)].

(** ** The texture cache *)

Module TextureCache.

(** The shape hint is the quotient height / width; it is kept as the
    pair (dividend, divisor). *)
Record CacheItem := {
  texture : Texture;
  ratio : Z * Z;
  count : Z
}.

Definition with_count (item : CacheItem) (c : Z) : CacheItem :=
  {| texture := texture item; ratio := ratio item; count := c |}.

Definition has (src : string) (cache : gmap string CacheItem) : bool :=
  bool_decide (is_Some (cache !! src)).

Definition get (src : string) (cache : gmap string CacheItem) : option CacheItem :=
  cache !! src.

(** [retain]: [None] is the TypeError raised by [cacheItem.count++]
    when the key is absent. *)
Definition retain (src : string) (cache : gmap string CacheItem)
  : option (gmap string CacheItem * CacheItem) :=
  match cache !! src with
  | Some item =>
      let item' := with_count item (count item + 1) in
      Some (<[src := item']> cache, item')
  | None => None
  end.

Definition set (src : string) (tex : Texture) (cache : gmap string CacheItem)
  : option (gmap string CacheItem * CacheItem) :=
  let img := image tex in
  retain src
    (<[src := {| texture := tex;
                 ratio := (JS.num_or (videoHeight img) (height img),
                           JS.num_or (videoWidth img) (width img));
                 count := 0 |}]> cache).

(** [release] returns the new table and the platform calls it made. *)
Definition release (src : string) (cache : gmap string CacheItem)
  : gmap string CacheItem * list Effect :=
  match cache !! src with
  | None => (cache, [ConsoleError ("Releasing uncached texture src " ++ src)])
  | Some item =>
      let item' := with_count item (count item - 1) in
      if (count item' <=? 0)%Z
      then (delete src cache, disposeTexture (texture item'))
      else (<[src := item']> cache, [])
  end.

End TextureCache.

(** ** Promises and the microtask queue

    A promise is pending with the continuations that await it, in the
    order they subscribed, or settled.  Continuations are first-order
    frames; a frame whose promise settles is moved to the microtask
    queue together with the outcome. *)

Inductive Settled (V : Type) :=
| Fulfilled (value : V)
| Rejected (reason : string).
Arguments Fulfilled {V} value.
Arguments Rejected {V} reason.

Inductive PromiseState (V K : Type) :=
| Pending (waiters : list K)
| Done (outcome : Settled V).
Arguments Pending {V K} waiters.
Arguments Done {V K} outcome.

Module Promise.
Section Store.
Context {V K : Type}.

(** [await p] from frame [k]: subscribe, or schedule [k] at once when
    [p] has settled.  Returns the new store and the microtasks to
    append. *)
Definition await (p : nat) (k : K) (ps : gmap nat (PromiseState V K))
  : gmap nat (PromiseState V K) * list (K * Settled V) :=
  match ps !! p with
  | Some (Pending ws) => (<[p := Pending (ws ++ [k])]> ps, [])
  | Some (Done r) => (ps, [(k, r)])
  | None => (ps, [])
  end.

(** Settling a pending promise schedules its waiters in order; a
    settled promise stays as it is. *)
Definition settle (p : nat) (r : Settled V) (ps : gmap nat (PromiseState V K))
  : gmap nat (PromiseState V K) * list (K * Settled V) :=
  match ps !! p with
  | Some (Pending ws) => (<[p := Done r]> ps, (fun k => (k, r)) <$> ws)
  | _ => (ps, [])
  end.

End Store.
End Promise.

(** [haystack.includes(needle)] and [s.startsWith(prefix)]. *)
Fixpoint includes (needle haystack : string) : bool :=
  String.prefix needle haystack
  || match haystack with
     | EmptyString => false
     | String _ rest => includes needle rest
     end.

Definition startsWith (s pre : string) : bool := String.prefix pre s.

(** ** The image component ([media-image]) *)

Module MediaImage.

Inductive TexRef :=
| ErrorTexture
| Loaded (t : Texture).

Inductive Geometry := SphereBufferGeometry | PlaneBufferGeometry.

(** [mesh_map] is the property [mesh.map] that [update] tests; nothing
    in the file assigns it.  [material_map] is [mesh.material.map]. *)
Record Mesh := {
  geometry : Geometry;
  mesh_map : option TexRef;
  material_map : option TexRef;
  transparent : bool;
  scale_ratio : option (Z * Z)
}.

Record Data := {
  src : string;
  projection : string;
  contentType : string;
  batch : bool
}.

Record Component := {
  data : Data;
  currentSrcIsRetained : bool;
  mesh : option Mesh;
  parentNode : bool
}.

(** The two suspension points of [update]. *)
Inductive Frame :=
| AwaitInflight (c : nat) (key : string) (oldData : option Data)
| AwaitLoad (c : nat) (key : string) (oldData : option Data).

Record World := {
  textureCache : gmap string TextureCache.CacheItem;
  inflightTextures : gmap string nat;
  promises : gmap nat (PromiseState Texture Frame);
  nextPromise : nat;
  components : gmap nat Component;
  microtasks : list (Frame * Settled Texture);
  effects : list Effect
}.

Definition set_cache (tc : gmap string TextureCache.CacheItem) (w : World) : World :=
  {| textureCache := tc; inflightTextures := inflightTextures w;
     promises := promises w; nextPromise := nextPromise w;
     components := components w; microtasks := microtasks w;
     effects := effects w |}.

Definition set_inflight (m : gmap string nat) (w : World) : World :=
  {| textureCache := textureCache w; inflightTextures := m;
     promises := promises w; nextPromise := nextPromise w;
     components := components w; microtasks := microtasks w;
     effects := effects w |}.

Definition set_promises (ps : gmap nat (PromiseState Texture Frame)) (n : nat) (w : World) : World :=
  {| textureCache := textureCache w; inflightTextures := inflightTextures w;
     promises := ps; nextPromise := n;
     components := components w; microtasks := microtasks w;
     effects := effects w |}.

Definition set_component (c : nat) (comp : Component) (w : World) : World :=
  {| textureCache := textureCache w; inflightTextures := inflightTextures w;
     promises := promises w; nextPromise := nextPromise w;
     components := <[c := comp]> (components w); microtasks := microtasks w;
     effects := effects w |}.

Definition set_microtasks (q : list (Frame * Settled Texture)) (w : World) : World :=
  {| textureCache := textureCache w; inflightTextures := inflightTextures w;
     promises := promises w; nextPromise := nextPromise w;
     components := components w; microtasks := q;
     effects := effects w |}.

Definition log (es : list Effect) (w : World) : World :=
  {| textureCache := textureCache w; inflightTextures := inflightTextures w;
     promises := promises w; nextPromise := nextPromise w;
     components := components w; microtasks := microtasks w;
     effects := effects w ++ es |}.

Definition with_retained (b : bool) (comp : Component) : Component :=
  {| data := data comp; currentSrcIsRetained := b; mesh := mesh comp;
     parentNode := parentNode comp |}.

Definition with_mesh (m : option Mesh) (comp : Component) : Component :=
  {| data := data comp; currentSrcIsRetained := currentSrcIsRetained comp;
     mesh := m; parentNode := parentNode comp |}.

Definition with_data (d : Data) (comp : Component) : Component :=
  {| data := d; currentSrcIsRetained := currentSrcIsRetained comp;
     mesh := mesh comp; parentNode := parentNode comp |}.

Definition with_parentNode (b : bool) (comp : Component) : Component :=
  {| data := data comp; currentSrcIsRetained := currentSrcIsRetained comp;
     mesh := mesh comp; parentNode := b |}.

(** [textureCache.release(key)] on the shared table. *)
Definition release (key : string) (w : World) : World :=
  let '(tc, es) := TextureCache.release key (textureCache w) in
  log es (set_cache tc w).

(** [textureCache.release(oldData.src)]: the key is undefined on the
    first update, and then nothing is cached under it. *)
Definition release_old (oldData : option Data) (w : World) : World :=
  match oldData with
  | Some d => release (src d) w
  | None => log [ConsoleError "Releasing uncached texture src undefined"] w
  end.

Definition errorRatio : Z * Z := (1, 1)%Z.

Definition is_error (t : TexRef) : bool :=
  match t with ErrorTexture => true | Loaded _ => false end.

(** The statements of [update] after the [try] block: the mesh is
    built when there is none or the projection changed, then takes the
    texture and, for a flat projection, the aspect ratio. *)
Definition render (comp : Component) (oldData : option Data) (tex : TexRef)
    (ratio : Z * Z) : Component :=
  let d := data comp in
  let rebuild :=
    match mesh comp with
    | None => true
    | Some _ => negb (bool_decide (Some (projection d) = projection <$> oldData))
    end in
  let geo :=
    if rebuild
    then (if bool_decide (projection d = "360-equirectangular")
          then SphereBufferGeometry else PlaneBufferGeometry)
    else match mesh comp with Some m => geometry m | None => PlaneBufferGeometry end in
  let old_mesh_map :=
    if rebuild then None else match mesh comp with Some m => mesh_map m | None => None end in
  let old_scale :=
    if rebuild then None else match mesh comp with Some m => scale_ratio m | None => None end in
  with_mesh
    (Some {| geometry := geo;
             mesh_map := old_mesh_map;
             material_map := Some tex;
             transparent := negb (batch d) || is_error tex
                            || includes "image/gif" (contentType d);
             scale_ratio := if bool_decide (projection d = "flat")
                            then Some ratio else old_scale |})
    comp.

Definition announce (c : nat) (comp : Component) (tex : TexRef) : list Effect :=
  (if negb (is_error tex) && batch (data comp) then [BatchAdd c] else [])
    ++ [Emit c "image-loaded"].

Definition after_try (c : nat) (oldData : option Data) (tex : TexRef) (ratio : Z * Z)
    (w : World) : World :=
  match components w !! c with
  | None => w
  | Some comp =>
      log (announce c comp tex) (set_component c (render comp oldData tex ratio) w)
  end.

(** The [catch] block followed by the rest of [update]. *)
Definition on_error (c : nat) (oldData : option Data) (w : World) : World :=
  match components w !! c with
  | None => w
  | Some comp =>
      after_try c oldData ErrorTexture errorRatio
        (set_component c (with_retained false comp)
           (log [ConsoleError ("Error loading image " ++ src (data comp))] w))
  end.

(** The end of the [try] block: take the texture and ratio of the
    cache item and mark the source retained. *)
Definition on_item (c : nat) (oldData : option Data) (tex : TexRef) (ratio : Z * Z)
    (w : World) : World :=
  match components w !! c with
  | None => w
  | Some comp =>
      after_try c oldData tex ratio (set_component c (with_retained true comp) w)
  end.

(** The staleness test that closes the not-cached branch. *)
Definition stale (c : nat) (key : string) (w : World) : bool :=
  match components w !! c with
  | None => true
  | Some comp => negb (bool_decide (src (data comp) = key)) || negb (parentNode comp)
  end.

Definition checked_item (c : nat) (key : string) (oldData : option Data)
    (tex : TexRef) (ratio : Z * Z) (w : World) : World :=
  if stale c key w then release key w else on_item c oldData tex ratio w.

Definition of_item (item : TextureCache.CacheItem) : TexRef * (Z * Z) :=
  (Loaded (TextureCache.texture item), TextureCache.ratio item).

(** The loader [update] picks for a content type; none is the thrown
    "Unknown image content type". *)
Definition loader (ct : string) : option string :=
  if includes "image/gif" ct then Some "createGIFTexture"
  else if startsWith ct "image/" then Some "createImageTexture"
  else None.

(** The head of [update]: when the mesh has a [map] and the source
    changed, the material loses its texture and, unless that [map] is
    the placeholder, the previous source is released. *)
Definition drop_previous (c : nat) (oldData : option Data) (w : World) : World :=
  match components w !! c with
  | None => w
  | Some comp =>
      match mesh comp with
      | Some m =>
          match mesh_map m with
          | Some mm =>
              if negb (bool_decide (Some (src (data comp)) = src <$> oldData)) then
                let m' := {| geometry := geometry m; mesh_map := mesh_map m;
                             material_map := None; transparent := transparent m;
                             scale_ratio := scale_ratio m |} in
                let w := set_component c (with_mesh (Some m') comp) w in
                if is_error mm then w
                else
                  let w := release_old oldData w in
                  match components w !! c with
                  | Some comp' => set_component c (with_retained false comp') w
                  | None => w
                  end
              else w
          | None => w
          end
      | None => w
      end
  end.

(** [update(oldData)] up to its first suspension. *)
Definition update (c : nat) (oldData : option Data) (w : World) : World :=
  match components w !! c with
  | None => w
  | Some comp =>
      let key := src (data comp) in
      if bool_decide (key = "") then w else
      let w := drop_previous c oldData (log [Emit c "image-loading"] w) in
      let retained :=
        match components w !! c with
        | Some comp' => currentSrcIsRetained comp'
        | None => false
        end in
      if TextureCache.has key (textureCache w) then
        if retained then
          match TextureCache.get key (textureCache w) with
          | Some item => on_item c oldData (of_item item).1 (of_item item).2 w
          | None => on_error c oldData w
          end
        else
          match TextureCache.retain key (textureCache w) with
          | Some (tc, item) =>
              on_item c oldData (of_item item).1 (of_item item).2 (set_cache tc w)
          | None => on_error c oldData w
          end
      else if bool_decide (key = "error") then
        checked_item c key oldData ErrorTexture errorRatio w
      else
        match inflightTextures w !! key with
        | Some p =>
            let '(ps, q) := Promise.await p (AwaitInflight c key oldData) (promises w) in
            set_microtasks (microtasks w ++ q) (set_promises ps (nextPromise w) w)
        | None =>
            match loader (contentType (data comp)) with
            | None =>
                on_error c oldData w
            | Some f =>
                let p := nextPromise w in
                let w := log [LoadStarted f key p] w in
                let w := set_promises (<[p := Pending [AwaitLoad c key oldData]]> (promises w)) (S p) w in
                set_inflight (<[key := p]> (inflightTextures w)) w
            end
        end
  end.

(** Resuming a suspended [update] with the outcome of its promise. *)
Definition resume (task : Frame * Settled Texture) (w : World) : World :=
  match task with
  | (AwaitInflight c key oldData, Rejected _) => on_error c oldData w
  | (AwaitInflight c key oldData, Fulfilled _) =>
      match TextureCache.retain key (textureCache w) with
      | Some (tc, item) =>
          checked_item c key oldData (of_item item).1 (of_item item).2 (set_cache tc w)
      | None => on_error c oldData w
      end
  | (AwaitLoad c key oldData, Rejected _) => on_error c oldData w
  | (AwaitLoad c key oldData, Fulfilled tex) =>
      let w := set_inflight (delete key (inflightTextures w)) w in
      match TextureCache.set key tex (textureCache w) with
      | Some (tc, item) =>
          checked_item c key oldData (of_item item).1 (of_item item).2 (set_cache tc w)
      | None => on_error c oldData w
      end
  end.

(** Run the queued microtasks in order.  A resumed [update] has no
    further suspension point, so the queue only shrinks. *)
Definition drain (w : World) : World :=
  foldl (fun w task => resume task w) (set_microtasks [] w) (microtasks w).

(** [remove()]. *)
Definition remove (c : nat) (w : World) : World :=
  match components w !! c with
  | None => w
  | Some comp =>
      let w :=
        match mesh comp with
        | Some _ => if batch (data comp) then log [BatchRemove c] w else w
        | None => w
        end in
      if currentSrcIsRetained comp then
        let w := release (src (data comp)) w in
        match components w !! c with
        | Some comp' => set_component c (with_retained false comp') w
        | None => w
        end
      else w
  end.

(** What the event loop delivers: a data change on a component, the
    removal of its entity, or a loader settling its promise. *)
Inductive Event :=
| SetData (c : nat) (d : Data)
| Detach (c : nat)
| Settle (p : nat) (outcome : Settled Texture).

(** A component as A-Frame creates it: attached, nothing loaded. *)
Definition new_component (d : Data) : Component :=
  {| data := d; currentSrcIsRetained := false; mesh := None; parentNode := true |}.

(** The component after a data change: the new data on the existing
    component, or a new component. *)
Definition requested (d : Data) (existing : option Component) : Component :=
  match existing with
  | Some comp => with_data d comp
  | None => new_component d
  end.

Definition step (ev : Event) (w : World) : World :=
  match ev with
  | SetData c d =>
      drain (update c (data <$> components w !! c)
               (set_component c (requested d (components w !! c)) w))
  | Detach c =>
      match components w !! c with
      | Some comp => drain (remove c (set_component c (with_parentNode false comp) w))
      | None => w
      end
  | Settle p r =>
      let '(ps, q) := Promise.settle p r (promises w) in
      drain (set_microtasks (microtasks w ++ q) (set_promises ps (nextPromise w) w))
  end.

Definition run (evs : list Event) (w : World) : World :=
  foldl (fun w ev => step ev w) w evs.

Definition empty : World :=
  {| textureCache := ∅; inflightTextures := ∅; promises := ∅; nextPromise := 0;
     components := ∅; microtasks := []; effects := [] |}.

(** How many load computations were started for [key]. *)
Definition is_load_of (key : string) (e : Effect) : bool :=
  match e with
  | LoadStarted _ k _ => bool_decide (k = key)
  | _ => false
  end.

Definition loads_started (key : string) (es : list Effect) : nat :=
  length (List.filter (is_load_of key) es).

End MediaImage.

(** ** three.js and A-Frame objects

    The numbers of a transform are IEEE doubles; the model keeps them
    abstract ([num]) together with the three.js routines the inflater
    calls on them, so that every statement holds whatever those routines
    compute. *)

Module Three.

Class Scalar := {
  num : Type;
  num_one : num;
  num_mul : num -> num -> num
}.

Section Values.
Context `{Scalar}.

Record Vector3 := { x : num; y : num; z : num }.
Record Euler := { ex : num; ey : num; ez : num; order : string }.
Record Quaternion := { qx : num; qy : num; qz : num; qw : num }.

(** [v.multiplyScalar(s)]. *)
Definition multiplyScalar (v : Vector3) (s : num) : Vector3 :=
  {| x := num_mul (x v) s; y := num_mul (y v) s; z := num_mul (z v) s |}.
End Values.

(** The three.js routines used by the inflater.  [Matrix4_decompose m e]
    is [m.decompose(p, e, s)] with the Euler object [e] passed where
    three.js writes the rotation: it returns the position, the
    rotation (in the order of [e]) and the scale read off [m].
    [generateUUID o] is the identifier [THREE.Math.generateUUID()]
    draws when it is called for the object [o]. *)
Class Math `{Scalar} := {
  Matrix4 : Type;
  Matrix4_identity : Matrix4;
  Matrix4_decompose : Matrix4 -> Euler -> Vector3 * Euler * Vector3;
  Euler_setFromQuaternion : Quaternion -> string -> Euler;
  Quaternion_setFromEuler : Euler -> Quaternion;
  generateUUID : nat -> string
}.

(** A component block: component key to data, in property order. *)
Definition Components := list (string * JS.json).

Record GltfExtensions := {
  MOZ_hubs_components : option Components;
  HUBS_components : option Components
}.

Record UserData := {
  gltfExtensions : option GltfExtensions;
  components : option Components;
  gltfIndex : option Z
}.

Section Objects.
Context `{Math}.

(** An [Object3D] of the parsed asset.  [oid] is the identity of the
    JavaScript object; [animations] holds clip identifiers. *)
Inductive Node := mkNode {
  oid : nat;
  name : string;
  uuid : string;
  type : string;
  children : list Node;
  position : Vector3;
  rotation : Euler;
  quaternion : Quaternion;
  scale : Vector3;
  matrix : Matrix4;
  matrixAutoUpdate : bool;
  userData : UserData;
  animations : option (list nat)
}.

(** The [THREE.Group] that A-Frame gives an entity. *)
Record Group := {
  g_position : Vector3;
  g_rotation : Euler;
  g_scale : Vector3;
  g_name : string;
  g_uuid : string;
  g_matrixNeedsUpdate : bool;
  g_animations : option (list nat)
}.

(** An [a-entity] built by the inflater: its class, its child
    entities, its group, the asset node registered on it (the single
    child of the group) and the names it is registered under. *)
Inductive Entity := mkEntity {
  className : string;
  childEntities : list Entity;
  object3D : Group;
  payload : Node;
  object3DMap : list string
}.

(** A glTF as the loader returns it. *)
Record GLTF := {
  scene : Node;
  gltf_animations : option (list nat)
}.

(** [object.traverse(f)] visits the object, then each child subtree. *)
Fixpoint traverse (n : Node) : list Node :=
  n :: (fix each (cs : list Node) : list Node :=
          match cs with
          | [] => []
          | c :: cs' => traverse c ++ each cs'
          end) (children n).

Definition oids (n : Node) : list nat := oid <$> traverse n.

(** A scene graph without the identities of its objects: what two
    graphs have in common when one is a copy of the other. *)
Fixpoint forget_identity (n : Node) : Node :=
  mkNode 0 (name n) (uuid n) (type n)
    ((fix each (cs : list Node) : list Node :=
        match cs with
        | [] => []
        | c :: cs' => forget_identity c :: each cs'
        end) (children n))
    (position n) (rotation n) (quaternion n) (scale n) (matrix n)
    (matrixAutoUpdate n) (userData n) (animations n).

(** Entities of an entity tree, the entity first. *)
Fixpoint entities (e : Entity) : list Entity :=
  e :: (fix each (es : list Entity) : list Entity :=
          match es with
          | [] => []
          | c :: es' => entities c ++ each es'
          end) (childEntities e).

End Objects.

End Three.

(** ** The glTF cache *)

Module GLTFCache.
Section WithMath.
Context `{Three.Math}.

Record CacheItem := {
  gltf : Three.GLTF;
  count : Z
}.

Definition with_count (item : CacheItem) (c : Z) : CacheItem :=
  {| gltf := gltf item; count := c |}.

Definition has (src : string) (cache : gmap string CacheItem) : bool :=
  bool_decide (is_Some (cache !! src)).

Definition get (src : string) (cache : gmap string CacheItem) : option CacheItem :=
  cache !! src.

Definition retain (src : string) (cache : gmap string CacheItem)
  : option (gmap string CacheItem * CacheItem) :=
  match cache !! src with
  | Some item =>
      let item' := with_count item (count item + 1) in
      Some (<[src := item']> cache, item')
  | None => None
  end.

Definition set (src : string) (g : Three.GLTF) (cache : gmap string CacheItem)
  : option (gmap string CacheItem * CacheItem) :=
  retain src (<[src := {| gltf := g; count := 0 |}]> cache).

(** [scene.traverse(disposeNode)]: one call per node of the scene. *)
Definition dispose (g : Three.GLTF) : list Effect :=
  DisposeNode <$> Three.oids (Three.scene g).

Definition release (src : string) (cache : gmap string CacheItem)
  : gmap string CacheItem * list Effect :=
  match cache !! src with
  | None => (cache, [ConsoleError ("Releasing uncached gltf " ++ src)])
  | Some item =>
      let item' := with_count item (count item - 1) in
      if (count item' <=? 0)%Z
      then (delete src cache, dispose (gltf item'))
      else (<[src := item']> cache, [])
  end.

End WithMath.
End GLTFCache.

(** A call that returns normally or throws. *)
Inductive Result (A : Type) :=
| Ok (a : A)
| Throw (e : string).
Arguments Ok {A} a.
Arguments Throw {A} e.

(** ** The scene-graph inflater *)

Module Inflater.
Section WithMath.
Context `{Three.Math}.
Import Three.

(** The templates of a consumer: template name to the imported
    fragment, in declaration order. *)
Definition Templates := list (string * nat).

Definition getHubsComponents (node : Node) : option Components :=
  let hubsComponents :=
    match gltfExtensions (userData node) with
    | Some ext =>
        match MOZ_hubs_components ext with
        | Some c => Some c
        | None => HUBS_components ext
        end
    | None => None
    end in
  match hubsComponents with
  | Some c => Some c
  | None => components (userData node)
  end.

(** The renaming of legacy avatar nodes at the head of
    [inflateEntities]. *)
Definition legacy_name (n : string) : string :=
  if bool_decide (n = "Chest") then "Spine"
  else if bool_decide (n = "Root Scene") then "AvatarRoot"
  else if bool_decide (n = "Bot_Skinned") then "AvatarMesh"
  else n.

(** [name in templates]. *)
Definition in_templates (n : string) (templates : Templates) : bool :=
  JS.in_object n (fst <$> templates).

(** [!!entityComponents || node.name in templates], on the renamed
    node. *)
Definition nodeHasBehavior (node : Node) (templates : Templates) : bool :=
  bool_decide (is_Some (getHubsComponents node))
  || in_templates (legacy_name (name node)) templates.

Definition sanitize (s : string) : string :=
  JS.filter_chars JS.is_word_or_hyphen s.

Definition set_name_children (n : string) (cs : list Node) (node : Node) : Node :=
  mkNode (oid node) n (uuid node) (type node) cs (position node) (rotation node)
    (quaternion node) (scale node) (matrix node) (matrixAutoUpdate node)
    (userData node) (animations node).

(** [inflateEntities(indexToEntityMap, node, templates, isRoot,
    modelToWorldScale)].  The result is the lookup table, the node as
    the call leaves it, and the entity or null.  A child that got an
    entity has been moved under that entity's group, so the node keeps
    only the children that got none.  [classList.add] throws on an
    empty class name. *)
Fixpoint inflateEntities (indexToEntityMap : gmap Z Entity) (node : Node)
    (templates : Templates) (isRoot : bool) (modelToWorldScale : num) {struct node}
  : Result (gmap Z Entity * Node * option Entity) :=
  let name1 := legacy_name (name node) in
  match
    (fix each (cs : list Node) (idx : gmap Z Entity)
       : Result (gmap Z Entity * list Node * list Entity) :=
       match cs with
       | [] => Ok (idx, [], [])
       | child :: cs' =>
           match inflateEntities idx child templates false num_one with
           | Throw e => Throw e
           | Ok (idx1, child', r) =>
               match each cs' idx1 with
               | Throw e => Throw e
               | Ok (idx2, kept, els) =>
                   match r with
                   | Some el => Ok (idx2, kept, el :: els)
                   | None => Ok (idx2, child' :: kept, els)
                   end
               end
           end
       end) (children node) indexToEntityMap
  with
  | Throw e => Throw e
  | Ok (idx, kept, els) =>
      let entityComponents := getHubsComponents node in
      if negb (nodeHasBehavior node templates)
         && bool_decide (els = []) && negb isRoot
      then Ok (idx, set_name_children name1 kept node, None)
      else
        let cls := sanitize (JS.str_or name1 (uuid node)) in
        if bool_decide (cls = "") then
          Throw "SyntaxError: The token provided must not be empty."
        else
          let rot :=
            if bool_decide (order (rotation node) = "YXZ") then rotation node
            else Euler_setFromQuaternion (quaternion node) "YXZ" in
          let group :=
            {| g_position := position node;
               g_rotation := rot;
               g_scale := multiplyScalar (scale node) modelToWorldScale;
               g_name := name1;
               g_uuid := uuid node;
               g_matrixNeedsUpdate := true;
               g_animations := animations node |} in
          let '(p, r, s) := Matrix4_decompose Matrix4_identity rot in
          let node' :=
            mkNode (oid node) name1 (generateUUID (oid node)) (type node) kept
              p r (Quaternion_setFromEuler r) s Matrix4_identity false
              (userData node) (animations node) in
          let keys :=
            JS.toLowerCase (type node)
            :: match entityComponents with
               | Some c =>
                   if bool_decide (is_Some (JS.prop "nav-mesh" c))
                      && negb (bool_decide (JS.toLowerCase (type node) = "mesh"))
                   then ["mesh"] else []
               | None => []
               end in
          let el := mkEntity cls els group node' keys in
          let idx' :=
            match gltfIndex (userData node) with
            | Some i => <[i := el]> idx
            | None => idx
            end in
          Ok (idx', node', Some el)
  end.

(** The loop of [inflateEntities] over the children: the lookup table,
    the children that got no entity and the entities collected. *)
Definition inflate_children (templates : Templates)
  : list Node -> gmap Z Entity -> Result (gmap Z Entity * list Node * list Entity) :=
  fix each (cs : list Node) (idx : gmap Z Entity) :=
    match cs with
    | [] => Ok (idx, [], [])
    | child :: cs' =>
        match inflateEntities idx child templates false num_one with
        | Throw e => Throw e
        | Ok (idx1, child', r) =>
            match each cs' idx1 with
            | Throw e => Throw e
            | Ok (idx2, kept, els) =>
                match r with
                | Some el => Ok (idx2, kept, el :: els)
                | None => Ok (idx2, child' :: kept, els)
                end
            end
        end
    end.

(** The nodes strictly below a node. *)
Definition descendants (node : Node) : list Node :=
  children node ≫= traverse.

(** The entities strictly below an entity. *)
Definition descendant_entities (el : Entity) : list Entity :=
  childEntities el ≫= entities.

(** The node carries extension-metadata components. *)
Definition carries_components (node : Node) : Prop :=
  is_Some (getHubsComponents node).

(** The node qualifies on its own: it carries components, or its name,
    after the legacy renaming, is the name of a declared template. *)
Definition qualifies (templates : Templates) (node : Node) : Prop :=
  carries_components node \/ legacy_name (name node) ∈ (fst <$> templates).

(** A match in the plain sense: the name of the node, as the asset has
    it, is the name of a declared template. *)
Definition name_matches_template (templates : Templates) (node : Node) : Prop :=
  name node ∈ (fst <$> templates).

(** The rotation of a node in the YXZ order, as the inflater computes
    it before it copies the transform. *)
Definition rotation_YXZ (node : Node) : Euler :=
  if bool_decide (order (rotation node) = "YXZ") then rotation node
  else Euler_setFromQuaternion (quaternion node) "YXZ".

(** The entity [el] wraps the node [node] with its transform baked in:
    the group of the entity has the position, the YXZ rotation and the
    scale, times [factor], that the node had; the node it wraps is the
    same object with the identity matrix, no automatic matrix update,
    and position, rotation and scale read back from that matrix. *)
Definition baked (node : Node) (factor : num) (el : Entity) : Prop :=
  g_position (object3D el) = position node
  /\ g_rotation (object3D el) = rotation_YXZ node
  /\ g_scale (object3D el) = multiplyScalar (scale node) factor
  /\ oid (payload el) = oid node
  /\ matrix (payload el) = Matrix4_identity
  /\ matrixAutoUpdate (payload el) = false
  /\ (position (payload el), rotation (payload el), scale (payload el))
     = Matrix4_decompose Matrix4_identity (rotation_YXZ node)
  /\ quaternion (payload el) = Quaternion_setFromEuler (rotation (payload el)).

End WithMath.
End Inflater.

(** ** Schema migration of the glTF JSON *)

Module Migration.

Record NodeExtensions := {
  MOZ_hubs_components : option Three.Components;
  HUBS_components : option Three.Components
}.

(** A node of the JSON scene description: its extension block and its
    other properties. *)
Record JsonNode := {
  extensions : option NodeExtensions;
  properties : list (string * JS.json)
}.

(** The top-level [MOZ_hubs_components] block: the [version] field,
    when the block has one, is an integer. *)
Record TopBlock := {
  version : option Z;
  block_rest : list (string * JS.json)
}.

Record Json := {
  top_MOZ_hubs_components : option TopBlock;
  nodes : option (list JsonNode);
  json_rest : list (string * JS.json)
}.

(** The block the [find] callback and the deletion both select. *)
Definition selected (node : JsonNode) : option Three.Components :=
  match extensions node with
  | Some ext =>
      match MOZ_hubs_components ext with
      | Some c => Some c
      | None => HUBS_components ext
      end
  | None => None
  end.

Definition truthy_prop (key : string) (c : Three.Components) : bool :=
  match JS.prop key c with
  | Some v => JS.truthy v
  | None => false
  end.

(** The [find] callback: heightfield and nav-mesh on the same node. *)
Definition is_old_heightfield (node : JsonNode) : bool :=
  match selected node with
  | Some c => truthy_prop "heightfield" c && truthy_prop "nav-mesh" c
  | None => false
  end.

(** [delete ... .heightfield] on the node that was found. *)
Definition delete_heightfield (node : JsonNode) : JsonNode :=
  match extensions node with
  | Some ext =>
      match MOZ_hubs_components ext with
      | Some c =>
          {| extensions :=
               Some {| MOZ_hubs_components := Some (JS.delete_prop "heightfield" c);
                       HUBS_components := HUBS_components ext |};
             properties := properties node |}
      | None =>
          match HUBS_components ext with
          | Some c =>
              {| extensions :=
                   Some {| MOZ_hubs_components := None;
                           HUBS_components := Some (JS.delete_prop "heightfield" c) |};
                 properties := properties node |}
          | None => node
          end
      end
  | None => node
  end.

Definition with_nodes (ns : list JsonNode) (json : Json) : Json :=
  {| top_MOZ_hubs_components := top_MOZ_hubs_components json;
     nodes := Some ns; json_rest := json_rest json |}.

(** [runMigration(version, json)]; [None] is the TypeError of
    [json.nodes.find] when the document has no node array. *)
Definition runMigration (v : Z) (json : Json) : option Json :=
  if (v <? 2)%Z then
    match nodes json with
    | None => None
    | Some ns =>
        match list_find (fun n => is_old_heightfield n = true) ns with
        | Some (i, oldHeightfieldNode) =>
            Some (with_nodes (<[i := delete_heightfield oldHeightfieldNode]> ns) json)
        | None => Some json
        end
    end
  else Some json.

(** The version [loadGLTF] reads before it calls [runMigration]. *)
Definition read_version (json : Json) : Z :=
  match top_MOZ_hubs_components json with
  | Some block =>
      match version block with
      | Some v => v
      | None => 0%Z
      end
  | None => 0%Z
  end.

(** The migration step of [loadGLTF]. *)
Definition migrate (json : Json) : option Json :=
  runMigration (read_version json) json.

(** The nodes that carry the obsolete pattern. *)
Definition old_heightfields (json : Json) : list JsonNode :=
  match nodes json with
  | Some ns => List.filter is_old_heightfield ns
  | None => []
  end.

End Migration.

(** ** The model loader and the model component ([gltf-model-plus]) *)

Module GltfModelPlus.
Section WithMath.
Context `{Three.Math}.
Import Three.

(** New objects for a scene graph: every node gets the next unused
    object identifier, the node before its children. *)
Fixpoint allocate (next : nat) (n : Node) : nat * Node :=
  let '(next', cs) :=
    (fix each (cs : list Node) (nxt : nat) : nat * list Node :=
       match cs with
       | [] => (nxt, [])
       | c :: cs' =>
           let '(n1, c') := allocate nxt c in
           let '(n2, rest) := each cs' n1 in
           (n2, c' :: rest)
       end) (children n) (S next) in
  (next',
   mkNode next (name n) (uuid n) (type n) cs (position n) (rotation n)
     (quaternion n) (scale n) (matrix n) (matrixAutoUpdate n)
     (userData n) (animations n)).

(** The loop of [allocate] over the children. *)
Definition allocate_children : list Node -> nat -> nat * list Node :=
  fix each (cs : list Node) (nxt : nat) :=
    match cs with
    | [] => (nxt, [])
    | c :: cs' =>
        let '(n1, c') := allocate nxt c in
        let '(n2, rest) := each cs' n1 in
        (n2, c' :: rest)
    end.

(** Modelled from the spec: [cloneObject3D] of [utils/three-utils],
    which is not among the sources.  The spec has every consumer
    expand its own copy of the loaded asset, structurally isomorphic
    to it and sharing no object with it; the copy therefore has the
    fields and the shape of the source and a new object for every
    node. *)
Definition cloneObject3D (next : nat) (source : Node) : nat * Node :=
  allocate next source.

(** [cloneGltf(gltf)], with the next unused object identifier. *)
Definition cloneGltf (next : nat) (g : GLTF) : nat * GLTF :=
  let '(next', s) := cloneObject3D next (scene g) in
  (next', {| scene := s; gltf_animations := animations (scene g) |}).

(** [clone] is a copy of [g] made of the objects numbered from [next]
    on: same shape and fields, the clips of the scene, new identities. *)
Definition fresh_clone_of (next : nat) (g clone : GLTF) : Prop :=
  oids (scene clone) = seq next (length (traverse (scene g)))
  /\ forget_identity (scene clone) = forget_identity (scene g)
  /\ gltf_animations clone = animations (scene g).

(** Who awaits a [loadModel] call: [applySrc] of a component, with
    its local variables, or a caller outside this file. *)
Inductive Caller :=
| ApplySrc (c : nat) (src : string) (lastSrc : option string)
| External (tag : nat).

(** The suspension points of [loadModel]. *)
Inductive LoadFrame :=
| AwaitInflight (k : Caller) (src : string)
| AwaitLoad (k : Caller) (src : string)
| Direct (k : Caller).

(** The suspension of [applySrc] at [await nextTick()], with its
    locals. *)
Record TickFrame := {
  tick_c : nat;
  tick_src : string;
  tick_lastSrc : option string;
  tick_indexToEntityMap : gmap Z Entity;
  tick_object3DToSet : nat
}.

Inductive Task :=
| RunLoad (f : LoadFrame) (r : Settled GLTF)
| Deliver (k : Caller) (r : Settled GLTF)
| RunTick (f : TickFrame) (querySelectorAll : string -> Result (list nat)).

Record Data := {
  src : string;
  contentType : string;
  useCache : bool;
  inflate : bool;
  batch : bool;
  modelToWorldScale : num
}.

(** The component: its data, [lastSrc], [inflatedEl], [model], the
    template elements under its element ([data-name] and imported root
    of each, in document order), the inflated entities appended to its
    element, the object registered as its mesh, and whether it has a
    mixer. *)
Record Component := {
  data : Data;
  lastSrc : option string;
  inflatedEl : option Entity;
  model : option Node;
  templates : Inflater.Templates;
  appended : list Entity;
  mesh : option nat;
  animation_mixer : bool
}.

Inductive Inflator :=
| DefaultInflator
| CustomInflator (throws : bool).

Record Registration := {
  componentName : string;
  inflator : Inflator
}.

Record World := {
  gltfCache : gmap string GLTFCache.CacheItem;
  inflightGltfs : gmap string nat;
  loads : gmap nat (PromiseState GLTF LoadFrame);
  ticks : gmap nat TickFrame;
  nextPromise : nat;
  nextOid : nat;
  components : gmap nat Component;
  registered : gmap string Registration;
  aframe_components : list string;
  assets : gmap string string;
  microtasks : list Task;
  effects : list Effect;
  returned : list (nat * Settled GLTF)
}.

Definition set_cache (gc : gmap string GLTFCache.CacheItem) (w : World) : World :=
  {| gltfCache := gc; inflightGltfs := inflightGltfs w; loads := loads w;
     ticks := ticks w; nextPromise := nextPromise w; nextOid := nextOid w;
     components := components w; registered := registered w;
     aframe_components := aframe_components w; assets := assets w;
     microtasks := microtasks w; effects := effects w; returned := returned w |}.

Definition set_inflight (m : gmap string nat) (w : World) : World :=
  {| gltfCache := gltfCache w; inflightGltfs := m; loads := loads w;
     ticks := ticks w; nextPromise := nextPromise w; nextOid := nextOid w;
     components := components w; registered := registered w;
     aframe_components := aframe_components w; assets := assets w;
     microtasks := microtasks w; effects := effects w; returned := returned w |}.

Definition set_loads (ls : gmap nat (PromiseState GLTF LoadFrame)) (w : World) : World :=
  {| gltfCache := gltfCache w; inflightGltfs := inflightGltfs w; loads := ls;
     ticks := ticks w; nextPromise := nextPromise w; nextOid := nextOid w;
     components := components w; registered := registered w;
     aframe_components := aframe_components w; assets := assets w;
     microtasks := microtasks w; effects := effects w; returned := returned w |}.

Definition set_ticks (ts : gmap nat TickFrame) (w : World) : World :=
  {| gltfCache := gltfCache w; inflightGltfs := inflightGltfs w; loads := loads w;
     ticks := ts; nextPromise := nextPromise w; nextOid := nextOid w;
     components := components w; registered := registered w;
     aframe_components := aframe_components w; assets := assets w;
     microtasks := microtasks w; effects := effects w; returned := returned w |}.

Definition set_nextPromise (n : nat) (w : World) : World :=
  {| gltfCache := gltfCache w; inflightGltfs := inflightGltfs w; loads := loads w;
     ticks := ticks w; nextPromise := n; nextOid := nextOid w;
     components := components w; registered := registered w;
     aframe_components := aframe_components w; assets := assets w;
     microtasks := microtasks w; effects := effects w; returned := returned w |}.

Definition set_nextOid (n : nat) (w : World) : World :=
  {| gltfCache := gltfCache w; inflightGltfs := inflightGltfs w; loads := loads w;
     ticks := ticks w; nextPromise := nextPromise w; nextOid := n;
     components := components w; registered := registered w;
     aframe_components := aframe_components w; assets := assets w;
     microtasks := microtasks w; effects := effects w; returned := returned w |}.

Definition set_component (c : nat) (comp : Component) (w : World) : World :=
  {| gltfCache := gltfCache w; inflightGltfs := inflightGltfs w; loads := loads w;
     ticks := ticks w; nextPromise := nextPromise w; nextOid := nextOid w;
     components := <[c := comp]> (components w); registered := registered w;
     aframe_components := aframe_components w; assets := assets w;
     microtasks := microtasks w; effects := effects w; returned := returned w |}.

Definition set_microtasks (q : list Task) (w : World) : World :=
  {| gltfCache := gltfCache w; inflightGltfs := inflightGltfs w; loads := loads w;
     ticks := ticks w; nextPromise := nextPromise w; nextOid := nextOid w;
     components := components w; registered := registered w;
     aframe_components := aframe_components w; assets := assets w;
     microtasks := q; effects := effects w; returned := returned w |}.

Definition log (es : list Effect) (w : World) : World :=
  {| gltfCache := gltfCache w; inflightGltfs := inflightGltfs w; loads := loads w;
     ticks := ticks w; nextPromise := nextPromise w; nextOid := nextOid w;
     components := components w; registered := registered w;
     aframe_components := aframe_components w; assets := assets w;
     microtasks := microtasks w; effects := effects w ++ es; returned := returned w |}.

Definition record_return (tag : nat) (r : Settled GLTF) (w : World) : World :=
  {| gltfCache := gltfCache w; inflightGltfs := inflightGltfs w; loads := loads w;
     ticks := ticks w; nextPromise := nextPromise w; nextOid := nextOid w;
     components := components w; registered := registered w;
     aframe_components := aframe_components w; assets := assets w;
     microtasks := microtasks w; effects := effects w;
     returned := returned w ++ [(tag, r)] |}.

Definition enqueue (q : list Task) (w : World) : World :=
  set_microtasks (microtasks w ++ q) w.

(** [gltfCache.release(key)] on the shared table. *)
Definition release (key : string) (w : World) : World :=
  let '(gc, es) := GLTFCache.release key (gltfCache w) in
  log es (set_cache gc w).

(** [return cloneGltf(g)] from [loadModel]: the caller's [await]
    resumes with the clone. *)
Definition return_clone (k : Caller) (g : GLTF) (w : World) : World :=
  let '(next, clone) := cloneGltf (nextOid w) g in
  enqueue [Deliver k (Fulfilled clone)] (set_nextOid next w).

(** The call [loadGLTF(src, ...)]: a load computation starts and its
    promise is pending. *)
Definition loadGLTF (key : string) (f : LoadFrame) (w : World) : nat * World :=
  let p := nextPromise w in
  (p, set_nextPromise (S p)
        (set_loads (<[p := Pending [f]]> (loads w))
           (log [LoadStarted "loadGLTF" key p] w))).

(** [loadModel(src, contentType, useCache, jsonPreprocessor)] called
    by [k], up to its first suspension. *)
Definition loadModel (k : Caller) (key : string) (cache : bool) (w : World) : World :=
  if cache then
    if GLTFCache.has key (gltfCache w) then
      match GLTFCache.retain key (gltfCache w) with
      | Some (gc, _) =>
          let w := set_cache gc w in
          match GLTFCache.get key (gltfCache w) with
          | Some item => return_clone k (GLTFCache.gltf item) w
          | None => enqueue [Deliver k (Rejected "TypeError")] w
          end
      | None => enqueue [Deliver k (Rejected "TypeError")] w
      end
    else
      match inflightGltfs w !! key with
      | Some p =>
          let '(ls, q) := Promise.await p (AwaitInflight k key) (loads w) in
          enqueue ((fun '(f, r) => RunLoad f r) <$> q) (set_loads ls w)
      | None =>
          let '(p, w) := loadGLTF key (AwaitLoad k key) w in
          set_inflight (<[key := p]> (inflightGltfs w)) w
      end
  else
    (loadGLTF key (Direct k) w).2.

(** Resuming [loadModel] when the promise it awaits has settled. *)
Definition resume_load (f : LoadFrame) (r : Settled GLTF) (w : World) : World :=
  match f, r with
  | AwaitInflight k key, Fulfilled g =>
      match GLTFCache.retain key (gltfCache w) with
      | Some (gc, _) => return_clone k g (set_cache gc w)
      | None => enqueue [Deliver k (Rejected "TypeError")] w
      end
  | AwaitLoad k key, Fulfilled g =>
      let w := set_inflight (delete key (inflightGltfs w)) w in
      match GLTFCache.set key g (gltfCache w) with
      | Some (gc, _) => return_clone k g (set_cache gc w)
      | None => enqueue [Deliver k (Rejected "TypeError")] w
      end
  | AwaitInflight k _, Rejected e
  | AwaitLoad k _, Rejected e => enqueue [Deliver k (Rejected e)] w
  | Direct k, r => enqueue [Deliver k r] w
  end.

Definition with_lastSrc (v : option string) (comp : Component) : Component :=
  {| data := data comp; lastSrc := v; inflatedEl := inflatedEl comp;
     model := model comp; templates := templates comp; appended := appended comp;
     mesh := mesh comp; animation_mixer := animation_mixer comp |}.

Definition with_inflatedEl (v : option Entity) (comp : Component) : Component :=
  {| data := data comp; lastSrc := lastSrc comp; inflatedEl := v;
     model := model comp; templates := templates comp; appended := appended comp;
     mesh := mesh comp; animation_mixer := animation_mixer comp |}.

Definition with_model (v : option Node) (comp : Component) : Component :=
  {| data := data comp; lastSrc := lastSrc comp; inflatedEl := inflatedEl comp;
     model := v; templates := templates comp; appended := appended comp;
     mesh := mesh comp; animation_mixer := animation_mixer comp |}.

Definition with_appended (v : list Entity) (comp : Component) : Component :=
  {| data := data comp; lastSrc := lastSrc comp; inflatedEl := inflatedEl comp;
     model := model comp; templates := templates comp; appended := v;
     mesh := mesh comp; animation_mixer := animation_mixer comp |}.

Definition with_mesh (v : option nat) (comp : Component) : Component :=
  {| data := data comp; lastSrc := lastSrc comp; inflatedEl := inflatedEl comp;
     model := model comp; templates := templates comp; appended := appended comp;
     mesh := v; animation_mixer := animation_mixer comp |}.

Definition with_mixer (v : bool) (comp : Component) : Component :=
  {| data := data comp; lastSrc := lastSrc comp; inflatedEl := inflatedEl comp;
     model := model comp; templates := templates comp; appended := appended comp;
     mesh := mesh comp; animation_mixer := v |}.

Definition with_data (v : Data) (comp : Component) : Component :=
  {| data := v; lastSrc := lastSrc comp; inflatedEl := inflatedEl comp;
     model := model comp; templates := templates comp; appended := appended comp;
     mesh := mesh comp; animation_mixer := animation_mixer comp |}.

Definition modify (c : nat) (f : Component -> Component) (w : World) : World :=
  match components w !! c with
  | Some comp => set_component c (f comp) w
  | None => w
  end.

(** Entities are compared by identity: that of the node they wrap. *)
Definition same_entity (a b : Entity) : bool :=
  bool_decide (oid (payload a) = oid (payload b)).

(** [disposeLastInflatedEl()]. *)
Definition disposeLastInflatedEl (c : nat) (w : World) : World :=
  match components w !! c with
  | Some comp =>
      match inflatedEl comp with
      | Some el =>
          log [DisposeInflatedEl c (oid (payload el))]
            (set_component c
               (with_mixer false
                  (with_inflatedEl None
                     (with_appended
                        (List.filter (fun e => negb (same_entity el e)) (appended comp))
                        comp)))
               w)
      | None => w
      end
  | None => w
  end.

(** The [catch] block of [applySrc]. *)
Definition on_error (c : nat) (key : string) (w : World) : World :=
  log [ConsoleError "Failed to load glTF model"; Emit c "model-error"] (release key w).

(** The end of [applySrc]: release the previous source, register the
    mesh, announce the model. *)
Definition finish (c : nat) (last : option string) (obj : nat) (w : World) : World :=
  let w :=
    match last with
    | Some l => if bool_decide (l = "") then w else release l w
    | None => w
    end in
  log [SetObject3D c "mesh" obj; Emit c "model-loaded"]
    (modify c (with_mesh (Some obj)) w).

(** One inflator call of [inflateComponents]; [Some e] is a throw. *)
Definition call_inflator (w : World) (cls : string) (prop : string)
  : list Effect * option string :=
  match registered w !! prop with
  | None => ([], None)
  | Some r =>
      match inflator r with
      | DefaultInflator =>
          if bool_decide (componentName r ∈ aframe_components w)
          then ([InflatorCall prop cls], None)
          else ([], Some "Inflator failed")
      | CustomInflator throws =>
          if throws then ([], Some "inflator threw") else ([InflatorCall prop cls], None)
      end
  end.

Fixpoint call_inflators (w : World) (calls : list (string * string))
  : list Effect * option string :=
  match calls with
  | [] => ([], None)
  | (cls, prop) :: rest =>
      match call_inflator w cls prop with
      | (es, Some e) => (es, Some e)
      | (es, None) =>
          let '(es', r) := call_inflators w rest in (es ++ es', r)
      end
  end.

(** The (entity class, component key) pairs [inflateComponents]
    visits, in traversal order. *)
Definition component_calls (el : Entity) : list (string * string) :=
  e ← entities el;
  n ← traverse (payload e);
  match Inflater.getHubsComponents n with
  | Some comps => (fun kv => (className e, kv.1)) <$> comps
  | None => []
  end.

Definition inflateComponents (el : Entity) (w : World) : list Effect * option string :=
  call_inflators w (component_calls el).

(** [loadTemplates()]: the object [this.templates], filled from the
    template elements in document order; a later element of the same
    name replaces the root stored under that name. *)
Definition loadTemplates (declared : Inflater.Templates) : Inflater.Templates :=
  foldl (fun obj t => JS.assign t.1 t.2 obj) [] declared.

(** [attachTemplate(root, name, templateRoot)].  [querySelectorAll] is
    the selector engine of the platform on the element of the
    component: the elements a selector matches, or the SyntaxError it
    throws for a selector it cannot parse.  Each element matched takes
    the attributes and the children of a copy of the template root. *)
Definition attachTemplate (querySelectorAll : string -> Result (list nat))
    (name : string) (templateRoot : nat) : Result (list Effect) :=
  match querySelectorAll (String "." name) with
  | Throw e => Throw e
  | Ok targetEls => Ok ((fun el => TemplateAttached name templateRoot el) <$> targetEls)
  end.

(** The loop [for (const name in this.templates)] over
    [attachTemplate]: the calls made up to the first throw; [Some e] is
    that throw. *)
Fixpoint attach_each (querySelectorAll : string -> Result (list nat))
    (properties : list (string * nat)) : list Effect * option string :=
  match properties with
  | [] => ([], None)
  | (name, templateRoot) :: rest =>
      match attachTemplate querySelectorAll name templateRoot with
      | Throw e => ([], Some e)
      | Ok es =>
          let '(es', r) := attach_each querySelectorAll rest in (es ++ es', r)
      end
  end.

Definition attachTemplates (querySelectorAll : string -> Result (list nat))
    (comp : Component) : list Effect * option string :=
  attach_each querySelectorAll (JS.for_in (loadTemplates (templates comp))).

(** [applySrc] after [await loadModel(...)]. *)
Definition resume_applySrc (c : nat) (key : string) (last : option string)
    (r : Settled GLTF) (w : World) : World :=
  match r with
  | Rejected _ => on_error c key w
  | Fulfilled g =>
      match components w !! c with
      | None => w
      | Some comp =>
          if negb (bool_decide (lastSrc comp = Some key)) then w else
          let w := disposeLastInflatedEl c w in
          let w := modify c (with_model (Some (scene g))) w in
          let w := if batch (data comp) then log [BatchAdd c] w else w in
          match gltf_animations g with
          | None => on_error c key w
          | Some anims =>
              let w :=
                if bool_decide (anims = [])
                then log [GenerateMeshBVH (oid (scene g))] w
                else log [InitMixer c] (modify c (with_mixer true) w) in
              if inflate (data comp) then
                match Inflater.inflateEntities ∅ (scene g) (templates comp) true
                        (modelToWorldScale (data comp)) with
                | Throw _ => on_error c key w
                | Ok (idx, node', res) =>
                    let w := modify c (fun x => with_inflatedEl res (with_model (Some node') x)) w in
                    match res with
                    | Some el =>
                        let w := modify c (fun x => with_appended (appended x ++ [el]) x) w in
                        let p := nextPromise w in
                        log [NextTick p]
                          (set_nextPromise (S p)
                             (set_ticks
                                (<[p := {| tick_c := c; tick_src := key;
                                           tick_lastSrc := last;
                                           tick_indexToEntityMap := idx;
                                           tick_object3DToSet := oid (payload el) |}]>
                                   (ticks w)) w))
                    | None => finish c last (oid node') w
                    end
                end
              else finish c last (oid (scene g)) w
          end
      end
  end.

(** [applySrc] after [await nextTick()].  Each selector is asked for
    once, so [querySelectorAll] gives, for every selector, the answer of
    the platform at the moment of that call. *)
Definition resume_tick (f : TickFrame) (querySelectorAll : string -> Result (list nat))
    (w : World) : World :=
  match components w !! tick_c f with
  | None => w
  | Some comp =>
      if negb (bool_decide (lastSrc comp = Some (tick_src f))) then w else
      match inflatedEl comp with
      | None => on_error (tick_c f) (tick_src f) w
      | Some el =>
          match inflateComponents el w with
          | (es, Some _) => on_error (tick_c f) (tick_src f) (log es w)
          | (es, None) =>
              match attachTemplates querySelectorAll comp with
              | (es', Some _) => on_error (tick_c f) (tick_src f) (log (es ++ es') w)
              | (es', None) =>
                  finish (tick_c f) (tick_lastSrc f) (tick_object3DToSet f)
                    (log (es ++ es') w)
              end
          end
      end
  end.

(** [applySrc(src, contentType)] up to its first suspension. *)
Definition applySrc (c : nat) (key : string) (w : World) : World :=
  match components w !! c with
  | None => w
  | Some comp =>
      if bool_decide (lastSrc comp = Some key) then w else
      let last := lastSrc comp in
      let w := set_component c (with_lastSrc (Some key) comp) w in
      if bool_decide (key = "") then
        match inflatedEl comp with
        | Some _ =>
            disposeLastInflatedEl c
              (log [ConsoleWarn "gltf-model-plus set to an empty source, unloading inflated model."] w)
        | None => w
        end
      else
        loadModel (ApplySrc c key last) key (useCache (data comp))
          (log [Emit c "model-loading"] w)
  end.

(** [resolveAsset(src)]: a source that starts with [#] names an asset
    item; a missing item makes [getAttribute] throw. *)
Definition resolveAsset (s : string) (w : World) : Result string :=
  match s with
  | String "#" id =>
      match assets w !! id with
      | Some url => Ok url
      | None => Throw "TypeError"
      end
  | _ => Ok s
  end.

(** [update()]. *)
Definition update (c : nat) (w : World) : World :=
  match components w !! c with
  | None => w
  | Some comp =>
      match resolveAsset (src (data comp)) w with
      | Ok key => applySrc c key w
      | Throw _ => w
      end
  end.

(** [remove()]. *)
Definition remove (c : nat) (w : World) : World :=
  match components w !! c with
  | None => w
  | Some comp =>
      let w :=
        match model comp with
        | Some _ => if batch (data comp) then log [BatchRemove c] w else w
        | None => w
        end in
      match resolveAsset (src (data comp)) w with
      | Ok key => if bool_decide (key = "") then w else release key w
      | Throw _ => w
      end
  end.

Definition run_task (t : Task) (w : World) : World :=
  match t with
  | RunLoad f r => resume_load f r w
  | Deliver (ApplySrc c key last) r => resume_applySrc c key last r w
  | Deliver (External tag) r => record_return tag r w
  | RunTick f querySelectorAll => resume_tick f querySelectorAll w
  end.

(** Microtasks run first in, first out until none is left.  A resumed
    [loadModel] schedules its caller; nothing else schedules, so the
    weight of the queue bounds the number of steps. *)
Definition weight (t : Task) : nat :=
  match t with
  | RunLoad _ _ => 2
  | _ => 1
  end.

Fixpoint drain_steps (fuel : nat) (w : World) : World :=
  match fuel with
  | O => w
  | S fuel' =>
      match microtasks w with
      | [] => w
      | t :: rest => drain_steps fuel' (run_task t (set_microtasks rest w))
      end
  end.

Definition drain (w : World) : World :=
  drain_steps (sum_list (weight <$> microtasks w)) w.

(** What the parser hands over when a load succeeds: new objects, and
    the clips stored on the scene (the last statement of [loadGLTF]). *)
Definition parsed (g : GLTF) (w : World) : GLTF * World :=
  let '(next, s) := allocate (nextOid w) (scene g) in
  ({| scene := mkNode (oid s) (name s) (uuid s) (type s) (children s) (position s)
                 (rotation s) (quaternion s) (scale s) (matrix s)
                 (matrixAutoUpdate s) (userData s) (gltf_animations g);
      gltf_animations := gltf_animations g |},
   set_nextOid next w).

(** What the event loop delivers: a component initialised with its
    data and templates, a data change, the removal of the entity, a
    call of [loadModel] from elsewhere, a load computation settling, a
    [nextTick] timer firing, together with what the selector engine
    answers to the code that the timer resumes. *)
Inductive Event :=
| Init (c : nat) (d : Data) (ts : Inflater.Templates)
| SetData (c : nat) (d : Data)
| Detach (c : nat)
| Call (tag : nat) (key : string) (cache : bool)
| Settle (p : nat) (outcome : Settled GLTF)
| Tick (p : nat) (querySelectorAll : string -> Result (list nat)).

Definition new_component (d : Data) (ts : Inflater.Templates) : Component :=
  {| data := d; lastSrc := None; inflatedEl := None; model := None;
     templates := ts; appended := []; mesh := None; animation_mixer := false |}.

Definition step (ev : Event) (w : World) : World :=
  match ev with
  | Init c d ts => drain (update c (set_component c (new_component d ts) w))
  | SetData c d =>
      match components w !! c with
      | Some comp => drain (update c (set_component c (with_data d comp) w))
      | None => w
      end
  | Detach c => drain (remove c w)
  | Call tag key cache => drain (loadModel (External tag) key cache w)
  | Settle p (Rejected e) =>
      let '(ls, q) := Promise.settle p (Rejected e) (loads w) in
      drain (enqueue ((fun '(f, r) => RunLoad f r) <$> q) (set_loads ls w))
  | Settle p (Fulfilled g) =>
      match loads w !! p with
      | Some (Pending _) =>
          let '(g', w) := parsed g w in
          let '(ls, q) := Promise.settle p (Fulfilled g') (loads w) in
          drain (enqueue ((fun '(f, r) => RunLoad f r) <$> q) (set_loads ls w))
      | _ => w
      end
  | Tick p querySelectorAll =>
      match ticks w !! p with
      | Some f =>
          drain (enqueue [RunTick f querySelectorAll]
                   (set_ticks (delete p (ticks w)) w))
      | None => w
      end
  end.

Definition run (evs : list Event) (w : World) : World :=
  foldl (fun w ev => step ev w) w evs.

Definition empty : World :=
  {| gltfCache := ∅; inflightGltfs := ∅; loads := ∅; ticks := ∅;
     nextPromise := 0; nextOid := 0; components := ∅; registered := ∅;
     aframe_components := []; assets := ∅; microtasks := []; effects := [];
     returned := [] |}.

Definition is_load_of (key : string) (e : Effect) : bool :=
  match e with
  | LoadStarted _ k _ => bool_decide (k = key)
  | _ => false
  end.

Definition loads_started (key : string) (es : list Effect) : nat :=
  length (List.filter (is_load_of key) es).

(** The reference count of a key; zero when nothing is cached. *)
Definition count_of (key : string) (w : World) : Z :=
  match gltfCache w !! key with
  | Some item => GLTFCache.count item
  | None => 0%Z
  end.

End WithMath.
End GltfModelPlus.

(** ** A concrete instance of the three.js interface

    Integers for numbers and a two-valued matrix; used to run the model
    on examples. *)

Module Example.

Definition ZScalar : Three.Scalar :=
  {| Three.num := Z; Three.num_one := 1%Z; Three.num_mul := Z.mul |}.

Definition ZMath : @Three.Math ZScalar :=
  {| Three.Matrix4 := bool;
     Three.Matrix4_identity := true;
     Three.Matrix4_decompose := fun _ e =>
       (@Three.Build_Vector3 ZScalar 0%Z 0%Z 0%Z,
        @Three.Build_Euler ZScalar 0%Z 0%Z 0%Z (Three.order e),
        @Three.Build_Vector3 ZScalar 1%Z 1%Z 1%Z);
     Three.Euler_setFromQuaternion := fun q o =>
       @Three.Build_Euler ZScalar (Three.qx q) (Three.qy q) (Three.qz q) o;
     Three.Quaternion_setFromEuler := fun e =>
       @Three.Build_Quaternion ZScalar (Three.ex e) (Three.ey e) (Three.ez e) 1%Z;
     Three.generateUUID := fun o => "00000000-0000-4000-8000-000000000000"%string |}.

Definition still : Image :=
  {| isHTMLVideoElement := false; videoHeight := None; videoWidth := None;
     height := 30; width := 40 |}.

Definition video : Image :=
  {| isHTMLVideoElement := true; videoHeight := Some 720%Z; videoWidth := Some 1280%Z;
     height := 0; width := 0 |}.

Definition png (id : nat) : Texture :=
  {| texture_id := id; image := still; hls := None |}.

Definition stream (id : nat) : Texture :=
  {| texture_id := id; image := video; hls := Some 9 |}.

Definition no_userData : Three.UserData :=
  {| Three.gltfExtensions := None; Three.components := None; Three.gltfIndex := None |}.

Definition with_components (c : Three.Components) (i : option Z) : Three.UserData :=
  {| Three.gltfExtensions :=
       Some {| Three.MOZ_hubs_components := Some c; Three.HUBS_components := None |};
     Three.components := None; Three.gltfIndex := i |}.

(** A node with a fixed transform: rotation order XYZ, scale 2. *)
Definition node (o : nat) (nm : string) (ud : Three.UserData)
    (cs : list (@Three.Node ZScalar ZMath)) : @Three.Node ZScalar ZMath :=
  @Three.mkNode ZScalar ZMath o nm "7f1c" "Object3D" cs
    (@Three.Build_Vector3 ZScalar 1%Z 2%Z 3%Z)
    (@Three.Build_Euler ZScalar 0%Z 0%Z 0%Z "XYZ")
    (@Three.Build_Quaternion ZScalar 5%Z 6%Z 7%Z 8%Z)
    (@Three.Build_Vector3 ZScalar 2%Z 2%Z 2%Z)
    false true ud None.

(** A root with one plain child and one child that carries a
    component. *)
Definition small_scene : @Three.Node ZScalar ZMath :=
  node 0 "Scene" no_userData
    [ node 1 "plain" no_userData [];
      node 2 "lamp" (with_components [("visible"%string, JS.JBool true)] (Some 2%Z)) [] ].

Definition small_gltf : @Three.GLTF ZScalar ZMath :=
  @Three.Build_GLTF ZScalar ZMath small_scene (Some []).

(** A two-frame animated image, one pixel wide and two pixels high,
    whose frames are disposed by restoring the background. *)
Definition two_frames : list GIFTexture.Frame :=
  [ {| GIFTexture.frame_id := 0; GIFTexture.frame_width := 1;
       GIFTexture.frame_height := 2 |};
    {| GIFTexture.frame_id := 1; GIFTexture.frame_width := 1;
       GIFTexture.frame_height := 2 |} ].

Definition portrait_gif : GIFTexture.t :=
  {| GIFTexture.frames := Some two_frames;
     GIFTexture.delays := Some [100; 100]%Z;
     GIFTexture.disposals := Some [2; 2]%Z;
     GIFTexture.frame := Some 0%Z;
     GIFTexture.frameStartTime := 0;
     GIFTexture.image_width := 1;
     GIFTexture.image_height := 2;
     GIFTexture.ctx := [];
     GIFTexture.needsUpdate := false |}.

(** A legacy avatar: the root and a node named "Chest", with a
    template declared under that name. *)
Definition chest : @Three.Node ZScalar ZMath := node 1 "Chest" no_userData [].

Definition legacy_avatar : @Three.Node ZScalar ZMath :=
  node 0 "Scene" no_userData [chest].

Definition chest_template : Inflater.Templates := [("Chest"%string, 7)].

(** An image component asking for a still image, and a model
    component asking for a cached model without inflation. *)
Definition image_data (key : string) : MediaImage.Data :=
  {| MediaImage.src := key; MediaImage.projection := "flat";
     MediaImage.contentType := "image/png"; MediaImage.batch := false |}.

Definition model_data (key : string) : @GltfModelPlus.Data ZScalar :=
  @GltfModelPlus.Build_Data ZScalar key "model/gltf-binary" true false false 1%Z.

(** An image load that fails, followed by a second request for the
    same key; a model load that fails. *)
Definition failed_image_load : MediaImage.World :=
  MediaImage.run
    [ MediaImage.SetData 1 (image_data "a.png");
      MediaImage.Settle 0 (Rejected "404") ]
    MediaImage.empty.

Definition failed_image_retry : MediaImage.World :=
  MediaImage.run [ MediaImage.SetData 2 (image_data "a.png") ] failed_image_load.

Definition failed_model_load : @GltfModelPlus.World ZScalar ZMath :=
  GltfModelPlus.run
    [ GltfModelPlus.Call 1 "m.glb" true;
      GltfModelPlus.Settle 0 (Rejected "404") ]
    GltfModelPlus.empty.

(** A model component that asks for "b.glb" and, before that load
    resolves, for "c.glb", which another component already holds; then
    the load of "b.glb" resolves. *)
Definition superseded_by_cached : @GltfModelPlus.World ZScalar ZMath :=
  GltfModelPlus.run
    [ GltfModelPlus.Init 1 (model_data "c.glb") [];
      GltfModelPlus.Settle 0 (Fulfilled small_gltf);
      GltfModelPlus.Init 2 (model_data "b.glb") [];
      GltfModelPlus.SetData 2 (model_data "c.glb");
      GltfModelPlus.Settle 1 (Fulfilled small_gltf) ]
    GltfModelPlus.empty.

(** A model component that asks for "b.glb" and is set to the empty
    source before the load resolves; it is removed afterwards. *)
Definition superseded_by_empty : @GltfModelPlus.World ZScalar ZMath :=
  GltfModelPlus.run
    [ GltfModelPlus.Init 2 (model_data "b.glb") [];
      GltfModelPlus.SetData 2 (model_data "");
      GltfModelPlus.Settle 0 (Fulfilled small_gltf);
      GltfModelPlus.Detach 2 ]
    GltfModelPlus.empty.

(** Two callers of the model loader asking for one uncached key, and
    the load resolving. *)
Definition two_model_calls : @GltfModelPlus.World ZScalar ZMath :=
  GltfModelPlus.run
    [ GltfModelPlus.Call 1 "a.glb" true;
      GltfModelPlus.Call 2 "a.glb" true;
      GltfModelPlus.Settle 0 (Fulfilled small_gltf) ]
    GltfModelPlus.empty.

(** Two image components asking for the reserved key. *)
Definition two_error_requests : MediaImage.World :=
  MediaImage.run
    [ MediaImage.SetData 1 (image_data "error");
      MediaImage.SetData 2 (image_data "error") ]
    MediaImage.empty.

(** JSON nodes: a nav-mesh node that still carries the old
    heightfield, and a plain node. *)
Definition dual_tagged : Migration.JsonNode :=
  {| Migration.extensions :=
       Some {| Migration.MOZ_hubs_components :=
                 Some [("heightfield"%string, JS.JObj []); ("nav-mesh"%string, JS.JObj [])];
               Migration.HUBS_components := None |};
     Migration.properties := [("name"%string, JS.JStr "Floor")] |}.

Definition plain_json_node : Migration.JsonNode :=
  {| Migration.extensions := None;
     Migration.properties := [("name"%string, JS.JStr "Wall")] |}.

Definition document (v : option Z) (ns : list Migration.JsonNode) : Migration.Json :=
  {| Migration.top_MOZ_hubs_components :=
       Some {| Migration.version := v; Migration.block_rest := [] |};
     Migration.nodes := Some ns;
     Migration.json_rest := [] |}.

(** A version-1 asset with three dual-tagged nodes, and an asset
    without a version stamp with one. *)
Definition three_old : Migration.Json :=
  document (Some 1%Z) [dual_tagged; plain_json_node; dual_tagged; dual_tagged].

Definition one_old : Migration.Json :=
  document None [plain_json_node; dual_tagged].

(** A texture cache holding one video stream once, and a glTF cache
    holding the small scene once. *)
Definition one_video : gmap string TextureCache.CacheItem :=
  {[ "live.m3u8"%string :=
       {| TextureCache.texture := stream 4;
          TextureCache.ratio := (720, 1280)%Z;
          TextureCache.count := 1 |} ]}.

Definition one_model : gmap string (@GLTFCache.CacheItem ZScalar ZMath) :=
  {[ "room.glb"%string :=
       @GLTFCache.Build_CacheItem ZScalar ZMath small_gltf 1%Z ]}.

End Example.

(** ** Observations used in the statements *)

Module Observe.

(** How often the GPU texture [id] was released. *)
Definition texture_disposals (id : nat) (es : list Effect) : nat :=
  length (List.filter (fun e => match e with
                                | TextureDispose i => bool_decide (i = id)
                                | _ => false
                                end) es).

(** A component that can take a request: none yet, or one that is
    attached to the document (and, as nothing ever assigns it, without
    a [map] property on its mesh). *)
Definition ready (existing : option MediaImage.Component) : Prop :=
  match existing with
  | None => True
  | Some comp =>
      MediaImage.parentNode comp = true
      /\ match MediaImage.mesh comp with
         | Some m => MediaImage.mesh_map m = None
         | None => True
         end
  end.

(** The image component [c] displays the texture [tex] and counts its
    source as retained. *)
Definition shows (c : nat) (tex : Texture) (w : MediaImage.World) : Prop :=
  exists comp m,
    MediaImage.components w !! c = Some comp
    /\ MediaImage.currentSrcIsRetained comp = true
    /\ MediaImage.mesh comp = Some m
    /\ MediaImage.material_map m = Some (MediaImage.Loaded tex).


(** The objects of the scenes [loadModel] has returned, by caller, and
    the objects of the scene cached under a key. *)
Definition returned_objects `{Three.Math} (w : GltfModelPlus.World)
  : list (nat * list nat) :=
  (fun tr => (tr.1, match tr.2 with
                    | Fulfilled g => Three.oids (Three.scene g)
                    | Rejected _ => []
                    end)) <$> GltfModelPlus.returned w.

Definition cached_objects `{Three.Math} (key : string) (w : GltfModelPlus.World)
  : option (list nat) :=
  (fun item => Three.oids (Three.scene (GLTFCache.gltf item)))
    <$> GltfModelPlus.gltfCache w !! key.

End Observe.

(** ** Repeated use of a cache entry *)

Module Uses.

(** [n] calls of [textureCache.retain(src)] in a row; [None] when one
    of them throws. *)
Fixpoint texture_retains (n : nat) (src : string)
    (cache : gmap string TextureCache.CacheItem)
  : option (gmap string TextureCache.CacheItem) :=
  match n with
  | O => Some cache
  | S n' =>
      match TextureCache.retain src cache with
      | Some (cache', _) => texture_retains n' src cache'
      | None => None
      end
  end.

(** [n] calls of [textureCache.release(src)] in a row, with the
    platform calls they made. *)
Fixpoint texture_releases (n : nat) (src : string)
    (cache : gmap string TextureCache.CacheItem)
  : gmap string TextureCache.CacheItem * list Effect :=
  match n with
  | O => (cache, [])
  | S n' =>
      let '(cache', es) := TextureCache.release src cache in
      let '(cache'', es') := texture_releases n' src cache' in
      (cache'', es ++ es')
  end.

Section WithMath.
Context `{Three.Math}.

Fixpoint gltf_retains (n : nat) (src : string)
    (cache : gmap string GLTFCache.CacheItem)
  : option (gmap string GLTFCache.CacheItem) :=
  match n with
  | O => Some cache
  | S n' =>
      match GLTFCache.retain src cache with
      | Some (cache', _) => gltf_retains n' src cache'
      | None => None
      end
  end.

Fixpoint gltf_releases (n : nat) (src : string)
    (cache : gmap string GLTFCache.CacheItem)
  : gmap string GLTFCache.CacheItem * list Effect :=
  match n with
  | O => (cache, [])
  | S n' =>
      let '(cache', es) := GLTFCache.release src cache in
      let '(cache'', es') := gltf_releases n' src cache' in
      (cache'', es ++ es')
  end.

End WithMath.

(** The animated image after [update()] ran at each of the times
    [nows], in order. *)
Definition gif_updates (nows : list Z) (g : GIFTexture.t) : GIFTexture.t :=
  foldl (fun g now => GIFTexture.update now g) g nows.

(** The canvas call paints an image that exists. *)
Definition paints_a_frame (op : GIFTexture.CanvasOp) : Prop :=
  match op with
  | GIFTexture.DrawImage img _ _ _ _ => is_Some img
  | GIFTexture.ClearRect _ _ _ _ => True
  end.

End Uses.

(** ** What an image component shows *)

Module Shown.

(** The texture on the material of component [c], when it has a mesh
    with a texture. *)
Definition image (c : nat) (w : MediaImage.World) : option MediaImage.TexRef :=
  match MediaImage.components w !! c with
  | Some comp =>
      match MediaImage.mesh comp with
      | Some m => MediaImage.material_map m
      | None => None
      end
  | None => None
  end.

(** Whether component [c] counts its source as retained. *)
Definition retained (c : nat) (w : MediaImage.World) : option bool :=
  MediaImage.currentSrcIsRetained <$> MediaImage.components w !! c.

(** The reference count of a texture key; zero when nothing is cached
    under it. *)
Definition count (key : string) (w : MediaImage.World) : Z :=
  match MediaImage.textureCache w !! key with
  | Some item => TextureCache.count item
  | None => 0%Z
  end.

(** A platform call that touches no texture and starts no load. *)
Definition quiet (e : Effect) : Prop :=
  match e with
  | BatchRemove _ | BatchAdd _ | ConsoleError _ | Emit _ _ => True
  | _ => False
  end.

End Shown.

(** ** Further examples *)

Module Example2.

(** A document offered to the image component. *)
Definition pdf_as_image : MediaImage.Data :=
  {| MediaImage.src := "a.pdf"; MediaImage.projection := "flat";
     MediaImage.contentType := "application/pdf"; MediaImage.batch := false |}.

(** Components 1 and 2 show "x.png", component 3 shows "y.png". *)
Definition gallery : MediaImage.World :=
  MediaImage.run
    [ MediaImage.SetData 1 (Example.image_data "x.png");
      MediaImage.SetData 2 (Example.image_data "x.png");
      MediaImage.Settle 0 (Fulfilled (Example.png 7));
      MediaImage.SetData 3 (Example.image_data "y.png");
      MediaImage.Settle 1 (Fulfilled (Example.png 8)) ]
    MediaImage.empty.

(** Component 3 of the gallery and its mesh. *)
Definition gallery_mesh : MediaImage.Mesh :=
  {| MediaImage.geometry := MediaImage.PlaneBufferGeometry;
     MediaImage.mesh_map := None;
     MediaImage.material_map := Some (MediaImage.Loaded (Example.png 8));
     MediaImage.transparent := true;
     MediaImage.scale_ratio := Some (30, 40)%Z |}.

Definition gallery_component : MediaImage.Component :=
  {| MediaImage.data := Example.image_data "y.png";
     MediaImage.currentSrcIsRetained := true;
     MediaImage.mesh := Some gallery_mesh;
     MediaImage.parentNode := true |}.

(** A model component that shows "a.glb", which it alone holds. *)
Definition model_shown : @GltfModelPlus.World Example.ZScalar Example.ZMath :=
  GltfModelPlus.run
    [ GltfModelPlus.Init 1 (Example.model_data "a.glb") [];
      GltfModelPlus.Settle 0 (Fulfilled Example.small_gltf) ]
    GltfModelPlus.empty.

Definition shown_component : @GltfModelPlus.Component Example.ZScalar Example.ZMath :=
  default (GltfModelPlus.new_component (Example.model_data "a.glb") [])
    (GltfModelPlus.components model_shown !! 1).

Definition shown_item : @GLTFCache.CacheItem Example.ZScalar Example.ZMath :=
  default (@GLTFCache.Build_CacheItem Example.ZScalar Example.ZMath Example.small_gltf 0%Z)
    (GltfModelPlus.gltfCache model_shown !! "a.glb"%string).

(** A model component that inflates, and a scene of two nodes whose
    root is named with punctuation only. *)
Definition inflating (key : string) : @GltfModelPlus.Data Example.ZScalar :=
  @GltfModelPlus.Build_Data Example.ZScalar key "model/gltf-binary" true true false 1%Z.

Definition odd_gltf : @Three.GLTF Example.ZScalar Example.ZMath :=
  @Three.Build_GLTF Example.ZScalar Example.ZMath
    (Example.node 0 "?!" Example.no_userData
       [Example.node 1 "lamp" Example.no_userData []])
    (Some []).

(** A scene with entities at several depths: a plain "bed" that holds a
    lamp, a plain "rock" with a pebble, a lamp with a plain shade, and
    an empty group. *)
Definition lamp_data (i : Z) : Three.UserData :=
  Example.with_components [("visible"%string, JS.JBool true)] (Some i).

Definition garden : @Three.Node Example.ZScalar Example.ZMath :=
  Example.node 0 "Scene" Example.no_userData
    [ Example.node 1 "bed" Example.no_userData
        [ Example.node 2 "soil" Example.no_userData [];
          Example.node 3 "lampA" (lamp_data 3) [] ];
      Example.node 4 "rock" Example.no_userData
        [ Example.node 5 "pebble" Example.no_userData [] ];
      Example.node 6 "lampB" (lamp_data 6)
        [ Example.node 7 "shade" Example.no_userData [] ];
      Example.node 8 "group" Example.no_userData [] ].

End Example2.

(** ** The entity tree that the inflation rule describes *)

Module Layout.
Section WithMath.
Context `{Three.Math}.
Import Three Inflater.

#[global] Instance qualifies_dec (templates : Templates) (node : Node) :
  Decision (qualifies templates node).
Proof. unfold qualifies, carries_components. apply _. Defined.

(** The rule for one node: it qualifies on its own, or it is the tree
    root, or at least one of its descendants qualifies. *)
Definition wanted (templates : Templates) (isRoot : bool) (node : Node) : bool :=
  bool_decide (qualifies templates node)
  || isRoot
  || bool_decide (Exists (qualifies templates) (descendants node)).

(** The shape of an entity tree: the objects of the asset that an
    entity wraps, in traversal order, and the shapes of its child
    entities. *)
Inductive Shape := mkShape {
  wrapped : list nat;
  below : list Shape
}.

Fixpoint shape (e : Entity) : Shape :=
  mkShape (oids (payload e))
    ((fix each (es : list Entity) : list Shape :=
        match es with
        | [] => []
        | c :: es' => shape c :: each es'
        end) (childEntities e)).

(** The objects of the child subtrees that the rule gives no entity. *)
Definition plain_below (templates : Templates) : list Node -> list nat :=
  fix each (cs : list Node) : list nat :=
    match cs with
    | [] => []
    | c :: cs' => (if wanted templates false c then [] else oids c) ++ each cs'
    end.

(** The entity tree the rule describes for a node that gets an entity:
    the entity wraps the node and the child subtrees without an entity;
    its child entities are those of the children that get one. *)
Fixpoint expected (templates : Templates) (node : Node) : Shape :=
  mkShape
    (oid node
     :: (fix each (cs : list Node) : list nat :=
           match cs with
           | [] => []
           | c :: cs' => (if wanted templates false c then [] else oids c) ++ each cs'
           end) (children node))
    ((fix each (cs : list Node) : list Shape :=
        match cs with
        | [] => []
        | c :: cs' =>
            if wanted templates false c then expected templates c :: each cs'
            else each cs'
        end) (children node)).

Definition expected_below (templates : Templates) : list Node -> list Shape :=
  fix each (cs : list Node) : list Shape :=
    match cs with
    | [] => []
    | c :: cs' =>
        if wanted templates false c then expected templates c :: each cs'
        else each cs'
    end.

(** The objects that the entities of an entity tree were made for, the
    entity of the root first. *)
Definition entity_nodes (e : Entity) : list nat :=
  (fun x => oid (payload x)) <$> entities e.

(** What a call leaves behind, for a node whose subtree has no
    inherited property name: with an entity, the entity tree is the one
    the rule describes; without one, the subtree keeps its objects. *)
Definition laid_out (ts : Templates) (n : Node) : Prop :=
  forall idx isRoot m idx' n' r,
    inflateEntities idx n ts isRoot m = Ok (idx', n', r) ->
    Forall (fun d => legacy_name (name d) ∉ JS.Object_prototype_keys) (traverse n) ->
    match r with
    | Some el =>
        payload el = n'
        /\ entity_nodes el
           = oid n :: (oid <$> List.filter (wanted ts false) (descendants n))
        /\ shape el = expected ts n
    | None => oids n' = oids n
    end.

End WithMath.
End Layout.

(** * Properties *)

(** ** The two caches *)

Section CacheFacts.
Context `{Three.Math}.

Lemma disposeTexture_once (t : Texture) :
  Observe.texture_disposals (texture_id t) (disposeTexture t) = 1.
Proof.
  unfold disposeTexture, Observe.texture_disposals.
  rewrite !List.filter_app, !length_app.
  destruct (isHTMLVideoElement (image t)), (hls t); simpl;
    rewrite bool_decide_eq_true_2 by reflexivity; reflexivity.
Qed.

Lemma disposeTexture_video (t : Texture) :
  isHTMLVideoElement (image t) = true ->
  exists rest,
    disposeTexture t
    = [VideoPause (texture_id t); VideoSetSrc (texture_id t) ""; VideoLoad (texture_id t)]
        ++ rest
    /\ last rest = Some (TextureDispose (texture_id t)).
Proof.
  intros Hv. unfold disposeTexture. rewrite Hv.
  eexists. split; [reflexivity|]. destruct (hls t); reflexivity.
Qed.

Lemma texture_release_last (k : string) (cache : gmap string TextureCache.CacheItem) item :
  cache !! k = Some item ->
  TextureCache.count item = 1%Z ->
  TextureCache.release k cache
  = (delete k cache, disposeTexture (TextureCache.texture item)).
Proof.
  intros Hk Hc. unfold TextureCache.release. rewrite Hk. simpl. rewrite Hc. reflexivity.
Qed.

Lemma gltf_release_last (k : string) (cache : gmap string GLTFCache.CacheItem) item :
  cache !! k = Some item ->
  GLTFCache.count item = 1%Z ->
  GLTFCache.release k cache = (delete k cache, GLTFCache.dispose (GLTFCache.gltf item)).
Proof.
  intros Hk Hc. unfold GLTFCache.release. rewrite Hk. simpl. rewrite Hc. reflexivity.
Qed.

(** C2.  Releasing a key whose entry has reference count 1 brings the
    count to 0; the entry is then gone ([has] is false) and the
    disposal routine of the entry's type ran once: for a texture one
    run of [disposeTexture] (pause, clear and reload for a video
    element, then the single release of the GPU texture), for a model
    one [disposeNode] call on each node of the cached scene. *)
Theorem release_last_reference_disposes_once (k : string) :
  (forall (cache : gmap string TextureCache.CacheItem) item,
      cache !! k = Some item ->
      TextureCache.count item = 1%Z ->
      exists cache' es,
        TextureCache.release k cache = (cache', es)
        /\ (TextureCache.count item - 1 = 0)%Z
        /\ TextureCache.has k cache' = false
        /\ es = disposeTexture (TextureCache.texture item)
        /\ Observe.texture_disposals (texture_id (TextureCache.texture item)) es = 1
        /\ (isHTMLVideoElement (image (TextureCache.texture item)) = true ->
            exists rest,
              es = [VideoPause (texture_id (TextureCache.texture item));
                    VideoSetSrc (texture_id (TextureCache.texture item)) "";
                    VideoLoad (texture_id (TextureCache.texture item))] ++ rest))
  /\ (forall (cache : gmap string GLTFCache.CacheItem) item,
         cache !! k = Some item ->
         GLTFCache.count item = 1%Z ->
         exists cache' es,
           GLTFCache.release k cache = (cache', es)
           /\ (GLTFCache.count item - 1 = 0)%Z
           /\ GLTFCache.has k cache' = false
           /\ es = DisposeNode <$> Three.oids (Three.scene (GLTFCache.gltf item))
           /\ length es = length (Three.traverse (Three.scene (GLTFCache.gltf item)))).
Proof.
  split.
  - intros cache item Hk Hc.
    exists (delete k cache), (disposeTexture (TextureCache.texture item)).
    split; [by apply texture_release_last|].
    split; [lia|].
    split.
    { unfold TextureCache.has. rewrite lookup_delete_eq.
      apply bool_decide_eq_false_2. by intros [? ?]. }
    split; [reflexivity|].
    split; [apply disposeTexture_once|].
    intros Hv. destruct (disposeTexture_video _ Hv) as (rest & -> & _). eauto.
  - intros cache item Hk Hc.
    exists (delete k cache), (GLTFCache.dispose (GLTFCache.gltf item)).
    split; [by apply gltf_release_last|].
    split; [lia|].
    split.
    { unfold GLTFCache.has. rewrite lookup_delete_eq.
      apply bool_decide_eq_false_2. by intros [? ?]. }
    split; [reflexivity|].
    unfold GLTFCache.dispose, Three.oids. by rewrite !length_fmap.
Qed.

(** C9.  Releasing a key that is not in the cache logs one console
    error and returns: the table is returned as it was, and no
    disposal call is made. *)
Theorem release_absent_key_is_reported (k : string) :
  (forall (cache : gmap string TextureCache.CacheItem),
      cache !! k = None ->
      exists msg,
        TextureCache.release k cache = (cache, [ConsoleError msg]))
  /\ (forall (cache : gmap string GLTFCache.CacheItem),
         cache !! k = None ->
         exists msg,
           GLTFCache.release k cache = (cache, [ConsoleError msg])).
Proof.
  split; intros cache Hk.
  - unfold TextureCache.release. rewrite Hk. eauto.
  - unfold GLTFCache.release. rewrite Hk. eauto.
Qed.

End CacheFacts.

(** The last holder of a video stream and of a model lets go. *)
Lemma release_last_reference_witness :
  (exists cache' es,
      TextureCache.release "live.m3u8" Example.one_video = (cache', es)
      /\ TextureCache.has "live.m3u8" cache' = false
      /\ es = [VideoPause 4; VideoSetSrc 4 ""; VideoLoad 4; HlsDestroy 9; TextureDispose 4])
  /\ (exists cache' es,
         GLTFCache.release "room.glb" Example.one_model = (cache', es)
         /\ GLTFCache.has "room.glb" cache' = false
         /\ es = [DisposeNode 0; DisposeNode 1; DisposeNode 2]).
Proof.
  pose proof (@release_last_reference_disposes_once
                Example.ZScalar Example.ZMath "live.m3u8") as [Htex _].
  pose proof (@release_last_reference_disposes_once
                Example.ZScalar Example.ZMath "room.glb") as [_ Hgltf].
  split.
  - destruct (Htex Example.one_video
                {| TextureCache.texture := Example.stream 4;
                   TextureCache.ratio := (720, 1280)%Z;
                   TextureCache.count := 1 |})
      as (cache' & es & Hrel & _ & Hhas & Hes & _).
    + reflexivity.
    + reflexivity.
    + exists cache', es. split; [exact Hrel|]. split; [exact Hhas|]. exact Hes.
  - destruct (Hgltf Example.one_model
                (@GLTFCache.Build_CacheItem Example.ZScalar Example.ZMath
                   Example.small_gltf 1%Z))
      as (cache' & es & Hrel & _ & Hhas & Hes & _).
    + reflexivity.
    + reflexivity.
    + exists cache', es. split; [exact Hrel|]. split; [exact Hhas|]. exact Hes.
Defined.

(** Releasing keys that nobody cached. *)
Lemma release_absent_key_witness :
  (exists msg,
      TextureCache.release "gone.png" Example.one_video
      = (Example.one_video, [ConsoleError msg]))
  /\ (exists msg,
         GLTFCache.release "gone.glb" Example.one_model
         = (Example.one_model, [ConsoleError msg])).
Proof.
  pose proof (@release_absent_key_is_reported
                Example.ZScalar Example.ZMath "gone.png") as [Htex _].
  pose proof (@release_absent_key_is_reported
                Example.ZScalar Example.ZMath "gone.glb") as [_ Hgltf].
  split.
  - apply Htex. reflexivity.
  - apply Hgltf. reflexivity.
Defined.


(** ** The animated-image texture *)

Section GIFFacts.
Import GIFTexture.

Lemma index_nonneg {A} (l : list A) (i : Z) :
  (0 <= i)%Z -> JS.index l (Some i) = l !! Z.to_nat i.
Proof.
  intros Hi. unfold JS.index.
  destruct (Z.ltb_spec i 0); [lia | reflexivity].
Qed.

(** While the delay of the current frame has not been exceeded, an
    update changes nothing. *)
Lemma update_waits (g : t) (now : Z) fs ds dps i delay :
  frames g = Some fs -> delays g = Some ds -> disposals g = Some dps ->
  frame g = Some i -> (0 <= i)%Z ->
  ds !! Z.to_nat i = Some delay ->
  (now - frameStartTime g <= delay)%Z ->
  update now g = g.
Proof.
  intros Hf Hd Hp Hi Hi0 Hdl Hle. unfold update.
  rewrite Hf, Hd, Hp, Hi, index_nonneg, Hdl by done. simpl.
  destruct (Z.ltb_spec delay (now - frameStartTime g)); [lia | reflexivity].
Qed.

(** Once the delay is exceeded the frame index advances modulo the
    frame count, the swap time is reset and the next frame is drawn. *)
Lemma update_advances (g : t) (now : Z) fs ds dps i delay :
  frames g = Some fs -> delays g = Some ds -> disposals g = Some dps ->
  frame g = Some i -> (0 <= i)%Z ->
  ds !! Z.to_nat i = Some delay ->
  (delay < now - frameStartTime g)%Z ->
  fs <> [] ->
  frame (update now g) = Some ((i + 1) `rem` Z.of_nat (length fs))%Z
  /\ frameStartTime (update now g) = now
  /\ needsUpdate (update now g) = true
  /\ exists cleared,
      ctx (update now g)
      = ctx g ++ cleared
          ++ [DrawImage (JS.index fs (frame (update now g))) 0 0
                (image_width g) (image_height g)]
      /\ cleared = if bool_decide (dps !! Z.to_nat i = Some 2%Z)
                   then [ClearRect 0 0 (image_width g) (image_width g)] else [].
Proof.
  intros Hf Hd Hp Hi Hi0 Hdl Hgt Hne. unfold update.
  rewrite Hf, Hd, Hp, Hi, !index_nonneg, Hdl by done. simpl.
  destruct (Z.ltb_spec delay (now - frameStartTime g)); [|lia].
  assert (Hlen : (Z.of_nat (length fs) =? 0)%Z = false).
  { apply Z.eqb_neq. destruct fs; [done | simpl; lia]. }
  simpl. unfold JS.rem. rewrite Hlen. simpl.
  replace (Z.succ i) with (i + 1)%Z by lia.
  repeat split; try reflexivity.
  eexists. split; reflexivity.
Qed.

(** C8.  An update step compares the time since the last frame swap
    with the delay of the current frame and, when it is exceeded,
    advances the frame index modulo the frame count; when the disposal
    mode of the current frame is 2 it clears before drawing the next
    frame, but the rectangle it clears is [width] by [width]: on an
    image that is higher than wide the bottom row of the draw surface is
    not cleared. *)
Theorem update_clear_misses_rows_of_tall_image (g : t) (now : Z) fs ds dps i delay :
  frames g = Some fs -> delays g = Some ds -> disposals g = Some dps ->
  frame g = Some i -> (0 <= i)%Z ->
  ds !! Z.to_nat i = Some delay ->
  (delay < now - frameStartTime g)%Z ->
  dps !! Z.to_nat i = Some 2%Z ->
  fs <> [] ->
  (0 < image_width g < image_height g)%Z ->
  frame (update now g) = Some ((i + 1) `rem` Z.of_nat (length fs))%Z
  /\ exists op,
      ctx (update now g)
      = ctx g ++ [op; DrawImage (JS.index fs (frame (update now g))) 0 0
                        (image_width g) (image_height g)]
      /\ on_surface g 0 (image_height g - 1) = true
      /\ clears_pixel op 0 (image_height g - 1) = false.
Proof.
  intros Hf Hd Hp Hi Hi0 Hdl Hgt Hdp Hne Hwh.
  destruct (update_advances g now fs ds dps i delay) as (Hfr & _ & _ & cl & Hctx & Hcl);
    try done.
  split; [exact Hfr|].
  rewrite bool_decide_eq_true_2 in Hcl by done. subst cl.
  exists (ClearRect 0 0 (image_width g) (image_width g)).
  split; [exact Hctx|].
  unfold on_surface, clears_pixel. split.
  - repeat (apply andb_true_intro; split);
      first [apply Z.leb_le | apply Z.ltb_lt]; lia.
  - apply andb_false_intro2. apply Z.ltb_ge. lia.
Qed.

End GIFFacts.

(** The portrait image at time 250: the clear before the second frame
    leaves the pixel (0, 1) as the first frame painted it. *)
Lemma update_clear_misses_rows_witness :
  GIFTexture.frame (GIFTexture.update 250 Example.portrait_gif) = Some 1%Z
  /\ exists op,
      GIFTexture.ctx (GIFTexture.update 250 Example.portrait_gif)
      = [op; GIFTexture.DrawImage
               (Some {| GIFTexture.frame_id := 1; GIFTexture.frame_width := 1;
                        GIFTexture.frame_height := 2 |}) 0 0 1 2]
      /\ GIFTexture.on_surface Example.portrait_gif 0 1 = true
      /\ GIFTexture.clears_pixel op 0 1 = false.
Proof.
  apply (update_clear_misses_rows_of_tall_image Example.portrait_gif 250
           Example.two_frames [100; 100]%Z [2; 2]%Z 0%Z 100%Z);
    first [reflexivity | discriminate | lia | (simpl; lia)].
Defined.


(** ** Schema migration *)

Section MigrationFacts.
Import Migration.

Lemma prop_delete_prop {V} (key : string) (obj : list (string * V)) :
  JS.prop key (JS.delete_prop key obj) = None.
Proof.
  induction obj as [|[k v] rest IH]; simpl; [reflexivity|].
  destruct (bool_decide (k = key)) eqn:Hk; simpl; [exact IH|].
  rewrite Hk. exact IH.
Qed.

Lemma prop_delete_prop_ne {V} (key other : string) (obj : list (string * V)) :
  other <> key ->
  JS.prop other (JS.delete_prop key obj) = JS.prop other obj.
Proof.
  intros Hne. induction obj as [|[k v] rest IH]; simpl; [reflexivity|].
  destruct (bool_decide (k = key)) eqn:Hk; simpl.
  - apply bool_decide_eq_true in Hk. subst k.
    rewrite bool_decide_eq_false_2 by congruence. exact IH.
  - destruct (bool_decide (k = other)); [reflexivity | exact IH].
Qed.

(** The block a stripped node selects is the old block without the
    heightfield. *)
Lemma selected_delete_heightfield (n : JsonNode) (c : Three.Components) :
  selected n = Some c ->
  selected (delete_heightfield n) = Some (JS.delete_prop "heightfield" c).
Proof.
  unfold selected, delete_heightfield.
  destruct (extensions n) as [ext|]; [|discriminate].
  destruct (MOZ_hubs_components ext) as [m|]; simpl.
  - intros [= ->]. reflexivity.
  - destruct (HUBS_components ext) as [h|]; simpl; [|discriminate].
    intros [= ->]. reflexivity.
Qed.

Lemma delete_heightfield_not_old (n : JsonNode) :
  is_old_heightfield (delete_heightfield n) = false.
Proof.
  unfold is_old_heightfield.
  destruct (selected n) as [c|] eqn:Hsel.
  - rewrite (selected_delete_heightfield _ _ Hsel).
    unfold truthy_prop at 1. rewrite prop_delete_prop. reflexivity.
  - assert (delete_heightfield n = n) as ->; [|by rewrite Hsel].
    unfold selected in Hsel. unfold delete_heightfield.
    destruct (extensions n) as [ext|]; [|reflexivity].
    destruct (MOZ_hubs_components ext); [discriminate|].
    destruct (HUBS_components ext); [discriminate | reflexivity].
Qed.

Lemma delete_heightfield_keeps_nav_mesh (n : JsonNode) (c : Three.Components) :
  selected n = Some c ->
  exists c', selected (delete_heightfield n) = Some c'
             /\ JS.prop "nav-mesh" c' = JS.prop "nav-mesh" c.
Proof.
  intros Hsel. eexists. split; [by apply selected_delete_heightfield|].
  by apply prop_delete_prop_ne.
Qed.

Lemma filter_nil_of_Forall (l : list JsonNode) :
  Forall (fun n => is_old_heightfield n = false) l ->
  List.filter is_old_heightfield l = [].
Proof.
  induction 1 as [|n l Hn _ IH]; simpl; [reflexivity|]. by rewrite Hn.
Qed.

Lemma Forall_of_filter_nil (l : list JsonNode) :
  List.filter is_old_heightfield l = [] ->
  Forall (fun n => is_old_heightfield n = false) l.
Proof.
  induction l as [|n l IH]; simpl; [constructor|].
  destruct (is_old_heightfield n) eqn:Hn; [discriminate|].
  intros Hl. constructor; auto.
Qed.

Lemma list_find_none_of_Forall (l : list JsonNode) :
  Forall (fun n => is_old_heightfield n = false) l ->
  list_find (fun n => is_old_heightfield n = true) l = None.
Proof.
  intros Hall. apply list_find_None.
  eapply Forall_impl; [exact Hall|]. simpl. intros n Hn. congruence.
Qed.

(** Stripping the only dual-tagged node leaves none. *)
Lemma strip_only_old (ns : list JsonNode) (i : nat) (n : JsonNode) :
  list_find (fun n => is_old_heightfield n = true) ns = Some (i, n) ->
  length (List.filter is_old_heightfield ns) <= 1 ->
  Forall (fun n => is_old_heightfield n = false) (<[i := delete_heightfield n]> ns).
Proof.
  intros Hfind Hlen.
  apply list_find_Some in Hfind as (Hi & Hold & Hbefore).
  assert (Hlt : i < length ns) by (eapply lookup_lt_Some; eauto).
  rewrite insert_take_drop by exact Hlt.
  rewrite <- (take_drop_middle ns i n Hi) in Hlen.
  rewrite List.filter_app in Hlen. simpl in Hlen. rewrite Hold in Hlen.
  rewrite length_app in Hlen. simpl in Hlen.
  apply Forall_app. split.
  - apply Forall_forall. intros y Hy.
    apply list_elem_of_lookup in Hy as [j Hj].
    pose proof (lookup_lt_Some _ _ _ Hj) as Hjl. rewrite length_take in Hjl.
    rewrite lookup_take_lt in Hj by lia.
    specialize (Hbefore j y Hj ltac:(lia)).
    destruct (is_old_heightfield y); [by destruct Hbefore | reflexivity].
  - constructor; [apply delete_heightfield_not_old|].
    apply Forall_of_filter_nil.
    destruct (List.filter is_old_heightfield (drop (S i) ns)); [reflexivity|].
    simpl in Hlen. lia.
Qed.

(** C6 (as amended).  The version is the [version] field of the
    top-level block and 0 when the block or the field is absent.  Below
    version 2 the migration strips the heightfield from the first node,
    in node order, whose selected block carries both heightfield and
    nav-mesh (the nav-mesh stays); from version 2 on it changes nothing.
    On an asset with at most one such node a second application changes
    nothing more. *)
Theorem migration_strips_first_dual_tagged (json : Json) (ns : list JsonNode) :
  nodes json = Some ns ->
  (match top_MOZ_hubs_components json with
   | Some block => read_version json = default 0%Z (version block)
   | None => read_version json = 0%Z
   end)
  /\ ((2 <= read_version json)%Z -> migrate json = Some json)
  /\ ((read_version json < 2)%Z ->
      match list_find (fun n => is_old_heightfield n = true) ns with
      | Some (i, n) =>
          migrate json = Some (with_nodes (<[i := delete_heightfield n]> ns) json)
          /\ is_old_heightfield (delete_heightfield n) = false
          /\ (forall c, selected n = Some c ->
                exists c', selected (delete_heightfield n) = Some c'
                           /\ JS.prop "heightfield" c' = None
                           /\ JS.prop "nav-mesh" c' = JS.prop "nav-mesh" c)
      | None => migrate json = Some json
      end)
  /\ (length (old_heightfields json) <= 1 ->
      forall once, migrate json = Some once -> migrate once = Some once).
Proof.
  intros Hns. unfold migrate, runMigration. rewrite Hns.
  split; [|split; [|split]].
  - unfold read_version. destruct (top_MOZ_hubs_components json) as [b|]; [|reflexivity].
    destruct (version b); reflexivity.
  - intros Hv. destruct (Z.ltb_spec (read_version json) 2); [lia | reflexivity].
  - intros Hv. destruct (Z.ltb_spec (read_version json) 2); [|lia].
    destruct (list_find _ ns) as [[i n]|] eqn:Hfind; [|reflexivity].
    split; [reflexivity|]. split; [apply delete_heightfield_not_old|].
    intros c Hc. exists (JS.delete_prop "heightfield" c).
    split; [by apply selected_delete_heightfield|].
    split; [apply prop_delete_prop | by apply prop_delete_prop_ne].
  - intros Hone once.
    destruct (Z.ltb_spec (read_version json) 2) as [Hv|Hv].
    + destruct (list_find _ ns) as [[i n]|] eqn:Hfind.
      * intros [= <-].
        assert (Hrv : read_version (with_nodes (<[i:=delete_heightfield n]> ns) json)
                      = read_version json) by reflexivity.
        rewrite Hrv. destruct (Z.ltb_spec (read_version json) 2); [|lia].
        simpl. rewrite list_find_none_of_Forall; [reflexivity|].
        apply (strip_only_old ns i n Hfind).
        unfold old_heightfields in Hone. by rewrite Hns in Hone.
      * intros [= <-]. destruct (Z.ltb_spec (read_version json) 2); [|lia].
        rewrite Hns, Hfind. reflexivity.
    + intros [= <-]. destruct (Z.ltb_spec (read_version json) 2); [lia | reflexivity].
Qed.

End MigrationFacts.

(** An asset without a version stamp and with one dual-tagged node:
    version 0, the node is stripped, and a second run changes nothing. *)
Lemma migration_strips_first_dual_tagged_witness :
  Migration.read_version Example.one_old = 0%Z
  /\ Migration.migrate Example.one_old
     = Some (Example.document None
               [Example.plain_json_node;
                Migration.delete_heightfield Example.dual_tagged])
  /\ (forall once,
         Migration.migrate Example.one_old = Some once ->
         Migration.migrate once = Some once).
Proof.
  destruct (migration_strips_first_dual_tagged Example.one_old
              [Example.plain_json_node; Example.dual_tagged] eq_refl)
    as (Hv & _ & Hstrip & Hidem).
  split; [exact Hv|].
  split.
  - assert (Hlt : (Migration.read_version Example.one_old < 2)%Z) by reflexivity.
    exact (proj1 (Hstrip Hlt)).
  - apply Hidem. vm_compute. lia.
Defined.

(** C6, counterexample.  On a version-1 asset with three dual-tagged
    nodes every application strips one more node: migrating twice is
    not migrating once, and migrating the migrated asset twice is not
    migrating it once. *)
Lemma migration_is_not_idempotent :
  Migration.read_version Example.three_old = 1%Z
  /\ exists once twice thrice,
      Migration.migrate Example.three_old = Some once
      /\ Migration.migrate once = Some twice
      /\ Migration.migrate twice = Some thrice
      /\ twice <> once
      /\ thrice <> twice.
Proof.
  split; [reflexivity|].
  eexists _, _, _.
  split; [vm_compute; reflexivity|].
  split; [vm_compute; reflexivity|].
  split; [vm_compute; reflexivity|].
  split; intros Heq; discriminate Heq.
Qed.

(** ** The scene-graph inflater *)

Section InflaterFacts.
Context `{Three.Math}.
Import Three Inflater.

(** Induction on a node with the property available for its children. *)
Lemma Node_ind_children (P : Node -> Prop) :
  (forall n, Forall P (children n) -> P n) -> forall n, P n.
Proof.
  intros IH. fix rec 1. intros n. apply IH.
  destruct n as [o nm u t cs p r q s m a ud an]. simpl.
  revert cs. fix recl 1. intros [|c cs].
  - constructor.
  - constructor; [apply rec | apply recl].
Qed.

Lemma traverse_unfold (n : Node) :
  traverse n = n :: descendants n.
Proof.
  destruct n as [o nm u t cs p r q s m a ud an]. reflexivity.
Qed.

Lemma entities_unfold (e : Entity) :
  entities e = e :: descendant_entities e.
Proof.
  destruct e as [c es g p k]. reflexivity.
Qed.

(** One step of [inflateEntities], with the loop over the children
    named. *)
Lemma inflateEntities_unfold idx (node : Node) ts isRoot m :
  inflateEntities idx node ts isRoot m
  = match inflate_children ts (children node) idx with
    | Throw e => Throw e
    | Ok (idx1, kept, els) =>
        if negb (nodeHasBehavior node ts) && bool_decide (els = []) && negb isRoot
        then Ok (idx1, set_name_children (legacy_name (name node)) kept node, None)
        else
          let cls := sanitize (JS.str_or (legacy_name (name node)) (uuid node)) in
          if bool_decide (cls = "") then
            Throw "SyntaxError: The token provided must not be empty."
          else
            let rot := rotation_YXZ node in
            let group :=
              {| g_position := position node;
                 g_rotation := rot;
                 g_scale := multiplyScalar (scale node) m;
                 g_name := legacy_name (name node);
                 g_uuid := uuid node;
                 g_matrixNeedsUpdate := true;
                 g_animations := animations node |} in
            let '(p, r, s) := Matrix4_decompose Matrix4_identity rot in
            let node' :=
              mkNode (oid node) (legacy_name (name node)) (generateUUID (oid node))
                (type node) kept p r (Quaternion_setFromEuler r) s Matrix4_identity
                false (userData node) (animations node) in
            let keys :=
              JS.toLowerCase (type node)
              :: match getHubsComponents node with
                 | Some c =>
                     if bool_decide (is_Some (JS.prop "nav-mesh" c))
                        && negb (bool_decide (JS.toLowerCase (type node) = "mesh"))
                     then ["mesh"] else []
                 | None => []
                 end in
            let el := mkEntity cls els group node' keys in
            let idx' :=
              match gltfIndex (userData node) with
              | Some i => <[i := el]> idx1
              | None => idx1
              end in
            Ok (idx', node', Some el)
    end.
Proof.
  destruct node as [o nm u t cs p r q s mx a ud an]. reflexivity.
Qed.

Lemma inflate_children_cons ts (c : Node) cs idx :
  inflate_children ts (c :: cs) idx
  = match inflateEntities idx c ts false num_one with
    | Throw e => Throw e
    | Ok (idx1, child', r) =>
        match inflate_children ts cs idx1 with
        | Throw e => Throw e
        | Ok (idx2, kept, els) =>
            match r with
            | Some el => Ok (idx2, kept, el :: els)
            | None => Ok (idx2, child' :: kept, els)
            end
        end
    end.
Proof. reflexivity. Qed.


Lemma nodeHasBehavior_qualifies ts (n : Node) :
  legacy_name (name n) ∉ JS.Object_prototype_keys ->
  nodeHasBehavior n ts = true <-> qualifies ts n.
Proof.
  intros Hproto. unfold nodeHasBehavior, qualifies, carries_components,
    in_templates, JS.in_object.
  rewrite !orb_true_iff, !bool_decide_eq_true. tauto.
Qed.

(** The children loop collects an entity exactly when a node of one of
    the child subtrees has behaviour, and every child is either kept or
    turned into an entity. *)
Lemma inflate_children_collects ts (cs : list Node) :
  Forall (fun n =>
            forall idx isRoot m idx' n' r,
              inflateEntities idx n ts isRoot m = Ok (idx', n', r) ->
              is_Some r <->
              nodeHasBehavior n ts = true \/ isRoot = true
              \/ Exists (fun d => nodeHasBehavior d ts = true) (descendants n)) cs ->
  forall idx idx' kept els,
    inflate_children ts cs idx = Ok (idx', kept, els) ->
    (els <> [] <-> Exists (fun d => nodeHasBehavior d ts = true) (cs ≫= traverse))
    /\ length kept + length els = length cs.
Proof.
  induction 1 as [|c cs Hc _ IH]; intros idx idx' kept els Hrun.
  - injection Hrun as <- <- <-. split; [|reflexivity].
    split; [done|]. intros Hex. inversion Hex.
  - rewrite inflate_children_cons in Hrun.
    destruct (inflateEntities idx c ts false num_one) as [[[idx1 c'] r]|] eqn:Hchild;
      [|discriminate].
    destruct (inflate_children ts cs idx1) as [[[idx2 kept2] els2]|] eqn:Hrest;
      [|discriminate].
    specialize (Hc _ _ _ _ _ _ Hchild).
    destruct (IH _ _ _ _ Hrest) as [IHex IHlen].
    assert (Hhead : is_Some r <->
                    Exists (fun d => nodeHasBehavior d ts = true) (traverse c)).
    { rewrite Hc, traverse_unfold, Exists_cons. intuition discriminate. }
    change ((c :: cs) ≫= traverse) with (traverse c ++ (cs ≫= traverse)).
    rewrite Exists_app.
    destruct r as [el|]; injection Hrun as <- <- <-; simpl.
    + split; [|lia]. split; [|done].
      intros _. left. apply Hhead. eauto.
    + split; [|lia]. rewrite IHex. split; [tauto|].
      intros [Hl|Hr]; [|exact Hr]. apply Hhead in Hl. by destruct Hl.
Qed.

(** A call yields an entity exactly when the node has behaviour, is the
    root, or has a descendant with behaviour. *)
Lemma inflateEntities_some_iff ts (n : Node) :
  forall idx isRoot m idx' n' r,
    inflateEntities idx n ts isRoot m = Ok (idx', n', r) ->
    is_Some r <->
    nodeHasBehavior n ts = true \/ isRoot = true
    \/ Exists (fun d => nodeHasBehavior d ts = true) (descendants n).
Proof.
  induction n as [n IHn] using Node_ind_children.
  intros idx isRoot m idx' n' r Hrun.
  rewrite inflateEntities_unfold in Hrun.
  destruct (inflate_children ts (children n) idx) as [[[idx1 kept] els]|] eqn:Hcs;
    [|discriminate].
  destruct (inflate_children_collects ts _ IHn _ _ _ _ Hcs) as [Hex _].
  fold (descendants n) in Hex.
  destruct (negb (nodeHasBehavior n ts) && bool_decide (els = []) && negb isRoot)
    eqn:Hcond.
  - injection Hrun as <- <- <-.
    apply andb_prop in Hcond as [Hcond Hroot]. apply andb_prop in Hcond as [Hb Hels].
    apply negb_true_iff in Hb, Hroot. apply bool_decide_eq_true in Hels.
    split; [intros [? ?]; discriminate|].
    intros [Hb'|[Hr'|Hd']]; [congruence | congruence |].
    apply Hex in Hd'. done.
  - cbv zeta in Hrun.
    destruct (bool_decide (sanitize (JS.str_or (legacy_name (name n)) (uuid n)) = ""));
      [discriminate|].
    destruct (Matrix4_decompose Matrix4_identity (rotation_YXZ n)) as [[p rr] s].
    injection Hrun as <- <- <-.
    split; [|eauto]. intros _.
    destruct (nodeHasBehavior n ts); [by left|].
    destruct isRoot; [by right; left|].
    right; right. apply Hex. simpl in Hcond.
    rewrite andb_true_r in Hcond. by apply bool_decide_eq_false in Hcond.
Qed.

(** The entities collected from the children wrap nodes of the child
    subtrees with the default scale factor. *)
Lemma inflate_children_baked ts (cs : list Node) :
  Forall (fun n =>
            forall idx isRoot m idx' n' el,
              inflateEntities idx n ts isRoot m = Ok (idx', n', Some el) ->
              baked n m el
              /\ Forall (fun e => exists d, d ∈ descendants n /\ baked d num_one e)
                   (descendant_entities el)) cs ->
  forall idx idx' kept els,
    inflate_children ts cs idx = Ok (idx', kept, els) ->
    Forall (fun e => exists d, d ∈ (cs ≫= traverse) /\ baked d num_one e)
      (els ≫= entities).
Proof.
  induction 1 as [|c cs Hc _ IH]; intros idx idx' kept els Hrun.
  - injection Hrun as <- <- <-. constructor.
  - rewrite inflate_children_cons in Hrun.
    destruct (inflateEntities idx c ts false num_one) as [[[idx1 c'] r]|] eqn:Hchild;
      [|discriminate].
    destruct (inflate_children ts cs idx1) as [[[idx2 kept2] els2]|] eqn:Hrest;
      [|discriminate].
    specialize (IH _ _ _ _ Hrest).
    change ((c :: cs) ≫= traverse) with (traverse c ++ (cs ≫= traverse)).
    assert (Htail : Forall (fun e => exists d,
                                d ∈ traverse c ++ (cs ≫= traverse) /\ baked d num_one e)
                      (els2 ≫= entities)).
    { eapply Forall_impl; [exact IH|]. simpl. intros e (d & Hd & Hb).
      exists d. split; [|exact Hb]. apply elem_of_app. by right. }
    destruct r as [el|]; injection Hrun as <- <- <-; [|exact Htail].
    change ((el :: els2) ≫= entities) with (entities el ++ (els2 ≫= entities)).
    apply Forall_app. split; [|exact Htail].
    destruct (Hc _ _ _ _ _ _ Hchild) as [Hroot Hbelow].
    rewrite entities_unfold. constructor.
    + exists c. split; [|exact Hroot].
      apply elem_of_app. left. rewrite traverse_unfold. by left.
    + eapply Forall_impl; [exact Hbelow|]. simpl. intros e (d & Hd & Hb).
      exists d. split; [|exact Hb].
      apply elem_of_app. left. rewrite traverse_unfold. by right.
Qed.

(** C7.  When a call yields an entity, the group of the entity has the
    position of the node, its rotation normalised to the YXZ order and
    its scale times the scale factor of the call; the node it wraps is
    the same object, now with the identity matrix and with position,
    rotation and scale read back from the identity by decomposition.
    The same holds, with the default factor of one, of every entity
    below it and the descendant it wraps. *)
Theorem inflated_entity_bakes_node_transform
    idx (node : Node) ts isRoot m idx' node' el :
  inflateEntities idx node ts isRoot m = Ok (idx', node', Some el) ->
  baked node m el
  /\ Forall (fun e => exists d, d ∈ descendants node /\ baked d num_one e)
       (descendant_entities el).
Proof.
  revert idx isRoot m idx' node' el.
  induction node as [n IHn] using Node_ind_children.
  intros idx isRoot m idx' node' el Hrun.
  rewrite inflateEntities_unfold in Hrun.
  destruct (inflate_children ts (children n) idx) as [[[idx1 kept] els]|] eqn:Hcs;
    [|discriminate].
  pose proof (inflate_children_baked ts _ IHn _ _ _ _ Hcs) as Hbelow.
  destruct (negb (nodeHasBehavior n ts) && bool_decide (els = []) && negb isRoot);
    [discriminate|].
  cbv zeta in Hrun.
  destruct (bool_decide (sanitize (JS.str_or (legacy_name (name n)) (uuid n)) = ""));
    [discriminate|].
  destruct (Matrix4_decompose Matrix4_identity (rotation_YXZ n)) as [[p rr] s] eqn:Hdec.
  injection Hrun as <- <- <-. split.
  - unfold baked. simpl. rewrite Hdec. repeat split; reflexivity.
  - exact Hbelow.
Qed.

End InflaterFacts.

(** ** The entity tree as a whole *)

Section LayoutFacts.
Context `{Three.Math}.
Import Three Inflater Layout.

Lemma shape_unfold (e : Entity) :
  shape e = mkShape (oids (payload e)) (shape <$> childEntities e).
Proof.
  destruct e as [c es g p k]. reflexivity.
Qed.

Lemma expected_unfold ts (n : Node) :
  expected ts n
  = mkShape (oid n :: plain_below ts (children n)) (expected_below ts (children n)).
Proof.
  destruct n as [o nm u t cs p r q s mx a ud an]. reflexivity.
Qed.

Lemma oids_unfold (n : Node) :
  oids n = oid n :: (oid <$> descendants n).
Proof. unfold oids. by rewrite traverse_unfold. Qed.

Lemma elem_of_traverse_trans (c d e : Node) :
  d ∈ traverse c -> e ∈ traverse d -> e ∈ traverse c.
Proof.
  revert d e. induction c as [c IH] using Node_ind_children.
  intros d e Hd He. rewrite traverse_unfold in Hd.
  apply elem_of_cons in Hd as [->|Hd]; [exact He|].
  rewrite traverse_unfold. right.
  unfold descendants in *. apply list_elem_of_bind in Hd as (k & Hd & Hk).
  apply list_elem_of_bind. exists k. split; [|exact Hk].
  rewrite Forall_forall in IH. eapply IH; eassumption.
Qed.

(** Below the root, the rule asks for an entity exactly when a node of
    the subtree qualifies. *)
Lemma wanted_traverse ts (n : Node) :
  wanted ts false n = true <-> Exists (qualifies ts) (traverse n).
Proof.
  unfold wanted. rewrite orb_false_r, orb_true_iff, !bool_decide_eq_true.
  by rewrite traverse_unfold, Exists_cons.
Qed.

Lemma wanted_false_below ts (n d : Node) :
  wanted ts false n = false -> d ∈ traverse n -> wanted ts false d = false.
Proof.
  intros Hn Hd. apply not_true_is_false. intros Hw.
  apply not_true_iff_false in Hn. apply Hn.
  apply wanted_traverse. apply wanted_traverse in Hw.
  apply Exists_exists in Hw as (e & He & Hq).
  apply Exists_exists. exists e. split; [|exact Hq].
  eapply elem_of_traverse_trans; eassumption.
Qed.

Lemma filter_none {A} (f : A -> bool) (l : list A) :
  (forall x, x ∈ l -> f x = false) -> List.filter f l = [].
Proof.
  induction l as [|x l IH]; intros Hl; [reflexivity|]. simpl.
  rewrite (Hl x) by (by left). apply IH. intros y Hy. apply Hl. by right.
Qed.

Lemma wanted_false_filter ts (n : Node) :
  wanted ts false n = false -> List.filter (wanted ts false) (traverse n) = [].
Proof.
  intros Hn. apply filter_none. intros d Hd. by eapply wanted_false_below.
Qed.

(** If none of the children is wanted, no subtree is pruned. *)
Lemma plain_below_all ts (cs : list Node) :
  (forall c, c ∈ cs -> wanted ts false c = false) ->
  plain_below ts cs = oid <$> (cs ≫= traverse).
Proof.
  induction cs as [|c cs IH]; intros Hcs; [reflexivity|].
  change ((c :: cs) ≫= traverse) with (traverse c ++ (cs ≫= traverse)).
  rewrite fmap_app. simpl. rewrite (Hcs c) by (by left).
  rewrite IH; [reflexivity|]. intros d Hd. apply Hcs. by right.
Qed.

(** A call yields an entity exactly when the rule asks for one. *)
Lemma inflateEntities_wanted ts (n : Node) idx isRoot m idx' n' r :
  inflateEntities idx n ts isRoot m = Ok (idx', n', r) ->
  Forall (fun d => legacy_name (name d) ∉ JS.Object_prototype_keys) (traverse n) ->
  is_Some r <-> wanted ts isRoot n = true.
Proof.
  intros Hrun Hproto.
  rewrite (inflateEntities_some_iff ts n _ _ _ _ _ _ Hrun).
  rewrite traverse_unfold in Hproto. apply Forall_cons in Hproto as [Hn Hds].
  rewrite (nodeHasBehavior_qualifies ts n Hn).
  assert (Hex : Exists (fun d => nodeHasBehavior d ts = true) (descendants n)
                <-> Exists (qualifies ts) (descendants n)).
  { rewrite !Exists_exists. rewrite Forall_forall in Hds.
    split; intros (d & Hd & Hq); exists d; (split; [exact Hd|]);
      by apply (nodeHasBehavior_qualifies ts d (Hds d Hd)). }
  rewrite Hex. unfold wanted. rewrite !orb_true_iff, !bool_decide_eq_true. tauto.
Qed.

Lemma inflate_children_laid_out ts (cs : list Node) :
  Forall (laid_out ts) cs ->
  forall idx idx' kept els,
    inflate_children ts cs idx = Ok (idx', kept, els) ->
    Forall (fun d => legacy_name (name d) ∉ JS.Object_prototype_keys) (cs ≫= traverse) ->
    oid <$> (kept ≫= traverse) = plain_below ts cs
    /\ shape <$> els = expected_below ts cs
    /\ (fun x => oid (payload x)) <$> (els ≫= entities)
       = oid <$> List.filter (wanted ts false) (cs ≫= traverse).
Proof.
  induction 1 as [|c cs Hc _ IH]; intros idx idx' kept els Hrun Hproto.
  - injection Hrun as <- <- <-. repeat split.
  - rewrite inflate_children_cons in Hrun.
    destruct (inflateEntities idx c ts false num_one) as [[[idx1 c'] r]|] eqn:Hchild;
      [|discriminate].
    destruct (inflate_children ts cs idx1) as [[[idx2 kept2] els2]|] eqn:Hrest;
      [|discriminate].
    change ((c :: cs) ≫= traverse) with (traverse c ++ (cs ≫= traverse)) in *.
    apply Forall_app in Hproto as [Hpc Hpcs].
    destruct (IH _ _ _ _ Hrest Hpcs) as (IHk & IHs & IHe).
    pose proof (inflateEntities_wanted ts c _ _ _ _ _ _ Hchild Hpc) as Hw.
    specialize (Hc _ _ _ _ _ _ Hchild Hpc).
    rewrite List.filter_app, fmap_app.
    destruct r as [el|]; injection Hrun as <- <- <-.
    + assert (Hwc : wanted ts false c = true) by (apply Hw; eauto).
      destruct Hc as (_ & Hnodes & Hshape).
      split; [simpl; by rewrite Hwc|]. split.
      * rewrite fmap_cons, Hshape, IHs. simpl. by rewrite Hwc.
      * change ((el :: els2) ≫= entities) with (entities el ++ (els2 ≫= entities)).
        rewrite fmap_app, IHe. f_equal.
        fold (entity_nodes el). rewrite Hnodes, traverse_unfold.
        cbn [List.filter]. by rewrite Hwc.
    + assert (Hwc : wanted ts false c = false).
      { apply not_true_is_false. intros Hwc. apply Hw in Hwc. by destruct Hwc. }
      change ((c' :: kept2) ≫= traverse) with (traverse c' ++ (kept2 ≫= traverse)).
      rewrite (fmap_app _ (traverse c')), IHk. fold (oids c'). rewrite Hc.
      split; [simpl; by rewrite Hwc|]. split; [simpl; by rewrite Hwc|].
      by rewrite (wanted_false_filter ts c Hwc).
Qed.

Lemma inflateEntities_laid_out ts (n : Node) : laid_out ts n.
Proof.
  induction n as [n IHn] using Node_ind_children.
  intros idx isRoot m idx' n' r Hrun Hproto.
  pose proof (inflateEntities_wanted ts n _ _ _ _ _ _ Hrun Hproto) as Hw.
  rewrite inflateEntities_unfold in Hrun.
  destruct (inflate_children ts (children n) idx) as [[[idx1 kept] els]|] eqn:Hcs;
    [|discriminate].
  rewrite traverse_unfold in Hproto. apply Forall_cons in Hproto as [_ Hds].
  destruct (inflate_children_laid_out ts _ IHn _ _ _ _ Hcs Hds) as (Hk & Hs & He).
  destruct (negb (nodeHasBehavior n ts) && bool_decide (els = []) && negb isRoot)
    eqn:Hcond.
  - injection Hrun as <- <- <-.
    assert (Hwn : wanted ts isRoot n = false).
    { apply not_true_is_false. intros Hwn. apply Hw in Hwn. by destruct Hwn. }
    apply andb_prop in Hcond as [_ Hroot]. apply negb_true_iff in Hroot. subst isRoot.
    rewrite !oids_unfold. simpl. f_equal.
    unfold descendants at 1. simpl. rewrite Hk.
    apply plain_below_all. intros c Hc.
    apply (wanted_false_below ts n c Hwn).
    rewrite traverse_unfold. right. unfold descendants.
    apply list_elem_of_bind. exists c. split; [|exact Hc].
    rewrite traverse_unfold. by left.
  - cbv zeta in Hrun.
    destruct (bool_decide (sanitize (JS.str_or (legacy_name (name n)) (uuid n)) = ""));
      [discriminate|].
    destruct (Matrix4_decompose Matrix4_identity (rotation_YXZ n)) as [[p rr] s].
    injection Hrun as <- <- <-.
    split; [reflexivity|]. split.
    + unfold entity_nodes. rewrite entities_unfold. simpl. f_equal.
      unfold descendant_entities. simpl. exact He.
    + rewrite shape_unfold, expected_unfold. simpl.
      rewrite oids_unfold. simpl. unfold descendants at 1. simpl.
      by rewrite Hk, Hs.
Qed.

Lemma fmap_NoDup_inj {A B} (f : A -> B) (l : list A) (x y : A) :
  NoDup (f <$> l) -> x ∈ l -> y ∈ l -> f x = f y -> x = y.
Proof.
  induction l as [|a l IH]; intros Hnd Hx Hy Hf; [by apply elem_of_nil in Hx|].
  rewrite fmap_cons in Hnd. apply NoDup_cons in Hnd as [Ha Hnd].
  apply elem_of_cons in Hx as [->|Hx]; apply elem_of_cons in Hy as [->|Hy].
  - reflexivity.
  - exfalso. apply Ha. rewrite Hf. by apply list_elem_of_fmap_2.
  - exfalso. apply Ha. rewrite <- Hf. by apply list_elem_of_fmap_2.
  - by apply IH.
Qed.

(** With distinct objects, a node below the node of the call is among
    the nodes listed by the rule exactly when it qualifies or has a
    qualifying descendant. *)
Lemma wanted_listed ts (node n : Node) :
  NoDup (oids node) -> n ∈ descendants node ->
  oid n ∈ oid node :: (oid <$> List.filter (wanted ts false) (descendants node))
  <-> qualifies ts n \/ Exists (qualifies ts) (descendants n).
Proof.
  intros Hnd Hn. rewrite oids_unfold in Hnd.
  pose proof Hnd as Hnd'. apply NoDup_cons in Hnd' as [Hroot Hbelow].
  rewrite <- Exists_cons, <- traverse_unfold, <- wanted_traverse.
  rewrite elem_of_cons. split.
  - intros [Heq|Hin].
    + exfalso. apply Hroot. rewrite <- Heq. by apply list_elem_of_fmap_2.
    + apply list_elem_of_fmap in Hin as (d & Heq & Hd).
      apply list_elem_of_In, List.filter_In in Hd as [Hd Hw].
      apply list_elem_of_In in Hd.
      by rewrite (fmap_NoDup_inj oid _ n d Hbelow Hn Hd Heq).
  - intros Hw. right. apply list_elem_of_fmap_2.
    apply list_elem_of_In, List.filter_In. split; [|exact Hw].
    by apply list_elem_of_In.
Qed.

(** C4 (as amended).  Take a call on a tree in which no node bears the
    name of a property that every object inherits.  The call yields an
    entity for the node it is given if and only if the node carries
    components, or its name after the legacy renaming is the name of a
    declared template, or it is the root, or a descendant qualifies in
    the same way.  When it does, the same rule decides for every node of
    the tree: the entities of the result, taken in traversal order, were
    made for the node of the call and for exactly those nodes below it
    that qualify or have a qualifying descendant; so, the objects of
    the tree being distinct, a node below the node of the call has an
    entity if and only if it qualifies or a descendant of it does.  The
    shape of the entity tree is the one the rule describes: a node
    without an entity stays, with its whole subtree, inside the object
    wrapped by the entity of its nearest ancestor that has one, and the
    child entities of an entity are those of the nearest nodes below it
    that get one.  When the call yields no entity, no node of the
    subtree qualifies and the subtree keeps all its objects. *)
Theorem entity_iff_node_or_descendant_qualifies
    idx (node : Node) ts isRoot m idx' node' r :
  inflateEntities idx node ts isRoot m = Ok (idx', node', r) ->
  Forall (fun n => legacy_name (name n) ∉ JS.Object_prototype_keys) (traverse node) ->
  (is_Some r <->
   qualifies ts node \/ isRoot = true \/ Exists (qualifies ts) (descendants node))
  /\ match r with
     | Some el =>
         payload el = node'
         /\ entity_nodes el
            = oid node :: (oid <$> List.filter (wanted ts false) (descendants node))
         /\ (NoDup (oids node) ->
             forall n, n ∈ descendants node ->
               (oid n ∈ entity_nodes el <->
                qualifies ts n \/ Exists (qualifies ts) (descendants n)))
         /\ shape el = expected ts node
     | None =>
         Forall (fun n => ~ qualifies ts n) (traverse node)
         /\ oids node' = oids node
     end.
Proof.
  intros Hrun Hproto.
  pose proof (inflateEntities_wanted ts node _ _ _ _ _ _ Hrun Hproto) as Hw.
  pose proof (inflateEntities_laid_out ts node _ _ _ _ _ _ Hrun Hproto) as Hl.
  split.
  - rewrite Hw. unfold wanted. rewrite !orb_true_iff, !bool_decide_eq_true. tauto.
  - destruct r as [el|].
    + destruct Hl as (Hp & Hnodes & Hshape).
      split; [exact Hp|]. split; [exact Hnodes|]. split; [|exact Hshape].
      intros Hnd n Hn. rewrite Hnodes. by apply wanted_listed.
    + split; [|exact Hl].
      assert (Hwn : wanted ts isRoot node = false).
      { apply not_true_is_false. intros Hwn. apply Hw in Hwn. by destruct Hwn. }
      unfold wanted in Hwn. apply orb_false_iff in Hwn as [Hwn Hd].
      apply orb_false_iff in Hwn as [Hq _].
      apply bool_decide_eq_false in Hq, Hd.
      rewrite traverse_unfold. apply Forall_cons. split; [exact Hq|].
      apply Forall_forall. intros d Hin Hqd. apply Hd.
      apply Exists_exists. by exists d.
Qed.

End LayoutFacts.

(** The garden inflated by a call that is not flagged as the root: the
    scene gets an entity because nodes below it carry components, and
    so do the bed, for the lamp it holds, and the two lamps. *)
Lemma entity_iff_node_or_descendant_qualifies_witness :
  exists idx' node' el,
    @Inflater.inflateEntities Example.ZScalar Example.ZMath
      ∅ Example2.garden [] false 3%Z = Ok (idx', node', Some el)
    /\ (is_Some (Some el) <->
        Inflater.qualifies [] Example2.garden \/ false = true
        \/ Exists (Inflater.qualifies []) (Inflater.descendants Example2.garden))
    /\ Three.payload el = node'
    /\ Layout.entity_nodes el
       = 0 :: (Three.oid <$> List.filter (Layout.wanted [] false)
                 (Inflater.descendants Example2.garden))
    /\ (NoDup (Three.oids Example2.garden) ->
        forall n, n ∈ Inflater.descendants Example2.garden ->
          (Three.oid n ∈ Layout.entity_nodes el <->
           Inflater.qualifies [] n
           \/ Exists (Inflater.qualifies []) (Inflater.descendants n)))
    /\ Layout.shape el = Layout.expected [] Example2.garden.
Proof.
  assert (exists idx' node' el,
             @Inflater.inflateEntities Example.ZScalar Example.ZMath
               ∅ Example2.garden [] false 3%Z = Ok (idx', node', Some el))
    as (idx' & node' & el & Hrun) by (eexists _, _, _; reflexivity).
  exists idx', node', el. split; [exact Hrun|].
  apply (@entity_iff_node_or_descendant_qualifies Example.ZScalar Example.ZMath
           ∅ Example2.garden [] false 3%Z idx' node' (Some el) Hrun).
  repeat (apply Forall_cons; split; [apply (bool_decide_unpack _); exact I|]).
  apply Forall_nil. exact I.
Defined.

(** The garden, laid out by the rule: the entity of the scene wraps the
    scene, the rock with its pebble and the empty group; below it are
    the entity of the bed, which wraps the bed and its soil and has the
    entity of the first lamp below it, and the entity of the second
    lamp, which wraps the lamp and its shade.  The objects of the
    garden are distinct. *)
Lemma garden_layout :
  Layout.expected [] Example2.garden
  = Layout.mkShape [0; 4; 5; 8]
      [ Layout.mkShape [1; 2] [Layout.mkShape [3] []];
        Layout.mkShape [6; 7] [] ]
  /\ Three.oid <$> List.filter (Layout.wanted [] false)
                     (Inflater.descendants Example2.garden)
     = [1; 3; 6]
  /\ NoDup (Three.oids Example2.garden).
Proof.
  split; [|split]; [vm_compute; reflexivity | vm_compute; reflexivity |].
  apply (bool_decide_unpack _). vm_compute. exact I.
Qed.

(** C4, counterexample.  A node named "Chest" under a consumer that
    declares a template named "Chest": the name of the node is the name
    of a declared template, yet the node gets no entity, and the entity
    of the root has no child entity. *)
Lemma legacy_named_node_matches_template_without_entity :
  Inflater.name_matches_template Example.chest_template Example.chest
  /\ (exists idx' node',
         @Inflater.inflateEntities Example.ZScalar Example.ZMath
           ∅ Example.chest Example.chest_template false 1%Z = Ok (idx', node', None))
  /\ (exists idx' node' el,
         @Inflater.inflateEntities Example.ZScalar Example.ZMath
           ∅ Example.legacy_avatar Example.chest_template true 1%Z
         = Ok (idx', node', Some el)
         /\ Three.childEntities el = []).
Proof.
  split; [|split].
  - unfold Inflater.name_matches_template. simpl. set_solver.
  - eexists _, _. reflexivity.
  - eexists _, _, _. split; reflexivity.
Qed.

(** The small scene inflated as a root with scale factor 3. *)
Lemma inflated_entity_bakes_node_transform_witness :
  exists idx' node' el,
    @Inflater.inflateEntities Example.ZScalar Example.ZMath
      ∅ Example.small_scene [] true 3%Z = Ok (idx', node', Some el)
    /\ @Inflater.baked Example.ZScalar Example.ZMath Example.small_scene 3%Z el
    /\ Forall (fun e => exists d,
                   d ∈ Inflater.descendants Example.small_scene
                   /\ @Inflater.baked Example.ZScalar Example.ZMath d 1%Z e)
         (Inflater.descendant_entities el).
Proof.
  assert (exists idx' node' el,
             @Inflater.inflateEntities Example.ZScalar Example.ZMath
               ∅ Example.small_scene [] true 3%Z = Ok (idx', node', Some el))
    as (idx' & node' & el & Hrun) by (eexists _, _, _; reflexivity).
  exists idx', node', el. split; [exact Hrun|].
  exact (@inflated_entity_bakes_node_transform Example.ZScalar Example.ZMath
           ∅ Example.small_scene [] true 3%Z idx' node' el Hrun).
Defined.

(** ** In-flight records and superseded loads, on concrete runs *)

Section Runs.
#[local] Existing Instance Example.ZScalar.
#[local] Existing Instance Example.ZMath.

(** C3.  A load that fails leaves its in-flight record behind: after
    the rejection the registry still maps the key to the rejected
    promise, for images and for models alike, although nothing is
    cached.  A later request for the key finds the record, starts no
    load and fails in turn. *)
Theorem failed_load_leaves_inflight_record :
  (MediaImage.inflightTextures Example.failed_image_load !! "a.png"%string = Some 0
   /\ MediaImage.promises Example.failed_image_load !! 0 = Some (Done (Rejected "404"))
   /\ MediaImage.textureCache Example.failed_image_load !! "a.png"%string = None)
  /\ (MediaImage.inflightTextures Example.failed_image_retry !! "a.png"%string = Some 0
      /\ MediaImage.loads_started "a.png" (MediaImage.effects Example.failed_image_retry) = 1
      /\ (MediaImage.material_map <$>
            (MediaImage.components Example.failed_image_retry !! 2
               ≫= MediaImage.mesh))
         = Some (Some MediaImage.ErrorTexture))
  /\ (GltfModelPlus.inflightGltfs Example.failed_model_load !! "m.glb"%string = Some 0
      /\ GltfModelPlus.loads Example.failed_model_load !! 0
         = Some (Done (Rejected "404"))
      /\ GltfModelPlus.gltfCache Example.failed_model_load !! "m.glb"%string = None
      /\ GltfModelPlus.returned Example.failed_model_load = [(1, Rejected "404")]).
Proof.
  repeat split; vm_compute; reflexivity.
Qed.

(** C5.  A superseded model load keeps the retain it took.  When the
    newer source is already cached its continuation runs first and
    releases the stale key before the stale load has put it in the
    cache; when the newer source is empty nothing releases the stale
    key at all.  In both runs all work has finished, the component no
    longer asks for "b.glb", no entity is attached, and the count of
    "b.glb" is 1. *)
Theorem superseded_load_keeps_its_retain :
  (GltfModelPlus.count_of "b.glb" Example.superseded_by_cached = 1%Z
   /\ (GltfModelPlus.lastSrc <$>
         GltfModelPlus.components Example.superseded_by_cached !! 2)
      = Some (Some "c.glb"%string)
   /\ (GltfModelPlus.appended <$>
         GltfModelPlus.components Example.superseded_by_cached !! 2) = Some []
   /\ GltfModelPlus.microtasks Example.superseded_by_cached = []
   /\ ConsoleError "Releasing uncached gltf b.glb"
        ∈ GltfModelPlus.effects Example.superseded_by_cached)
  /\ (GltfModelPlus.count_of "b.glb" Example.superseded_by_empty = 1%Z
      /\ (GltfModelPlus.lastSrc <$>
            GltfModelPlus.components Example.superseded_by_empty !! 2)
         = Some (Some ""%string)
      /\ (GltfModelPlus.appended <$>
            GltfModelPlus.components Example.superseded_by_empty !! 2) = Some []
      /\ GltfModelPlus.microtasks Example.superseded_by_empty = []).
Proof.
  repeat split; try (vm_compute; reflexivity).
  apply (bool_decide_unpack _). vm_compute. exact I.
Qed.

End Runs.

(** ** Two requests for one key *)

Section ImageRequests.
Import MediaImage.

Lemma loads_started_app key es1 es2 :
  loads_started key (es1 ++ es2) = loads_started key es1 + loads_started key es2.
Proof. unfold loads_started. by rewrite List.filter_app, length_app. Qed.

Lemma requested_data d o : data (requested d o) = d.
Proof. by destruct o. Qed.

Lemma requested_attached d o : Observe.ready o -> parentNode (requested d o) = true.
Proof. destruct o as [comp|]; cbn; [by intros [? _] | done]. Qed.

(** The head of [update] does nothing on a component that is ready. *)
Lemma drop_previous_ready tc inf ps np comps q es (c : nat) (d : Data) o old :
  Observe.ready o ->
  drop_previous c old
    {| textureCache := tc; inflightTextures := inf; promises := ps; nextPromise := np;
       components := <[c := requested d o]> comps; microtasks := q; effects := es |}
  = {| textureCache := tc; inflightTextures := inf; promises := ps; nextPromise := np;
       components := <[c := requested d o]> comps; microtasks := q; effects := es |}.
Proof.
  intros Hready. unfold drop_previous. cbn -[requested]. rewrite lookup_insert_eq.
  destruct o as [comp|]; cbn; [|reflexivity].
  destruct Hready as [_ Hmm]. destruct (mesh comp) as [m|]; [|reflexivity].
  by rewrite Hmm.
Qed.

(** The first request for a key that is neither cached nor in flight
    starts a load and registers its promise. *)
Lemma first_image_request tc inf ps np comps es (k f : string) (c : nat) (d : Data) :
  k <> ""%string -> k <> "error"%string -> src d = k ->
  loader (contentType d) = Some f ->
  Observe.ready (comps !! c) -> tc !! k = None -> inf !! k = None ->
  step (SetData c d)
    {| textureCache := tc; inflightTextures := inf; promises := ps; nextPromise := np;
       components := comps; microtasks := []; effects := es |}
  = {| textureCache := tc; inflightTextures := <[k := np]> inf;
       promises := <[np := Pending [AwaitLoad c k (data <$> comps !! c)]]> ps;
       nextPromise := S np;
       components := <[c := requested d (comps !! c)]> comps; microtasks := [];
       effects := (es ++ [Emit c "image-loading"]) ++ [LoadStarted f k np] |}.
Proof.
  intros Hne Herr Hs Hct Hready Hcache Hinf.
  unfold step. cbn -[update drain requested].
  unfold update. cbn -[requested drop_previous]. rewrite lookup_insert_eq.
  rewrite requested_data, Hs.
  rewrite bool_decide_eq_false_2 by done.
  unfold log. cbn -[requested drop_previous].
  rewrite drop_previous_ready by done.
  cbn -[requested]. rewrite lookup_insert_eq.
  unfold TextureCache.has. rewrite Hcache.
  rewrite (bool_decide_eq_false_2 (is_Some None)) by (by intros [? ?]).
  rewrite (bool_decide_eq_false_2 (k = "error"%string)) by done.
  rewrite Hinf, Hct. reflexivity.
Qed.

(** A second request while the load is pending subscribes to the same
    promise and starts nothing. *)
Lemma second_image_request tc inf ps np comps es (k : string) (c p : nat) (d : Data) ws :
  k <> ""%string -> k <> "error"%string -> src d = k ->
  Observe.ready (comps !! c) -> tc !! k = None -> inf !! k = Some p ->
  ps !! p = Some (Pending ws) ->
  step (SetData c d)
    {| textureCache := tc; inflightTextures := inf; promises := ps; nextPromise := np;
       components := comps; microtasks := []; effects := es |}
  = {| textureCache := tc; inflightTextures := inf;
       promises := <[p := Pending (ws ++ [AwaitInflight c k (data <$> comps !! c)])]> ps;
       nextPromise := np;
       components := <[c := requested d (comps !! c)]> comps; microtasks := [];
       effects := es ++ [Emit c "image-loading"] |}.
Proof.
  intros Hne Herr Hs Hready Hcache Hinf Hp.
  unfold step. cbn -[update drain requested].
  unfold update. cbn -[requested drop_previous]. rewrite lookup_insert_eq.
  rewrite requested_data, Hs.
  rewrite bool_decide_eq_false_2 by done.
  unfold log. cbn -[requested drop_previous].
  rewrite drop_previous_ready by done.
  cbn -[requested]. rewrite lookup_insert_eq.
  unfold TextureCache.has. rewrite Hcache.
  rewrite (bool_decide_eq_false_2 (is_Some None)) by (by intros [? ?]).
  rewrite (bool_decide_eq_false_2 (k = "error"%string)) by done.
  rewrite Hinf. unfold Promise.await. rewrite Hp. reflexivity.
Qed.

(** The initiator resumes: the record is removed and the texture
    cached with count one. *)
Lemma resume_image_load tc inf ps np comps q es (k : string) (c : nat)
    (comp : Component) old (tex : Texture) :
  comps !! c = Some comp -> src (data comp) = k -> parentNode comp = true ->
  resume (AwaitLoad c k old, Fulfilled tex)
    {| textureCache := tc; inflightTextures := inf; promises := ps; nextPromise := np;
       components := comps; microtasks := q; effects := es |}
  = let item := {| TextureCache.texture := tex;
                   TextureCache.ratio :=
                     (JS.num_or (videoHeight (image tex)) (height (image tex)),
                      JS.num_or (videoWidth (image tex)) (width (image tex)));
                   TextureCache.count := 1 |} in
    let comp' := with_retained true comp in
    {| textureCache := <[k := item]> (<[k := TextureCache.with_count item 0]> tc);
       inflightTextures := delete k inf; promises := ps; nextPromise := np;
       components :=
         <[c := render comp' old (Loaded tex) (TextureCache.ratio item)]>
           (<[c := comp']> comps);
       microtasks := q;
       effects := es ++ announce c comp' (Loaded tex) |}.
Proof.
  intros Hc Hs Hp.
  unfold resume. cbn -[checked_item].
  unfold TextureCache.set, TextureCache.retain. rewrite lookup_insert_eq.
  cbn -[checked_item].
  unfold checked_item, stale. cbn -[on_item release]. rewrite Hc, Hs, Hp.
  rewrite bool_decide_eq_true_2 by done. cbn -[on_item].
  unfold on_item. cbn -[after_try]. rewrite Hc.
  unfold after_try. cbn -[render announce]. rewrite lookup_insert_eq.
  reflexivity.
Qed.

(** A waiter resumes: it retains the cached texture. *)
Lemma resume_image_inflight tc inf ps np comps q es (k : string) (c : nat)
    (comp : Component) old (tex : Texture) item :
  comps !! c = Some comp -> src (data comp) = k -> parentNode comp = true ->
  tc !! k = Some item ->
  resume (AwaitInflight c k old, Fulfilled tex)
    {| textureCache := tc; inflightTextures := inf; promises := ps; nextPromise := np;
       components := comps; microtasks := q; effects := es |}
  = let item' := TextureCache.with_count item (TextureCache.count item + 1) in
    let comp' := with_retained true comp in
    {| textureCache := <[k := item']> tc;
       inflightTextures := inf; promises := ps; nextPromise := np;
       components :=
         <[c := render comp' old (Loaded (TextureCache.texture item'))
                  (TextureCache.ratio item')]>
           (<[c := comp']> comps);
       microtasks := q;
       effects := es ++ announce c comp' (Loaded (TextureCache.texture item')) |}.
Proof.
  intros Hc Hs Hp Hitem.
  unfold resume. cbn -[checked_item].
  unfold TextureCache.retain. rewrite Hitem.
  cbn -[checked_item].
  unfold checked_item, stale. cbn -[on_item release]. rewrite Hc, Hs, Hp.
  rewrite bool_decide_eq_true_2 by done. cbn -[on_item].
  unfold on_item. cbn -[after_try]. rewrite Hc.
  unfold after_try. cbn -[render announce]. rewrite lookup_insert_eq.
  reflexivity.
Qed.

Lemma announce_starts_no_load key c comp tex :
  loads_started key (announce c comp tex) = 0.
Proof.
  unfold announce. destruct (negb (is_error tex) && batch (data comp)); reflexivity.
Qed.

(** The load settles with both components waiting. *)
Lemma settle_two_image_waiters tc inf ps np comps es (k : string) (c1 c2 p : nat)
    (comp1 comp2 : Component) old1 old2 (tex : Texture) :
  src (data comp1) = k -> src (data comp2) = k -> c1 <> c2 ->
  parentNode comp1 = true -> parentNode comp2 = true ->
  comps !! c1 = Some comp1 ->
  comps !! c2 = Some comp2 ->
  ps !! p = Some (Pending [AwaitLoad c1 k old1; AwaitInflight c2 k old2]) ->
  exists w',
    step (Settle p (Fulfilled tex))
      {| textureCache := tc; inflightTextures := inf; promises := ps; nextPromise := np;
         components := comps; microtasks := []; effects := es |} = w'
    /\ inflightTextures w' = delete k inf
    /\ (exists item,
           textureCache w' !! k = Some item
           /\ TextureCache.texture item = tex
           /\ TextureCache.count item = 2%Z)
    /\ (exists es', effects w' = es ++ es' /\ loads_started k es' = 0)
    /\ Observe.shows c1 tex w'
    /\ Observe.shows c2 tex w'.
Proof.
  intros Hs1 Hs2 Hc Hp1 Hp2 Hc1 Hc2 Hp.
  eexists. split; [reflexivity|].
  unfold step, Promise.settle. cbn [promises]. rewrite Hp.
  cbn -[resume]. unfold drain. cbn -[resume].
  unfold set_microtasks, set_promises. cbn -[resume].
  rewrite (resume_image_load _ _ _ _ _ _ _ k c1 comp1) by done.
  cbn zeta.
  erewrite (resume_image_inflight _ _ _ _ _ _ _ k c2 comp2);
    [| by rewrite !lookup_insert_ne by done | done | done | by rewrite lookup_insert_eq ].
  cbn -[render announce].
  split; [reflexivity|].
  split. { eexists. rewrite lookup_insert_eq. split; [reflexivity|]. split; reflexivity. }
  split. { eexists. rewrite <- app_assoc. split; [reflexivity|].
           by rewrite loads_started_app, !announce_starts_no_load. }
  unfold Observe.shows. cbn -[render announce]. split.
  - eexists _, _. rewrite !lookup_insert_ne by done. rewrite lookup_insert_eq.
    split; [reflexivity|]. repeat split.
  - eexists _, _. rewrite lookup_insert_eq.
    split; [reflexivity|]. repeat split.
Qed.

(** A request for the reserved key "error" that is not cached: the
    component takes the placeholder; nothing is loaded or cached. *)
Lemma error_image_request tc inf ps np comps es (c : nat) (d : Data) :
  src d = "error"%string ->
  Observe.ready (comps !! c) -> tc !! "error"%string = None ->
  exists comp m,
    step (SetData c d)
      {| textureCache := tc; inflightTextures := inf; promises := ps; nextPromise := np;
         components := comps; microtasks := []; effects := es |}
    = {| textureCache := tc; inflightTextures := inf; promises := ps; nextPromise := np;
         components := <[c := comp]> comps; microtasks := [];
         effects := es ++ [Emit c "image-loading"; Emit c "image-loaded"] |}
    /\ mesh comp = Some m
    /\ material_map m = Some ErrorTexture.
Proof.
  intros Hs Hready Hcache.
  unfold step. cbn -[update drain requested].
  unfold update. cbn -[requested drop_previous]. rewrite lookup_insert_eq.
  rewrite requested_data, Hs.
  rewrite bool_decide_eq_false_2 by done.
  unfold log. cbn -[requested drop_previous].
  rewrite drop_previous_ready by done.
  cbn -[requested]. rewrite lookup_insert_eq.
  unfold TextureCache.has. rewrite Hcache.
  rewrite (bool_decide_eq_false_2 (is_Some None)) by (by intros [? ?]).
  rewrite (bool_decide_eq_true_2 ("error"%string = "error"%string)) by done.
  unfold checked_item, stale. cbn -[requested]. rewrite lookup_insert_eq.
  rewrite requested_data, Hs, requested_attached by done.
  rewrite bool_decide_eq_true_2 by done. cbn -[requested render].
  unfold on_item. cbn -[requested render]. rewrite lookup_insert_eq.
  unfold after_try, set_component, log. cbn -[requested render].
  rewrite lookup_insert_eq, !insert_insert_eq.
  unfold drain. cbn -[requested render].
  eexists _, _. split; [|split].
  - rewrite <- app_assoc. reflexivity.
  - reflexivity.
  - reflexivity.
Qed.

End ImageRequests.

(** ** Clones made by the model loader *)

Section CloneFacts.
Context `{Three.Math}.
Import Three GltfModelPlus.

Lemma allocate_unfold (next : nat) (n : Node) :
  allocate next n
  = let '(next', cs) := allocate_children (children n) (S next) in
    (next',
     mkNode next (name n) (uuid n) (type n) cs (position n) (rotation n)
       (quaternion n) (scale n) (matrix n) (matrixAutoUpdate n)
       (userData n) (animations n)).
Proof. destruct n. reflexivity. Qed.

Lemma forget_identity_unfold (n : Node) :
  forget_identity n
  = mkNode 0 (name n) (uuid n) (type n) (forget_identity <$> children n)
      (position n) (rotation n) (quaternion n) (scale n) (matrix n)
      (matrixAutoUpdate n) (userData n) (animations n).
Proof. destruct n. reflexivity. Qed.

Lemma allocate_children_spec (cs : list Node) :
  Forall (fun n =>
            forall next, exists n',
              allocate next n = (next + length (traverse n), n')
              /\ oid <$> traverse n' = seq next (length (traverse n))
              /\ forget_identity n' = forget_identity n) cs ->
  forall nxt, exists cs',
    allocate_children cs nxt = (nxt + length (cs ≫= traverse), cs')
    /\ oid <$> (cs' ≫= traverse) = seq nxt (length (cs ≫= traverse))
    /\ forget_identity <$> cs' = forget_identity <$> cs.
Proof.
  induction 1 as [|c cs Hc _ IH]; intros nxt.
  - exists []. cbn. rewrite Nat.add_0_r. done.
  - destruct (Hc nxt) as (c' & Hrun & Hoids & Hshape).
    destruct (IH (nxt + length (traverse c))) as (cs' & Hrun' & Hoids' & Hshape').
    exists (c' :: cs').
    change ((c :: cs) ≫= traverse) with (traverse c ++ (cs ≫= traverse)).
    change ((c' :: cs') ≫= traverse) with (traverse c' ++ (cs' ≫= traverse)).
    rewrite length_app, fmap_app, seq_app, Hoids, Hoids'.
    split; [|split; [reflexivity|]].
    + cbn. rewrite Hrun. fold allocate_children. rewrite Hrun'.
      by rewrite Nat.add_assoc.
    + cbn. by rewrite Hshape, Hshape'.
Qed.

(** Allocation numbers the nodes consecutively, the node before its
    children, and changes nothing else. *)
Lemma allocate_spec (n : Node) :
  forall next, exists n',
    allocate next n = (next + length (traverse n), n')
    /\ oid <$> traverse n' = seq next (length (traverse n))
    /\ forget_identity n' = forget_identity n.
Proof.
  induction n as [n IHn] using Node_ind_children. intros next.
  destruct (allocate_children_spec _ IHn (S next)) as (cs' & Hrun & Hoids & Hshape).
  rewrite allocate_unfold, Hrun.
  eexists. split; [|split].
  - rewrite traverse_unfold. cbn. unfold Inflater.descendants.
    f_equal. lia.
  - rewrite (traverse_unfold n), traverse_unfold. unfold Inflater.descendants.
    cbn. by rewrite Hoids.
  - rewrite forget_identity_unfold, (forget_identity_unfold n). cbn.
    by rewrite Hshape.
Qed.

(** [cloneGltf] yields a fresh clone and advances the allocator by the
    size of the scene. *)
Lemma cloneGltf_fresh (next : nat) (g : GLTF) :
  exists clone,
    cloneGltf next g = (next + length (traverse (scene g)), clone)
    /\ fresh_clone_of next g clone.
Proof.
  unfold cloneGltf, cloneObject3D.
  destruct (allocate_spec (scene g) next) as (s & Hrun & Hoids & Hshape).
  rewrite Hrun. eexists. split; [reflexivity|].
  unfold fresh_clone_of, oids. cbn. done.
Qed.

End CloneFacts.

(** ** The model loader *)

Section LoaderFacts.
Context `{Three.Math}.
Import Three GltfModelPlus.

Lemma drain_idle (w : World) : microtasks w = [] -> drain w = w.
Proof. unfold drain. intros ->. reflexivity. Qed.

Lemma model_loads_started_app key es1 es2 :
  loads_started key (es1 ++ es2) = loads_started key es1 + loads_started key es2.
Proof. unfold loads_started. by rewrite List.filter_app, length_app. Qed.

(** The cached path of [loadModel]. *)
Lemma loadModel_cached (w : World) (k : Caller) (key : string) item :
  gltfCache w !! key = Some item ->
  exists clone,
    loadModel k key true w
    = enqueue [Deliver k (Fulfilled clone)]
        (set_nextOid (nextOid w + length (traverse (scene (GLTFCache.gltf item))))
           (set_cache
              (<[key := GLTFCache.with_count item (GLTFCache.count item + 1)]>
                 (gltfCache w)) w))
    /\ fresh_clone_of (nextOid w) (GLTFCache.gltf item) clone.
Proof.
  intros Hitem.
  destruct (cloneGltf_fresh (nextOid w) (GLTFCache.gltf item)) as (clone & Hrun & Hfresh).
  exists clone. split; [|exact Hfresh].
  unfold loadModel, GLTFCache.has, GLTFCache.retain, GLTFCache.get. rewrite Hitem.
  rewrite bool_decide_eq_true_2 by eauto.
  cbn [gltfCache set_cache]. rewrite lookup_insert_eq.
  unfold return_clone. cbn [nextOid set_cache GLTFCache.gltf GLTFCache.with_count].
  rewrite Hrun. reflexivity.
Qed.

(** A waiter of [loadModel] resumed with the loaded asset. *)
Lemma resume_load_inflight (w : World) (k : Caller) (key : string) (g : GLTF) item :
  gltfCache w !! key = Some item ->
  exists clone,
    resume_load (AwaitInflight k key) (Fulfilled g) w
    = enqueue [Deliver k (Fulfilled clone)]
        (set_nextOid (nextOid w + length (traverse (scene g)))
           (set_cache
              (<[key := GLTFCache.with_count item (GLTFCache.count item + 1)]>
                 (gltfCache w)) w))
    /\ fresh_clone_of (nextOid w) g clone.
Proof.
  intros Hitem.
  destruct (cloneGltf_fresh (nextOid w) g) as (clone & Hrun & Hfresh).
  exists clone. split; [|exact Hfresh].
  unfold resume_load, GLTFCache.retain. rewrite Hitem.
  unfold return_clone. cbn [nextOid set_cache]. rewrite Hrun. reflexivity.
Qed.

(** The initiator of a load resumed with the loaded asset. *)
Lemma resume_load_initiator (w : World) (k : Caller) (key : string) (g : GLTF) :
  exists clone,
    resume_load (AwaitLoad k key) (Fulfilled g) w
    = enqueue [Deliver k (Fulfilled clone)]
        (set_nextOid (nextOid w + length (traverse (scene g)))
           (set_cache
              (<[key := {| GLTFCache.gltf := g; GLTFCache.count := 1 |}]>
                 (<[key := {| GLTFCache.gltf := g; GLTFCache.count := 0 |}]>
                    (gltfCache w)))
              (set_inflight (delete key (inflightGltfs w)) w)))
    /\ fresh_clone_of (nextOid w) g clone.
Proof.
  destruct (cloneGltf_fresh (nextOid w) g) as (clone & Hrun & Hfresh).
  exists clone. split; [|exact Hfresh].
  unfold resume_load, GLTFCache.set, GLTFCache.retain.
  cbn [gltfCache set_inflight]. rewrite lookup_insert_eq.
  unfold return_clone. cbn [nextOid set_cache set_inflight]. rewrite Hrun. reflexivity.
Qed.


(** The first call for a key that is neither cached nor in flight
    starts a load and registers its promise. *)
Lemma first_model_call (w : World) (key : string) (t : nat) :
  gltfCache w !! key = None -> inflightGltfs w !! key = None ->
  microtasks w = [] ->
  step (Call t key true) w
  = set_inflight (<[key := nextPromise w]> (inflightGltfs w))
      (set_nextPromise (S (nextPromise w))
         (set_loads (<[nextPromise w := Pending [AwaitLoad (External t) key]]> (loads w))
            (log [LoadStarted "loadGLTF" key (nextPromise w)] w))).
Proof.
  intros Hcache Hinf Hq. unfold step, loadModel, GLTFCache.has.
  rewrite Hcache, Hinf.
  rewrite bool_decide_eq_false_2 by (by intros [? ?]).
  cbn -[drain]. apply drain_idle. exact Hq.
Qed.

(** A second call while the load is pending subscribes to the same
    promise and starts nothing. *)
Lemma second_model_call (w : World) (key : string) (t p : nat) ws :
  gltfCache w !! key = None -> inflightGltfs w !! key = Some p ->
  loads w !! p = Some (Pending ws) ->
  microtasks w = [] ->
  step (Call t key true) w
  = set_microtasks []
      (set_loads (<[p := Pending (ws ++ [AwaitInflight (External t) key])]> (loads w)) w).
Proof.
  intros Hcache Hinf Hp Hq. unfold step, loadModel, GLTFCache.has.
  rewrite Hcache, Hinf.
  rewrite bool_decide_eq_false_2 by (by intros [? ?]).
  unfold Promise.await. rewrite Hp. cbn -[drain].
  unfold enqueue. cbn -[drain]. rewrite Hq. cbn -[drain].
  apply drain_idle. reflexivity.
Qed.

Lemma drain_steps_S (fuel : nat) (w : World) t rest :
  microtasks w = t :: rest ->
  drain_steps (S fuel) w = drain_steps fuel (run_task t (set_microtasks rest w)).
Proof. intros Hq. cbn [drain_steps]. rewrite Hq. reflexivity. Qed.

Lemma drain_steps_done (fuel : nat) (w : World) :
  microtasks w = [] -> drain_steps fuel w = w.
Proof. intros Hq. destruct fuel; cbn [drain_steps]; [reflexivity|]. by rewrite Hq. Qed.

(** What [parsed] hands over: new objects of the same shape. *)
Lemma parsed_spec (g : GLTF) (w : World) :
  exists g',
    parsed g w = (g', set_nextOid (nextOid w + length (traverse (scene g))) w)
    /\ oids (scene g') = seq (nextOid w) (length (traverse (scene g)))
    /\ length (traverse (scene g')) = length (traverse (scene g))
    /\ gltf_animations g' = gltf_animations g
    /\ animations (scene g') = gltf_animations g.
Proof.
  destruct (allocate_spec (scene g) (nextOid w)) as (s & Hrun & Hoids & Hshape).
  unfold parsed. rewrite Hrun. eexists. split; [reflexivity|].
  assert (Htr : forall a, oid <$> traverse
                   (mkNode (oid s) (name s) (uuid s) (type s) (children s) (position s)
                      (rotation s) (quaternion s) (scale s) (matrix s)
                      (matrixAutoUpdate s) (userData s) a)
                 = oid <$> traverse s).
  { intros a. by rewrite !traverse_unfold. }
  cbn [scene gltf_animations animations]. unfold oids. rewrite Htr, Hoids.
  split; [reflexivity|]. split; [|done].
  rewrite <- (length_fmap oid), Htr, Hoids. apply length_seq.
Qed.

(** The load settles with both callers waiting: the initiator caches
    the asset, the waiter retains it, and each receives its own clone,
    made of the objects that follow those of the asset. *)
Lemma settle_two_model_waiters (w : World) (key : string) (t1 t2 p : nat) (g : GLTF) :
  loads w !! p = Some (Pending [AwaitLoad (External t1) key;
                                AwaitInflight (External t2) key]) ->
  microtasks w = [] ->
  exists w' g' c1 c2,
    step (Settle p (Fulfilled g)) w = w'
    /\ gltfCache w' !! key = Some {| GLTFCache.gltf := g'; GLTFCache.count := 2 |}
    /\ inflightGltfs w' = delete key (inflightGltfs w)
    /\ returned w' = returned w ++ [(t1, Fulfilled c1); (t2, Fulfilled c2)]
    /\ effects w' = effects w
    /\ microtasks w' = []
    /\ oids (scene g') = seq (nextOid w) (length (traverse (scene g)))
    /\ fresh_clone_of (nextOid w + length (traverse (scene g))) g' c1
    /\ fresh_clone_of (nextOid w + 2 * length (traverse (scene g))) g' c2.
Proof.
  intros Hp Hq.
  destruct (parsed_spec g w) as (g' & Hparsed & Hoids & Hlen & _).
  unfold step. rewrite Hp, Hparsed.
  unfold Promise.settle. cbn [loads set_nextOid]. rewrite Hp.
  cbn [fmap list_fmap]. unfold enqueue at 1. cbn [microtasks set_loads set_nextOid].
  rewrite Hq. cbn [app]. unfold drain.
  cbn [microtasks set_microtasks fmap list_fmap weight sum_list sum_list_with].
  change (id 2 + (id 2 + 0)) with 4.
  erewrite drain_steps_S by reflexivity. cbn [run_task].
  match goal with
  | |- context [resume_load (AwaitLoad ?k ?ky) (Fulfilled ?gg) ?W] =>
      destruct (resume_load_initiator W k ky gg) as (c1 & Heq1 & Hf1); rewrite Heq1;
      clear Heq1
  end.
  erewrite drain_steps_S by reflexivity. cbn [run_task].
  match goal with
  | |- context [resume_load (AwaitInflight ?k ?ky) (Fulfilled ?gg) ?W] =>
      edestruct (resume_load_inflight W k ky gg) as (c2 & Heq2 & Hf2);
        [ apply lookup_insert_eq | rewrite Heq2; clear Heq2 ]
  end.
  erewrite drain_steps_S by reflexivity. cbn [run_task].
  erewrite drain_steps_S by reflexivity. cbn [run_task].
  rewrite drain_steps_done by reflexivity.
  eexists _, g', c1, c2. split; [reflexivity|].
  cbn. split; [by rewrite lookup_insert_eq|].
  split; [reflexivity|].
  split; [by rewrite <- app_assoc|].
  split; [reflexivity|].
  split; [reflexivity|].
  split; [exact Hoids|].
  cbn in Hf1, Hf2. unfold enqueue in Hf2. cbn in Hf2. rewrite Hlen in Hf2.
  split; [exact Hf1|].
  match goal with
  | |- fresh_clone_of ?n _ _ =>
      replace n
        with (nextOid w + length (traverse (scene g)) + length (traverse (scene g)))
        by lia
  end.
  exact Hf2.
Qed.

End LoaderFacts.

(** ** Two requests for one key, end to end *)

Section TwoRequests.
Context `{Three.Math}.

Lemma two_image_requests (w : MediaImage.World) (k f : string) (c1 c2 : nat)
    (d1 d2 : MediaImage.Data) (tex : Texture) :
  k <> ""%string -> k <> "error"%string ->
  MediaImage.src d1 = k -> MediaImage.src d2 = k ->
  MediaImage.loader (MediaImage.contentType d1) = Some f ->
  c1 <> c2 ->
  Observe.ready (MediaImage.components w !! c1) ->
  Observe.ready (MediaImage.components w !! c2) ->
  MediaImage.textureCache w !! k = None ->
  MediaImage.inflightTextures w !! k = None ->
  MediaImage.microtasks w = [] ->
  exists w',
    MediaImage.run
      [MediaImage.SetData c1 d1; MediaImage.SetData c2 d2;
       MediaImage.Settle (MediaImage.nextPromise w) (Fulfilled tex)] w = w'
    /\ MediaImage.loads_started k (MediaImage.effects w')
       = S (MediaImage.loads_started k (MediaImage.effects w))
    /\ (exists item,
           MediaImage.textureCache w' !! k = Some item
           /\ TextureCache.texture item = tex
           /\ TextureCache.count item = 2%Z)
    /\ MediaImage.inflightTextures w' !! k = None
    /\ Observe.shows c1 tex w'
    /\ Observe.shows c2 tex w'.
Proof.
  intros Hne Herr Hs1 Hs2 Hf Hc Hc1 Hc2 Hcache Hinf Hq.
  destruct w as [tc inf ps np comps q es].
  cbn [MediaImage.components MediaImage.textureCache MediaImage.inflightTextures
       MediaImage.microtasks MediaImage.nextPromise MediaImage.effects] in *.
  subst q. unfold MediaImage.run. cbn [foldl].
  rewrite (first_image_request tc inf ps np comps es k f c1 d1) by done.
  rewrite (second_image_request _ _ _ _ _ _ k c2 np d2
             [MediaImage.AwaitLoad c1 k (MediaImage.data <$> comps !! c1)]);
    [| done | done | done | by rewrite lookup_insert_ne | done
     | by rewrite lookup_insert_eq | by rewrite lookup_insert_eq ].
  cbn [app]. rewrite (lookup_insert_ne comps c1 c2) by done.
  destruct (settle_two_image_waiters tc (<[k:=np]> inf)
              (<[np := Pending ([MediaImage.AwaitLoad c1 k (MediaImage.data <$> comps !! c1)]
                                  ++ [MediaImage.AwaitInflight c2 k
                                        (MediaImage.data <$> comps !! c2)])]>
                 (<[np := Pending [MediaImage.AwaitLoad c1 k
                                     (MediaImage.data <$> comps !! c1)]]> ps))
              (S np)
              (<[c2 := MediaImage.requested d2 (comps !! c2)]>
                 (<[c1 := MediaImage.requested d1 (comps !! c1)]> comps))
              (((es ++ [Emit c1 "image-loading"]) ++ [LoadStarted f k np])
                 ++ [Emit c2 "image-loading"])
              k c1 c2 np
              (MediaImage.requested d1 (comps !! c1))
              (MediaImage.requested d2 (comps !! c2))
              (MediaImage.data <$> comps !! c1) (MediaImage.data <$> comps !! c2) tex)
    as (w' & Hrun & Hinf' & Hitem & (es' & Hes & Hnone) & Hshow1 & Hshow2);
    [ by rewrite requested_data | by rewrite requested_data | exact Hc
    | by apply requested_attached | by apply requested_attached
    | by rewrite lookup_insert_ne, lookup_insert_eq
    | by rewrite lookup_insert_eq
    | by rewrite lookup_insert_eq
    | ].
  exists w'. split; [exact Hrun|].
  split.
  { rewrite Hes, !loads_started_app, Hnone. cbn.
    rewrite bool_decide_eq_true_2 by done. cbn. lia. }
  split; [exact Hitem|].
  split; [by rewrite Hinf', lookup_delete_eq|].
  split; assumption.
Qed.

Lemma two_model_requests (w : GltfModelPlus.World) (k : string) (t1 t2 : nat)
    (g : Three.GLTF) :
  GltfModelPlus.gltfCache w !! k = None ->
  GltfModelPlus.inflightGltfs w !! k = None ->
  GltfModelPlus.microtasks w = [] ->
  exists w' g' c1 c2,
    GltfModelPlus.run
      [GltfModelPlus.Call t1 k true; GltfModelPlus.Call t2 k true;
       GltfModelPlus.Settle (GltfModelPlus.nextPromise w) (Fulfilled g)] w = w'
    /\ GltfModelPlus.loads_started k (GltfModelPlus.effects w')
       = S (GltfModelPlus.loads_started k (GltfModelPlus.effects w))
    /\ GltfModelPlus.gltfCache w' !! k
       = Some {| GLTFCache.gltf := g'; GLTFCache.count := 2 |}
    /\ GltfModelPlus.inflightGltfs w' !! k = None
    /\ GltfModelPlus.returned w'
       = GltfModelPlus.returned w ++ [(t1, Fulfilled c1); (t2, Fulfilled c2)]
    /\ Three.oids (Three.scene g')
       = seq (GltfModelPlus.nextOid w) (length (Three.traverse (Three.scene g)))
    /\ GltfModelPlus.fresh_clone_of
         (GltfModelPlus.nextOid w + length (Three.traverse (Three.scene g))) g' c1
    /\ GltfModelPlus.fresh_clone_of
         (GltfModelPlus.nextOid w + 2 * length (Three.traverse (Three.scene g))) g' c2.
Proof.
  intros Hcache Hinf Hq.
  unfold GltfModelPlus.run. cbn [foldl].
  rewrite (first_model_call w k t1) by done.
  erewrite (second_model_call _ k t2 (GltfModelPlus.nextPromise w));
    [| exact Hcache | apply lookup_insert_eq | apply lookup_insert_eq | exact Hq ].
  edestruct (settle_two_model_waiters
               (GltfModelPlus.set_microtasks []
                  (GltfModelPlus.set_loads
                     (<[GltfModelPlus.nextPromise w :=
                          Pending ([GltfModelPlus.AwaitLoad (GltfModelPlus.External t1) k]
                                     ++ [GltfModelPlus.AwaitInflight
                                           (GltfModelPlus.External t2) k])]>
                        (<[GltfModelPlus.nextPromise w :=
                             Pending [GltfModelPlus.AwaitLoad
                                        (GltfModelPlus.External t1) k]]>
                           (GltfModelPlus.loads w)))
                     (GltfModelPlus.set_inflight
                        (<[k := GltfModelPlus.nextPromise w]>
                           (GltfModelPlus.inflightGltfs w))
                        (GltfModelPlus.set_nextPromise
                           (S (GltfModelPlus.nextPromise w))
                           (GltfModelPlus.set_loads
                              (<[GltfModelPlus.nextPromise w :=
                                   Pending [GltfModelPlus.AwaitLoad
                                              (GltfModelPlus.External t1) k]]>
                                 (GltfModelPlus.loads w))
                              (GltfModelPlus.log
                                 [LoadStarted "loadGLTF" k (GltfModelPlus.nextPromise w)]
                                 w))))))
               k t1 t2 (GltfModelPlus.nextPromise w) g)
    as (w' & g' & c1 & c2 & Hrun & Hitem & Hinf' & Hret & Hes & _ & Hoids & Hf1 & Hf2);
    [ apply lookup_insert_eq | reflexivity | ].
  exists w', g', c1, c2. split; [exact Hrun|].
  split.
  { rewrite Hes. cbn -[GltfModelPlus.loads_started].
    rewrite model_loads_started_app. cbn.
    rewrite bool_decide_eq_true_2 by done. cbn. lia. }
  split; [exact Hitem|].
  split; [by rewrite Hinf', lookup_delete_eq|].
  split; [exact Hret|]. split; [exact Hoids|]. split; assumption.
Qed.

(** Two requests for the reserved key: both components take the
    placeholder, and nothing is loaded or cached. *)
Lemma two_error_image_requests (w : MediaImage.World) (c1 c2 : nat)
    (d1 d2 : MediaImage.Data) :
  MediaImage.src d1 = "error"%string -> MediaImage.src d2 = "error"%string ->
  c1 <> c2 ->
  Observe.ready (MediaImage.components w !! c1) ->
  Observe.ready (MediaImage.components w !! c2) ->
  MediaImage.textureCache w !! "error"%string = None ->
  MediaImage.microtasks w = [] ->
  exists w',
    MediaImage.run [MediaImage.SetData c1 d1; MediaImage.SetData c2 d2] w = w'
    /\ (forall key, MediaImage.loads_started key (MediaImage.effects w')
                    = MediaImage.loads_started key (MediaImage.effects w))
    /\ MediaImage.textureCache w' = MediaImage.textureCache w
    /\ MediaImage.inflightTextures w' = MediaImage.inflightTextures w
    /\ Shown.image c1 w' = Some MediaImage.ErrorTexture
    /\ Shown.image c2 w' = Some MediaImage.ErrorTexture.
Proof.
  intros Hs1 Hs2 Hc Hc1 Hc2 Hcache Hq.
  destruct w as [tc inf ps np comps q es].
  cbn [MediaImage.components MediaImage.textureCache MediaImage.inflightTextures
       MediaImage.microtasks MediaImage.effects] in *.
  subst q. unfold MediaImage.run. cbn [foldl].
  destruct (error_image_request tc inf ps np comps es c1 d1 Hs1 Hc1 Hcache)
    as (comp1 & m1 & -> & Hm1 & Ht1).
  destruct (error_image_request tc inf ps np (<[c1 := comp1]> comps)
              (es ++ [Emit c1 "image-loading"; Emit c1 "image-loaded"]) c2 d2 Hs2)
    as (comp2 & m2 & -> & Hm2 & Ht2);
    [ by rewrite lookup_insert_ne | exact Hcache | ].
  eexists. split; [reflexivity|].
  cbn [MediaImage.effects MediaImage.textureCache MediaImage.inflightTextures].
  split.
  { intros key. rewrite !loads_started_app. cbn. lia. }
  split; [reflexivity|]. split; [reflexivity|].
  unfold Shown.image. cbn [MediaImage.components].
  rewrite lookup_insert_ne, !lookup_insert_eq, Hm1, Hm2 by done.
  split; assumption.
Qed.

End TwoRequests.

Section Claims.
Context `{Three.Math}.
Import Three.

(** C1 (as amended).  For every non-empty key other than the reserved
    key "error", requested by two image components with an image
    content type, and for every key passed twice to the model loader
    with caching: when the key is neither cached nor in flight, the two
    requests are made before the load settles and the load then
    succeeds, exactly one load computation has been started, the
    in-flight record is gone and the cache entry has reference count 2.
    Both image components display the one loaded texture.  The two
    callers of the model loader do not receive the cached asset: each
    receives a clone of it, and the clones share no object with the
    cached scene or with each other.  Two image components that ask for
    the key "error" while nothing is cached under it start no load and
    cache nothing: both display the error placeholder. *)
Theorem two_requests_share_one_load (k : string) :
  (forall (w : MediaImage.World) (f : string) (c1 c2 : nat)
          (d1 d2 : MediaImage.Data) (tex : Texture),
      k <> ""%string -> k <> "error"%string ->
      MediaImage.src d1 = k -> MediaImage.src d2 = k ->
      MediaImage.loader (MediaImage.contentType d1) = Some f ->
      c1 <> c2 ->
      Observe.ready (MediaImage.components w !! c1) ->
      Observe.ready (MediaImage.components w !! c2) ->
      MediaImage.textureCache w !! k = None ->
      MediaImage.inflightTextures w !! k = None ->
      MediaImage.microtasks w = [] ->
      exists w',
        MediaImage.run
          [MediaImage.SetData c1 d1; MediaImage.SetData c2 d2;
           MediaImage.Settle (MediaImage.nextPromise w) (Fulfilled tex)] w = w'
        /\ MediaImage.loads_started k (MediaImage.effects w')
           = S (MediaImage.loads_started k (MediaImage.effects w))
        /\ (exists item,
               MediaImage.textureCache w' !! k = Some item
               /\ TextureCache.texture item = tex
               /\ TextureCache.count item = 2%Z)
        /\ MediaImage.inflightTextures w' !! k = None
        /\ Observe.shows c1 tex w'
        /\ Observe.shows c2 tex w')
  /\ (forall (w : GltfModelPlus.World) (t1 t2 : nat) (g : GLTF),
         GltfModelPlus.gltfCache w !! k = None ->
         GltfModelPlus.inflightGltfs w !! k = None ->
         GltfModelPlus.microtasks w = [] ->
         exists w' g' c1 c2,
           GltfModelPlus.run
             [GltfModelPlus.Call t1 k true; GltfModelPlus.Call t2 k true;
              GltfModelPlus.Settle (GltfModelPlus.nextPromise w) (Fulfilled g)] w = w'
           /\ GltfModelPlus.loads_started k (GltfModelPlus.effects w')
              = S (GltfModelPlus.loads_started k (GltfModelPlus.effects w))
           /\ GltfModelPlus.gltfCache w' !! k
              = Some {| GLTFCache.gltf := g'; GLTFCache.count := 2 |}
           /\ GltfModelPlus.inflightGltfs w' !! k = None
           /\ GltfModelPlus.returned w'
              = GltfModelPlus.returned w ++ [(t1, Fulfilled c1); (t2, Fulfilled c2)]
           /\ oids (scene g')
              = seq (GltfModelPlus.nextOid w) (length (traverse (scene g)))
           /\ GltfModelPlus.fresh_clone_of
                (GltfModelPlus.nextOid w + length (traverse (scene g))) g' c1
           /\ GltfModelPlus.fresh_clone_of
                (GltfModelPlus.nextOid w + 2 * length (traverse (scene g))) g' c2
           /\ (forall o, o ∈ oids (scene c1) ->
                         (o ∉ oids (scene g')) /\ (o ∉ oids (scene c2)))
           /\ (forall o, o ∈ oids (scene c2) -> o ∉ oids (scene g')))
  /\ (forall (w : MediaImage.World) (c1 c2 : nat) (d1 d2 : MediaImage.Data),
         MediaImage.src d1 = "error"%string -> MediaImage.src d2 = "error"%string ->
         c1 <> c2 ->
         Observe.ready (MediaImage.components w !! c1) ->
         Observe.ready (MediaImage.components w !! c2) ->
         MediaImage.textureCache w !! "error"%string = None ->
         MediaImage.microtasks w = [] ->
         exists w',
           MediaImage.run [MediaImage.SetData c1 d1; MediaImage.SetData c2 d2] w = w'
           /\ (forall key, MediaImage.loads_started key (MediaImage.effects w')
                           = MediaImage.loads_started key (MediaImage.effects w))
           /\ MediaImage.textureCache w' = MediaImage.textureCache w
           /\ MediaImage.inflightTextures w' = MediaImage.inflightTextures w
           /\ Shown.image c1 w' = Some MediaImage.ErrorTexture
           /\ Shown.image c2 w' = Some MediaImage.ErrorTexture).
Proof.
  split; [|split].
  - intros w f c1 c2 d1 d2 tex. apply two_image_requests.
  - intros w t1 t2 g Hcache Hinf Hq.
    destruct (two_model_requests w k t1 t2 g Hcache Hinf Hq)
      as (w' & g' & c1 & c2 & Hrun & Hloads & Hitem & Hinf' & Hret & Hoids & Hf1 & Hf2).
    exists w', g', c1, c2.
    do 8 (split; [assumption|]).
    destruct Hf1 as (Ho1 & _). destruct Hf2 as (Ho2 & _).
    assert (Hlen : length (traverse (scene g')) = length (traverse (scene g))).
    { rewrite <- (length_fmap oid). fold (oids (scene g')).
      rewrite Hoids. apply length_seq. }
    rewrite Hlen in Ho1, Ho2.
    split.
    + intros o Ho. rewrite Ho1 in Ho. rewrite Hoids, Ho2, !elem_of_seq.
      apply elem_of_seq in Ho. lia.
    + intros o Ho. rewrite Ho2 in Ho. rewrite Hoids, !elem_of_seq.
      apply elem_of_seq in Ho. lia.
  - intros w c1 c2 d1 d2. apply two_error_image_requests.
Qed.

End Claims.

(** Two image components and two callers of the model loader, each pair
    asking for one uncached key, and two image components asking for
    the reserved key. *)
Lemma two_requests_share_one_load_witness :
  (exists w',
      MediaImage.run
        [MediaImage.SetData 1 (Example.image_data "a.png");
         MediaImage.SetData 2 (Example.image_data "a.png");
         MediaImage.Settle 0 (Fulfilled (Example.png 7))] MediaImage.empty = w'
      /\ MediaImage.loads_started "a.png" (MediaImage.effects w') = 1
      /\ (exists item,
             MediaImage.textureCache w' !! "a.png"%string = Some item
             /\ TextureCache.texture item = Example.png 7
             /\ TextureCache.count item = 2%Z)
      /\ MediaImage.inflightTextures w' !! "a.png"%string = None
      /\ Observe.shows 1 (Example.png 7) w'
      /\ Observe.shows 2 (Example.png 7) w')
  /\ (exists w' g' c1 c2,
         @GltfModelPlus.run Example.ZScalar Example.ZMath
           [GltfModelPlus.Call 1 "a.glb" true; GltfModelPlus.Call 2 "a.glb" true;
            GltfModelPlus.Settle 0 (Fulfilled Example.small_gltf)]
           GltfModelPlus.empty = w'
         /\ GltfModelPlus.loads_started "a.glb" (GltfModelPlus.effects w') = 1
         /\ GltfModelPlus.gltfCache w' !! "a.glb"%string
            = Some (@GLTFCache.Build_CacheItem Example.ZScalar Example.ZMath g' 2%Z)
         /\ GltfModelPlus.inflightGltfs w' !! "a.glb"%string = None
         /\ GltfModelPlus.returned w' = [(1, Fulfilled c1); (2, Fulfilled c2)]
         /\ Three.oids (Three.scene g') = [0; 1; 2]
         /\ GltfModelPlus.fresh_clone_of 3 g' c1
         /\ GltfModelPlus.fresh_clone_of 6 g' c2
         /\ (forall o, o ∈ Three.oids (Three.scene c1) ->
                       (o ∉ Three.oids (Three.scene g'))
                       /\ (o ∉ Three.oids (Three.scene c2)))
         /\ (forall o, o ∈ Three.oids (Three.scene c2) ->
                       o ∉ Three.oids (Three.scene g')))
  /\ (exists w',
         MediaImage.run
           [MediaImage.SetData 1 (Example.image_data "error");
            MediaImage.SetData 2 (Example.image_data "error")] MediaImage.empty = w'
         /\ (forall key, MediaImage.loads_started key (MediaImage.effects w') = 0)
         /\ MediaImage.textureCache w' = ∅
         /\ MediaImage.inflightTextures w' = ∅
         /\ Shown.image 1 w' = Some MediaImage.ErrorTexture
         /\ Shown.image 2 w' = Some MediaImage.ErrorTexture).
Proof.
  split; [|split].
  - apply (proj1 (@two_requests_share_one_load Example.ZScalar Example.ZMath "a.png")
             MediaImage.empty "createImageTexture" 1 2
             (Example.image_data "a.png") (Example.image_data "a.png") (Example.png 7));
      first [reflexivity | discriminate | lia | exact I].
  - apply (proj1 (proj2 (@two_requests_share_one_load Example.ZScalar Example.ZMath
                           "a.glb"))
             GltfModelPlus.empty 1 2 Example.small_gltf); reflexivity.
  - apply (proj2 (proj2 (@two_requests_share_one_load Example.ZScalar Example.ZMath
                           "a.glb"))
             MediaImage.empty 1 2
             (Example.image_data "error") (Example.image_data "error"));
      first [reflexivity | discriminate | lia | exact I].
Defined.

(** C1, counterexample.  The key "error" is neither cached nor in
    flight, and two image components request it: no load computation is
    started, nothing is cached under the key, and both components show
    the placeholder.  And two callers of the model loader that share
    one load do not observe one instance: the scenes they receive are
    made of objects 3 to 5 and 6 to 8, the cached scene of objects 0 to
    2. *)
Lemma reserved_key_starts_no_load :
  (MediaImage.textureCache MediaImage.empty !! "error"%string = None
   /\ MediaImage.inflightTextures MediaImage.empty !! "error"%string = None
   /\ MediaImage.loads_started "error" (MediaImage.effects Example.two_error_requests) = 0
   /\ MediaImage.textureCache Example.two_error_requests !! "error"%string = None
   /\ MediaImage.microtasks Example.two_error_requests = []
   /\ (MediaImage.material_map <$>
         (MediaImage.components Example.two_error_requests !! 1 ≫= MediaImage.mesh))
      = Some (Some MediaImage.ErrorTexture)
   /\ (MediaImage.material_map <$>
         (MediaImage.components Example.two_error_requests !! 2 ≫= MediaImage.mesh))
      = Some (Some MediaImage.ErrorTexture))
  /\ (Observe.returned_objects Example.two_model_calls = [(1, [3; 4; 5]); (2, [6; 7; 8])]
      /\ Observe.cached_objects "a.glb" Example.two_model_calls = Some [0; 1; 2]).
Proof.
  repeat split; vm_compute; reflexivity.
Qed.

(** * Further properties of the code *)

(** ** Reference counts over sequences of calls *)

Section CountFacts.
Context `{Three.Math}.

Lemma texture_with_count_id (item : TextureCache.CacheItem) (c : Z) :
  c = TextureCache.count item -> TextureCache.with_count item c = item.
Proof. intros ->. by destruct item. Qed.

Lemma gltf_with_count_id (item : GLTFCache.CacheItem) (c : Z) :
  c = GLTFCache.count item -> GLTFCache.with_count item c = item.
Proof. intros ->. by destruct item. Qed.

(** [n] retains of a present key succeed and add [n] to its count. *)
Lemma texture_retains_spec (n : nat) (k : string) :
  forall (cache : gmap string TextureCache.CacheItem) item,
    cache !! k = Some item ->
    Uses.texture_retains n k cache
    = Some (<[k := TextureCache.with_count item (TextureCache.count item + Z.of_nat n)]> cache).
Proof.
  induction n as [|n IH]; intros cache item Hk.
  - simpl. f_equal. rewrite texture_with_count_id by lia. by rewrite insert_id.
  - simpl. unfold TextureCache.retain. rewrite Hk.
    rewrite (IH _ (TextureCache.with_count item (TextureCache.count item + 1)))
      by apply lookup_insert_eq.
    f_equal. rewrite insert_insert_eq. f_equal.
    unfold TextureCache.with_count. simpl. f_equal. lia.
Qed.

(** [n] releases of a key whose count is above [n] dispose nothing and
    take [n] off its count. *)
Lemma texture_releases_spec (n : nat) (k : string) :
  forall (cache : gmap string TextureCache.CacheItem) item,
    cache !! k = Some item ->
    (Z.of_nat n < TextureCache.count item)%Z ->
    Uses.texture_releases n k cache
    = (<[k := TextureCache.with_count item (TextureCache.count item - Z.of_nat n)]> cache, []).
Proof.
  induction n as [|n IH]; intros cache item Hk Hn.
  - simpl. f_equal. rewrite texture_with_count_id by lia. by rewrite insert_id.
  - simpl. unfold TextureCache.release. rewrite Hk. simpl.
    destruct (Z.leb_spec (TextureCache.count item - 1) 0); [lia|].
    rewrite (IH _ (TextureCache.with_count item (TextureCache.count item - 1)))
      by (first [apply lookup_insert_eq | simpl; lia]).
    f_equal. rewrite insert_insert_eq. f_equal.
    unfold TextureCache.with_count. simpl. f_equal. lia.
Qed.

Lemma gltf_retains_spec (n : nat) (k : string) :
  forall (cache : gmap string GLTFCache.CacheItem) item,
    cache !! k = Some item ->
    Uses.gltf_retains n k cache
    = Some (<[k := GLTFCache.with_count item (GLTFCache.count item + Z.of_nat n)]> cache).
Proof.
  induction n as [|n IH]; intros cache item Hk.
  - simpl. f_equal. rewrite gltf_with_count_id by lia. by rewrite insert_id.
  - simpl. unfold GLTFCache.retain. rewrite Hk.
    rewrite (IH _ (GLTFCache.with_count item (GLTFCache.count item + 1)))
      by apply lookup_insert_eq.
    f_equal. rewrite insert_insert_eq. f_equal.
    unfold GLTFCache.with_count. simpl. f_equal. lia.
Qed.

Lemma gltf_releases_spec (n : nat) (k : string) :
  forall (cache : gmap string GLTFCache.CacheItem) item,
    cache !! k = Some item ->
    (Z.of_nat n < GLTFCache.count item)%Z ->
    Uses.gltf_releases n k cache
    = (<[k := GLTFCache.with_count item (GLTFCache.count item - Z.of_nat n)]> cache, []).
Proof.
  induction n as [|n IH]; intros cache item Hk Hn.
  - simpl. f_equal. rewrite gltf_with_count_id by lia. by rewrite insert_id.
  - simpl. unfold GLTFCache.release. rewrite Hk. simpl.
    destruct (Z.leb_spec (GLTFCache.count item - 1) 0); [lia|].
    rewrite (IH _ (GLTFCache.with_count item (GLTFCache.count item - 1)))
      by (first [apply lookup_insert_eq | simpl; lia]).
    f_equal. rewrite insert_insert_eq. f_equal.
    unfold GLTFCache.with_count. simpl. f_equal. lia.
Qed.

Lemma texture_releases_last (n : nat) (k : string) :
  forall (cache : gmap string TextureCache.CacheItem) c1 es c2 es',
    Uses.texture_releases n k cache = (c1, es) ->
    TextureCache.release k c1 = (c2, es') ->
    Uses.texture_releases (S n) k cache = (c2, es ++ es').
Proof.
  induction n as [|n IH]; intros cache c1 es c2 es' Hn Hlast.
  - simpl in Hn. injection Hn as <- <-. simpl. rewrite Hlast. by rewrite app_nil_r.
  - cbn [Uses.texture_releases] in Hn.
    destruct (TextureCache.release k cache) as [ca ea] eqn:Hfirst.
    destruct (Uses.texture_releases n k ca) as [cb eb] eqn:Hrest.
    injection Hn as <- <-.
    change (Uses.texture_releases (S (S n)) k cache)
      with (let '(cache', es) := TextureCache.release k cache in
            let '(cache'', es') := Uses.texture_releases (S n) k cache' in
            (cache'', es ++ es')).
    rewrite Hfirst, (IH ca cb eb c2 es' Hrest Hlast). by rewrite app_assoc.
Qed.

Lemma gltf_releases_last (n : nat) (k : string) :
  forall (cache : gmap string GLTFCache.CacheItem) c1 es c2 es',
    Uses.gltf_releases n k cache = (c1, es) ->
    GLTFCache.release k c1 = (c2, es') ->
    Uses.gltf_releases (S n) k cache = (c2, es ++ es').
Proof.
  induction n as [|n IH]; intros cache c1 es c2 es' Hn Hlast.
  - simpl in Hn. injection Hn as <- <-. simpl. rewrite Hlast. by rewrite app_nil_r.
  - cbn [Uses.gltf_releases] in Hn.
    destruct (GLTFCache.release k cache) as [ca ea] eqn:Hfirst.
    destruct (Uses.gltf_releases n k ca) as [cb eb] eqn:Hrest.
    injection Hn as <- <-.
    change (Uses.gltf_releases (S (S n)) k cache)
      with (let '(cache', es) := GLTFCache.release k cache in
            let '(cache'', es') := Uses.gltf_releases (S n) k cache' in
            (cache'', es ++ es')).
    rewrite Hfirst, (IH ca cb eb c2 es' Hrest Hlast). by rewrite app_assoc.
Qed.

Lemma texture_balance (k : string) (n : nat)
    (cache : gmap string TextureCache.CacheItem) item :
  cache !! k = Some item ->
  (0 < TextureCache.count item)%Z ->
  exists held,
    Uses.texture_retains n k cache = Some held
    /\ (TextureCache.count <$> held !! k) = Some (TextureCache.count item + Z.of_nat n)%Z
    /\ Uses.texture_releases n k held = (cache, []).
Proof.
  intros Hk Hpos. eexists.
  split; [by apply texture_retains_spec|].
  split; [by rewrite lookup_insert_eq|].
  erewrite texture_releases_spec; [|apply lookup_insert_eq | simpl; lia].
  f_equal. rewrite insert_insert_eq. simpl.
  rewrite <- (insert_id cache k item) at 2 by done. f_equal.
  destruct item; unfold TextureCache.with_count; simpl; f_equal; lia.
Qed.

Lemma gltf_balance (k : string) (n : nat)
    (cache : gmap string GLTFCache.CacheItem) item :
  cache !! k = Some item ->
  (0 < GLTFCache.count item)%Z ->
  exists held,
    Uses.gltf_retains n k cache = Some held
    /\ (GLTFCache.count <$> held !! k) = Some (GLTFCache.count item + Z.of_nat n)%Z
    /\ Uses.gltf_releases n k held = (cache, []).
Proof.
  intros Hk Hpos. eexists.
  split; [by apply gltf_retains_spec|].
  split; [by rewrite lookup_insert_eq|].
  erewrite gltf_releases_spec; [|apply lookup_insert_eq | simpl; lia].
  f_equal. rewrite insert_insert_eq. simpl.
  rewrite <- (insert_id cache k item) at 2 by done. f_equal.
  destruct item; unfold GLTFCache.with_count; simpl; f_equal; lia.
Qed.

(** X1.  Retains and releases balance.  On an entry that is held at
    least once, [n] retains followed by [n] releases give back the very
    table they started from and dispose nothing, in the texture cache
    and in the glTF cache alike. *)
Theorem retains_and_releases_balance (k : string) (n : nat) :
  (forall (cache : gmap string TextureCache.CacheItem) item,
      cache !! k = Some item ->
      (0 < TextureCache.count item)%Z ->
      exists held,
        Uses.texture_retains n k cache = Some held
        /\ (TextureCache.count <$> held !! k)
           = Some (TextureCache.count item + Z.of_nat n)%Z
        /\ Uses.texture_releases n k held = (cache, []))
  /\ (forall (cache : gmap string GLTFCache.CacheItem) item,
         cache !! k = Some item ->
         (0 < GLTFCache.count item)%Z ->
         exists held,
           Uses.gltf_retains n k cache = Some held
           /\ (GLTFCache.count <$> held !! k)
              = Some (GLTFCache.count item + Z.of_nat n)%Z
           /\ Uses.gltf_releases n k held = (cache, [])).
Proof.
  split; intros cache item Hk Hpos.
  - by apply texture_balance.
  - by apply gltf_balance.
Qed.

(** X2.  The life of an entry.  A key that is absent is set, retained
    [n] more times and released [n + 1] times: the first [n] releases
    dispose nothing, the last one runs the disposal routine once, and
    the table is again the one before [set]. *)
Theorem entry_lives_until_last_release (k : string) (n : nat) :
  (forall (cache : gmap string TextureCache.CacheItem) (tex : Texture),
      cache !! k = None ->
      exists c1 item held,
        TextureCache.set k tex cache = Some (c1, item)
        /\ TextureCache.texture item = tex
        /\ TextureCache.count item = 1%Z
        /\ Uses.texture_retains n k c1 = Some held
        /\ Uses.texture_releases n k held = (c1, [])
        /\ Uses.texture_releases (S n) k held = (cache, disposeTexture tex))
  /\ (forall (cache : gmap string GLTFCache.CacheItem) (g : Three.GLTF),
         cache !! k = None ->
         exists c1 item held,
           GLTFCache.set k g cache = Some (c1, item)
           /\ GLTFCache.gltf item = g
           /\ GLTFCache.count item = 1%Z
           /\ Uses.gltf_retains n k c1 = Some held
           /\ Uses.gltf_releases n k held = (c1, [])
           /\ Uses.gltf_releases (S n) k held = (cache, GLTFCache.dispose g)).
Proof.
  split.
  - intros cache tex Hk.
    set (item0 := {| TextureCache.texture := tex;
                     TextureCache.ratio :=
                       (JS.num_or (videoHeight (image tex)) (height (image tex)),
                        JS.num_or (videoWidth (image tex)) (width (image tex)));
                     TextureCache.count := 0 |}).
    set (item1 := TextureCache.with_count item0 1).
    set (c1 := <[k := item1]> (<[k := item0]> cache)).
    assert (Hc1 : c1 !! k = Some item1) by apply lookup_insert_eq.
    destruct (texture_balance k n c1 item1 Hc1 ltac:(simpl; lia))
      as (held & Hret & _ & Hrel).
    assert (Hlast : TextureCache.release k c1 = (cache, disposeTexture tex)).
    { rewrite (texture_release_last k c1 item1) by done.
      f_equal. unfold c1. rewrite insert_insert_eq, delete_insert_eq.
      by apply delete_id. }
    exists c1, item1, held.
    split. { unfold TextureCache.set, TextureCache.retain. by rewrite lookup_insert_eq. }
    repeat split; try done.
    by rewrite (texture_releases_last n k held c1 [] cache (disposeTexture tex)).
  - intros cache g Hk.
    set (item0 := {| GLTFCache.gltf := g; GLTFCache.count := 0 |}).
    set (item1 := GLTFCache.with_count item0 1).
    set (c1 := <[k := item1]> (<[k := item0]> cache)).
    assert (Hc1 : c1 !! k = Some item1) by apply lookup_insert_eq.
    destruct (gltf_balance k n c1 item1 Hc1 ltac:(simpl; lia))
      as (held & Hret & _ & Hrel).
    assert (Hlast : GLTFCache.release k c1 = (cache, GLTFCache.dispose g)).
    { rewrite (gltf_release_last k c1 item1) by done.
      f_equal. unfold c1. rewrite insert_insert_eq, delete_insert_eq.
      by apply delete_id. }
    exists c1, item1, held.
    split. { unfold GLTFCache.set, GLTFCache.retain. by rewrite lookup_insert_eq. }
    repeat split; try done.
    by rewrite (gltf_releases_last n k held c1 [] cache (GLTFCache.dispose g)).
Qed.

End CountFacts.

(** Three more holders of the cached stream come and go; a still image
    is loaded, held three times in all and let go. *)
Lemma retains_and_releases_balance_witness :
  exists held,
    Uses.texture_retains 3 "live.m3u8" Example.one_video = Some held
    /\ (TextureCache.count <$> held !! "live.m3u8"%string) = Some 4%Z
    /\ Uses.texture_releases 3 "live.m3u8" held = (Example.one_video, []).
Proof.
  pose proof (@retains_and_releases_balance
                Example.ZScalar Example.ZMath "live.m3u8" 3) as [Htex _].
  apply (Htex Example.one_video
           {| TextureCache.texture := Example.stream 4;
              TextureCache.ratio := (720, 1280)%Z;
              TextureCache.count := 1 |}).
  - reflexivity.
  - reflexivity.
Defined.

Lemma entry_lives_until_last_release_witness :
  exists c1 item held,
    TextureCache.set "a.png" (Example.png 7) Example.one_video = Some (c1, item)
    /\ TextureCache.texture item = Example.png 7
    /\ TextureCache.count item = 1%Z
    /\ Uses.texture_retains 2 "a.png" c1 = Some held
    /\ Uses.texture_releases 2 "a.png" held = (c1, [])
    /\ Uses.texture_releases 3 "a.png" held
       = (Example.one_video, [TextureDispose 7]).
Proof.
  pose proof (@entry_lives_until_last_release
                Example.ZScalar Example.ZMath "a.png" 2) as [Htex _].
  apply (Htex Example.one_video (Example.png 7)). reflexivity.
Defined.

(** ** The animated image over many updates *)

Section GIFRuns.
Import GIFTexture.

Lemma update_keeps_frame_in_range (g : t) (now : Z) fs i :
  frames g = Some fs -> frame g = Some i ->
  (0 <= i < Z.of_nat (length fs))%Z ->
  frames (update now g) = Some fs
  /\ (exists j, frame (update now g) = Some j /\ (0 <= j < Z.of_nat (length fs))%Z)
  /\ exists ops, ctx (update now g) = ctx g ++ ops /\ Forall Uses.paints_a_frame ops.
Proof.
  intros Hf Hi Hrange. unfold update. rewrite Hf.
  assert (Hstay : frames g = Some fs
                  /\ (exists j, frame g = Some j /\ (0 <= j < Z.of_nat (length fs))%Z)
                  /\ exists ops, ctx g = ctx g ++ ops /\ Forall Uses.paints_a_frame ops).
  { split; [done|]. split; [eauto|]. exists []. by rewrite app_nil_r. }
  destruct (delays g) as [ds|]; [|exact Hstay].
  destruct (disposals g) as [dps|]; [|exact Hstay].
  destruct (JS.gt_maybe _ _); [|exact Hstay].
  cbn [frames frame ctx]. rewrite Hi. cbn [fmap option_fmap option_map JS.rem].
  destruct (Z.eqb_spec (Z.of_nat (length fs)) 0) as [Hz|Hz]; [lia|].
  assert (Hj : (0 <= Z.succ i `rem` Z.of_nat (length fs) < Z.of_nat (length fs))%Z)
    by (apply Z.rem_bound_pos; lia).
  split; [done|]. split; [eauto|].
  eexists. split; [reflexivity|].
  apply Forall_app. split.
  - destruct (bool_decide _); repeat constructor.
  - constructor; [|constructor]. unfold Uses.paints_a_frame.
    rewrite index_nonneg by lia.
    apply lookup_lt_is_Some. lia.
Qed.

(** X3.  However many updates run and whenever they run, the frame
    index of an animated image stays a valid index into its frames, the
    frames themselves are kept, and every image the updates paint on
    the canvas is one of the frames (never an undefined one). *)
Theorem frame_index_stays_in_range (g : t) (nows : list Z) fs i :
  frames g = Some fs -> frame g = Some i ->
  (0 <= i < Z.of_nat (length fs))%Z ->
  frames (Uses.gif_updates nows g) = Some fs
  /\ (exists j, frame (Uses.gif_updates nows g) = Some j
                /\ (0 <= j < Z.of_nat (length fs))%Z)
  /\ exists ops, ctx (Uses.gif_updates nows g) = ctx g ++ ops
                 /\ Forall Uses.paints_a_frame ops.
Proof.
  revert g i. induction nows as [|now nows IH]; intros g i Hf Hi Hrange.
  - split; [done|]. split; [eauto|]. exists []. by rewrite app_nil_r.
  - destruct (update_keeps_frame_in_range g now fs i Hf Hi Hrange)
      as (Hf1 & (j & Hj & Hjr) & ops1 & Hops1 & Hall1).
    destruct (IH (update now g) j Hf1 Hj Hjr) as (Hf2 & Hj2 & ops2 & Hops2 & Hall2).
    split; [exact Hf2|]. split; [exact Hj2|].
    exists (ops1 ++ ops2). split.
    + change (Uses.gif_updates (now :: nows) g)
        with (Uses.gif_updates nows (update now g)).
      by rewrite Hops2, Hops1, app_assoc.
    + by apply Forall_app.
Qed.

End GIFRuns.

(** The portrait image updated five times: early, late, twice at the
    same instant, and much later. *)
Lemma frame_index_stays_in_range_witness :
  GIFTexture.frames (Uses.gif_updates [50; 250; 400; 400; 9000]%Z Example.portrait_gif)
  = Some Example.two_frames
  /\ (exists j, GIFTexture.frame
                  (Uses.gif_updates [50; 250; 400; 400; 9000]%Z Example.portrait_gif)
                = Some j /\ (0 <= j < 2)%Z)
  /\ exists ops,
      GIFTexture.ctx (Uses.gif_updates [50; 250; 400; 400; 9000]%Z Example.portrait_gif)
      = [] ++ ops
      /\ Forall Uses.paints_a_frame ops.
Proof.
  apply (frame_index_stays_in_range Example.portrait_gif
           [50; 250; 400; 400; 9000]%Z Example.two_frames 0%Z);
    first [reflexivity | (simpl; lia)].
Defined.

(** ** The image component over whole runs *)

Section ImageRuns.
Import MediaImage.

Lemma texture_disposals_app id es1 es2 :
  Observe.texture_disposals id (es1 ++ es2)
  = Observe.texture_disposals id es1 + Observe.texture_disposals id es2.
Proof. unfold Observe.texture_disposals. by rewrite List.filter_app, length_app. Qed.

Lemma quiet_no_disposal id es :
  Forall Shown.quiet es -> Observe.texture_disposals id es = 0.
Proof.
  induction 1 as [|e es He _ IH]; [reflexivity|].
  change (e :: es) with ([e] ++ es). rewrite texture_disposals_app, IH.
  by destruct e.
Qed.

Lemma quiet_no_load key es :
  Forall Shown.quiet es -> loads_started key es = 0.
Proof.
  induction 1 as [|e es He _ IH]; [reflexivity|].
  change (e :: es) with ([e] ++ es). rewrite loads_started_app, IH.
  by destruct e.
Qed.

Lemma announce_quiet c comp tex : Forall Shown.quiet (announce c comp tex).
Proof.
  unfold announce. destruct (negb (is_error tex) && batch (data comp));
    repeat constructor.
Qed.

(** Removing the entity of a component whose source is not cached
    touches neither the cache nor a texture. *)
Lemma detach_image_uncached tc inf ps np comps es (c : nat) (comp : Component) :
  comps !! c = Some comp -> tc !! src (data comp) = None ->
  exists comp' es',
    step (Detach c)
      {| textureCache := tc; inflightTextures := inf; promises := ps; nextPromise := np;
         components := comps; microtasks := []; effects := es |}
    = {| textureCache := tc; inflightTextures := inf; promises := ps; nextPromise := np;
         components := <[c := comp']> comps; microtasks := []; effects := es ++ es' |}
    /\ parentNode comp' = false /\ data comp' = data comp
    /\ Forall Shown.quiet es'.
Proof.
  intros Hc Hk.
  exists (if currentSrcIsRetained comp
          then with_retained false (with_parentNode false comp)
          else with_parentNode false comp),
         (match mesh comp with
          | Some _ => if batch (data comp) then [BatchRemove c] else []
          | None => []
          end
          ++ if currentSrcIsRetained comp
             then [ConsoleError ("Releasing uncached texture src " ++ src (data comp))]
             else []).
  split.
  - unfold step. cbn [components]. rewrite Hc.
    unfold remove. cbn -[release]. rewrite lookup_insert_eq. cbn -[release].
    destruct (currentSrcIsRetained comp) eqn:Hret.
    + unfold release, TextureCache.release.
      destruct (mesh comp) as [m|]; [destruct (batch (data comp))|];
        cbn; rewrite Hk; cbn; rewrite lookup_insert_eq; cbn;
        unfold drain, set_microtasks, set_component, log, set_cache; cbn;
        rewrite insert_insert_eq, <- ?app_assoc; reflexivity.
    + destruct (mesh comp) as [m|]; [destruct (batch (data comp))|];
        unfold drain, set_microtasks, set_component, log, set_cache; cbn;
        rewrite ?app_nil_r; reflexivity.
  - destruct (currentSrcIsRetained comp), (mesh comp) as [m|];
      try destruct (batch (data comp)); repeat split; repeat constructor.
Qed.

(** The initiator resumes after its component went stale: the texture
    it has just cached is released, which disposes it. *)
Lemma resume_image_load_stale tc inf ps np comps q es (k : string) (c : nat)
    (comp : Component) old (tex : Texture) :
  comps !! c = Some comp -> parentNode comp = false -> tc !! k = None ->
  resume (AwaitLoad c k old, Fulfilled tex)
    {| textureCache := tc; inflightTextures := inf; promises := ps; nextPromise := np;
       components := comps; microtasks := q; effects := es |}
  = {| textureCache := tc; inflightTextures := delete k inf; promises := ps;
       nextPromise := np; components := comps; microtasks := q;
       effects := es ++ disposeTexture tex |}.
Proof.
  intros Hc Hp Hk.
  unfold resume. cbn -[checked_item].
  unfold TextureCache.set, TextureCache.retain. rewrite lookup_insert_eq.
  cbn -[checked_item].
  unfold checked_item, stale. cbn -[on_item release]. rewrite Hc, Hp.
  rewrite orb_true_r.
  unfold release, TextureCache.release. cbn. rewrite lookup_insert_eq. cbn.
  rewrite !delete_insert_eq, delete_id by done. reflexivity.
Qed.

(** A waiter resumes and finds nothing cached: [retain] throws and the
    component falls back to the placeholder. *)
Lemma resume_image_inflight_lost tc inf ps np comps q es (k : string) (c : nat)
    (comp : Component) old (tex : Texture) :
  comps !! c = Some comp -> tc !! k = None ->
  resume (AwaitInflight c k old, Fulfilled tex)
    {| textureCache := tc; inflightTextures := inf; promises := ps; nextPromise := np;
       components := comps; microtasks := q; effects := es |}
  = let comp' := with_retained false comp in
    {| textureCache := tc; inflightTextures := inf; promises := ps; nextPromise := np;
       components := <[c := render comp' old ErrorTexture errorRatio]> (<[c := comp']> comps);
       microtasks := q;
       effects := (es ++ [ConsoleError ("Error loading image " ++ src (data comp))])
                    ++ announce c comp' ErrorTexture |}.
Proof.
  intros Hc Hk.
  unfold resume. cbn -[on_error].
  unfold TextureCache.retain. rewrite Hk.
  unfold on_error. cbn -[after_try]. rewrite Hc.
  unfold after_try. cbn -[render announce]. rewrite lookup_insert_eq.
  reflexivity.
Qed.

(** X4.  A stale initiator spoils the load for a waiter.  Two
    components ask for an uncached key and share one load; the entity
    of the one that started the load is removed before the load
    succeeds.  When it does, the initiator caches the texture and
    releases it at once, which disposes it; the waiter then finds
    nothing to retain: it logs an error and shows the placeholder
    although the load succeeded.  Nothing stays cached or in flight. *)
Theorem stale_initiator_spoils_waiter (w : World) (k f : string) (c1 c2 : nat)
    (d1 d2 : Data) (tex : Texture) :
  k <> ""%string -> k <> "error"%string ->
  src d1 = k -> src d2 = k ->
  loader (contentType d1) = Some f ->
  c1 <> c2 ->
  Observe.ready (components w !! c1) ->
  Observe.ready (components w !! c2) ->
  textureCache w !! k = None ->
  inflightTextures w !! k = None ->
  microtasks w = [] ->
  exists w' es',
    run [SetData c1 d1; SetData c2 d2; Detach c1;
         Settle (nextPromise w) (Fulfilled tex)] w = w'
    /\ textureCache w' = textureCache w
    /\ inflightTextures w' = inflightTextures w
    /\ microtasks w' = []
    /\ effects w' = effects w ++ es'
    /\ loads_started k es' = 1
    /\ Observe.texture_disposals (texture_id tex) es' = 1
    /\ ConsoleError ("Error loading image " ++ k) ∈ es'
    /\ Shown.image c2 w' = Some ErrorTexture
    /\ Shown.retained c2 w' = Some false.
Proof.
  intros Hne Herr Hs1 Hs2 Hf Hc Hc1 Hc2 Hcache Hinf Hq.
  destruct w as [tc inf ps np comps q es].
  cbn [components textureCache inflightTextures microtasks nextPromise effects] in *.
  subst q. unfold run. cbn [foldl].
  rewrite (first_image_request tc inf ps np comps es k f c1 d1) by done.
  rewrite (second_image_request _ _ _ _ _ _ k c2 np d2
             [AwaitLoad c1 k (data <$> comps !! c1)]);
    [| done | done | done | by rewrite lookup_insert_ne | done
     | by rewrite lookup_insert_eq | by rewrite lookup_insert_eq ].
  cbn [app]. rewrite (lookup_insert_ne comps c1 c2) by done.
  edestruct (detach_image_uncached tc (<[k:=np]> inf)) as (comp1 & esd & -> & Hp1 & Hd1 & Hquiet);
    [ by rewrite lookup_insert_ne, lookup_insert_eq
    | by rewrite requested_data, Hs1 |].
  unfold step, Promise.settle. cbn [promises]. rewrite lookup_insert_eq.
  cbn -[resume]. unfold drain. cbn -[resume].
  unfold set_microtasks, set_promises. cbn -[resume].
  rewrite (resume_image_load_stale _ _ _ _ _ _ _ k c1 comp1);
    [| by rewrite lookup_insert_eq | done | done].
  rewrite (resume_image_inflight_lost _ _ _ _ _ _ _ k c2 (requested d2 (comps !! c2)));
    [| by rewrite lookup_insert_ne, lookup_insert_eq by done | done].
  cbn zeta. rewrite requested_data, Hs2.
  eexists _, _. split; [reflexivity|].
  cbn [textureCache inflightTextures microtasks effects].
  split; [reflexivity|].
  split; [by rewrite delete_insert_eq, delete_id|].
  split; [reflexivity|].
  split. { rewrite <- !app_assoc. reflexivity. }
  split.
  { rewrite !loads_started_app, (quiet_no_load k esd) by done.
    rewrite (quiet_no_load k (announce _ _ _)) by apply announce_quiet.
    assert (loads_started k (disposeTexture tex) = 0) as ->.
    { unfold disposeTexture. rewrite !loads_started_app.
      destruct (isHTMLVideoElement (image tex)), (hls tex); reflexivity. }
    cbn. rewrite bool_decide_eq_true_2 by done. reflexivity. }
  split.
  { rewrite !texture_disposals_app, (quiet_no_disposal _ esd) by done.
    rewrite (quiet_no_disposal _ (announce _ _ _)) by apply announce_quiet.
    rewrite disposeTexture_once. reflexivity. }
  split.
  { rewrite !elem_of_app, !elem_of_cons. tauto. }
  unfold Shown.image, Shown.retained. cbn [components].
  rewrite !lookup_insert_eq. split; reflexivity.
Qed.

(** Removing the entity of the last holder of a cached source disposes
    the texture. *)
Lemma detach_image_last tc inf ps np comps es (c : nat) (comp : Component) item :
  comps !! c = Some comp -> currentSrcIsRetained comp = true ->
  tc !! src (data comp) = Some item -> TextureCache.count item = 1%Z ->
  step (Detach c)
    {| textureCache := tc; inflightTextures := inf; promises := ps; nextPromise := np;
       components := comps; microtasks := []; effects := es |}
  = {| textureCache := delete (src (data comp)) tc; inflightTextures := inf;
       promises := ps; nextPromise := np;
       components := <[c := with_retained false (with_parentNode false comp)]> comps;
       microtasks := [];
       effects := es ++ (match mesh comp with
                         | Some _ => if batch (data comp) then [BatchRemove c] else []
                         | None => []
                         end ++ disposeTexture (TextureCache.texture item)) |}.
Proof.
  intros Hc Hret Hk Hone.
  unfold step. cbn [components]. rewrite Hc.
  unfold remove. cbn -[release]. rewrite lookup_insert_eq. cbn -[release].
  rewrite Hret. unfold release, TextureCache.release.
  destruct (mesh comp) as [m|]; [destruct (batch (data comp))|];
    cbn; rewrite Hk; cbn; rewrite Hone; change (1 - 1 <=? 0)%Z with true;
    cbn; rewrite lookup_insert_eq; cbn;
    unfold drain, set_microtasks, set_component, log, set_cache; cbn;
    rewrite insert_insert_eq, <- ?app_assoc; reflexivity.
Qed.

Lemma disposeTexture_no_load key tex : loads_started key (disposeTexture tex) = 0.
Proof.
  unfold disposeTexture. rewrite !loads_started_app.
  destruct (isHTMLVideoElement (image tex)), (hls tex); reflexivity.
Qed.

(** X5.  An image is loaded and its only holder removed.  The load
    caches the texture with count 1 and the component shows it; the
    removal releases it, which disposes the texture once and leaves the
    cache and the in-flight registry as they were before the request. *)
Theorem image_load_then_remove_restores (w : World) (k f : string) (c : nat)
    (d : Data) (tex : Texture) :
  k <> ""%string -> k <> "error"%string -> src d = k ->
  loader (contentType d) = Some f ->
  Observe.ready (components w !! c) ->
  textureCache w !! k = None ->
  inflightTextures w !! k = None ->
  microtasks w = [] ->
  exists w1 w2 es',
    run [SetData c d; Settle (nextPromise w) (Fulfilled tex)] w = w1
    /\ Shown.count k w1 = 1%Z
    /\ Shown.image c w1 = Some (Loaded tex)
    /\ Shown.retained c w1 = Some true
    /\ step (Detach c) w1 = w2
    /\ textureCache w2 = textureCache w
    /\ inflightTextures w2 = inflightTextures w
    /\ Shown.retained c w2 = Some false
    /\ effects w2 = effects w ++ es'
    /\ loads_started k es' = 1
    /\ Observe.texture_disposals (texture_id tex) es' = 1.
Proof.
  intros Hne Herr Hs Hf Hready Hcache Hinf Hq.
  destruct w as [tc inf ps np comps q es].
  cbn [components textureCache inflightTextures microtasks nextPromise effects] in *.
  subst q.
  set (item := {| TextureCache.texture := tex;
                  TextureCache.ratio :=
                    (JS.num_or (videoHeight (image tex)) (height (image tex)),
                     JS.num_or (videoWidth (image tex)) (width (image tex)));
                  TextureCache.count := 1 |}).
  set (comp0 := with_retained true (requested d (comps !! c))).
  set (comp1 := render comp0 (data <$> comps !! c) (Loaded tex) (TextureCache.ratio item)).
  assert (Hrun : run [SetData c d; Settle np (Fulfilled tex)]
            {| textureCache := tc; inflightTextures := inf; promises := ps;
               nextPromise := np; components := comps; microtasks := [];
               effects := es |}
          = {| textureCache := <[k := item]> (<[k := TextureCache.with_count item 0]> tc);
               inflightTextures := delete k (<[k := np]> inf);
               promises := <[np := Done (Fulfilled tex)]>
                             (<[np := Pending [AwaitLoad c k (data <$> comps !! c)]]> ps);
               nextPromise := S np;
               components := <[c := comp1]> (<[c := comp0]>
                               (<[c := requested d (comps !! c)]> comps));
               microtasks := [];
               effects := ((es ++ [Emit c "image-loading"]) ++ [LoadStarted f k np])
                            ++ announce c comp0 (Loaded tex) |}).
  { unfold run. cbn [foldl].
    rewrite (first_image_request tc inf ps np comps es k f c d) by done.
    unfold step, Promise.settle. cbn [promises]. rewrite lookup_insert_eq.
    cbn -[resume]. unfold drain. cbn -[resume].
    unfold set_microtasks, set_promises. cbn -[resume].
    rewrite (resume_image_load _ _ _ _ _ _ _ k c (requested d (comps !! c)));
      [| by rewrite lookup_insert_eq | by rewrite requested_data
       | by apply requested_attached ].
    reflexivity. }
  rewrite Hrun. clear Hrun.
  assert (Hsrc1 : src (data comp1) = k) by (cbn; by rewrite requested_data).
  eexists _, _, _. split; [reflexivity|].
  split. { unfold Shown.count. cbn. by rewrite lookup_insert_eq. }
  split. { unfold Shown.image. cbn [components]. by rewrite lookup_insert_eq. }
  split. { unfold Shown.retained. cbn [components]. by rewrite lookup_insert_eq. }
  rewrite (detach_image_last _ _ _ _ _ _ c comp1 item);
    [| apply lookup_insert_eq | reflexivity
     | rewrite Hsrc1; apply lookup_insert_eq | reflexivity ].
  split; [reflexivity|].
  cbn [textureCache inflightTextures effects components].
  split. { rewrite Hsrc1. by rewrite !delete_insert_eq, delete_id. }
  split. { by rewrite delete_insert_eq, delete_id. }
  split. { unfold Shown.retained. cbn [components]. by rewrite lookup_insert_eq. }
  split. { rewrite <- !app_assoc. reflexivity. }
  split.
  - rewrite !loads_started_app, announce_starts_no_load, disposeTexture_no_load.
    assert (loads_started k
              match mesh comp1 with
              | Some _ => if batch (data comp1) then [BatchRemove c] else []
              | None => []
              end = 0) as ->.
    { destruct (mesh comp1); [destruct (batch (data comp1))|]; reflexivity. }
    cbn. rewrite bool_decide_eq_true_2 by done. reflexivity.
  - rewrite !texture_disposals_app.
    rewrite (quiet_no_disposal _ (announce _ _ _)) by apply announce_quiet.
    assert (Observe.texture_disposals (texture_id tex)
              match mesh comp1 with
              | Some _ => if batch (data comp1) then [BatchRemove c] else []
              | None => []
              end = 0) as ->.
    { destruct (mesh comp1); [destruct (batch (data comp1))|]; reflexivity. }
    change (TextureCache.texture item) with tex.
    rewrite disposeTexture_once. reflexivity.
Qed.

(** X6.  A content type that is neither a GIF nor another image type.
    The request for an uncached key starts no load and registers
    nothing: it logs the error, shows the placeholder and announces
    the image as loaded. *)
Theorem unknown_content_type_shows_placeholder (w : World) (k : string) (c : nat)
    (d : Data) :
  k <> ""%string -> k <> "error"%string -> src d = k ->
  includes "image/gif" (contentType d) = false ->
  startsWith (contentType d) "image/" = false ->
  Observe.ready (components w !! c) ->
  textureCache w !! k = None ->
  inflightTextures w !! k = None ->
  microtasks w = [] ->
  exists w',
    step (SetData c d) w = w'
    /\ textureCache w' = textureCache w
    /\ inflightTextures w' = inflightTextures w
    /\ promises w' = promises w
    /\ effects w'
       = effects w ++ [Emit c "image-loading";
                       ConsoleError ("Error loading image " ++ k);
                       Emit c "image-loaded"]
    /\ Shown.image c w' = Some ErrorTexture
    /\ Shown.retained c w' = Some false.
Proof.
  intros Hne Herr Hs Hgif Himg Hready Hcache Hinf Hq.
  destruct w as [tc inf ps np comps q es].
  cbn [components textureCache inflightTextures microtasks nextPromise effects
       promises] in *.
  subst q. eexists. split; [reflexivity|].
  unfold step. cbn -[update drain requested].
  unfold update. cbn -[requested drop_previous]. rewrite lookup_insert_eq.
  rewrite requested_data, Hs.
  rewrite bool_decide_eq_false_2 by done.
  unfold log. cbn -[requested drop_previous].
  rewrite drop_previous_ready by done.
  cbn -[requested]. rewrite lookup_insert_eq.
  unfold TextureCache.has. rewrite Hcache.
  rewrite (bool_decide_eq_false_2 (is_Some None)) by (by intros [? ?]).
  rewrite (bool_decide_eq_false_2 (k = "error"%string)) by done.
  rewrite Hinf. unfold loader. rewrite Hgif, Himg.
  unfold on_error. cbn -[requested after_try]. rewrite lookup_insert_eq.
  unfold after_try. cbn -[requested render announce]. rewrite lookup_insert_eq.
  unfold drain. cbn -[requested render announce].
  rewrite requested_data, Hs.
  repeat split.
  - unfold announce. cbn. by rewrite <- !app_assoc.
  - unfold Shown.image. cbn -[requested]. by rewrite lookup_insert_eq.
  - unfold Shown.retained. cbn -[requested]. by rewrite lookup_insert_eq.
Qed.

(** X7.  Switching a component from one cached source to another.
    The component holds a source; its mesh has no [map] property (the
    file never gives it one), so the head of [update] releases nothing,
    and as the component still counts itself as retaining, the new
    source is only looked up: the whole cache is left as it was.  When
    the entity is removed later it is the new source that is released:
    its count ends one below where it started, and the old source
    keeps the reference the component took. *)
Theorem switching_cached_sources_moves_no_reference (w : World) (c : nat)
    (comp : Component) (m : Mesh) (d2 : Data) (k2 : string)
    (i2 : TextureCache.CacheItem) :
  components w !! c = Some comp ->
  currentSrcIsRetained comp = true ->
  parentNode comp = true ->
  mesh comp = Some m -> mesh_map m = None ->
  src d2 = k2 -> k2 <> ""%string ->
  textureCache w !! k2 = Some i2 ->
  (0 < TextureCache.count i2)%Z ->
  microtasks w = [] ->
  exists w1 w2,
    step (SetData c d2) w = w1
    /\ textureCache w1 = textureCache w
    /\ Shown.image c w1 = Some (Loaded (TextureCache.texture i2))
    /\ Shown.retained c w1 = Some true
    /\ step (Detach c) w1 = w2
    /\ Shown.count k2 w2 = (TextureCache.count i2 - 1)%Z
    /\ forall k1, k1 <> k2 -> textureCache w2 !! k1 = textureCache w !! k1.
Proof.
  intros Hc Hret Hp Hm Hmm Hs Hne Hk2 Hpos Hq.
  destruct w as [tc inf ps np comps q es].
  cbn [components textureCache inflightTextures microtasks nextPromise effects
       promises] in *.
  subst q.
  assert (Hstep : step (SetData c d2)
            {| textureCache := tc; inflightTextures := inf; promises := ps;
               nextPromise := np; components := comps; microtasks := [];
               effects := es |}
          = {| textureCache := tc; inflightTextures := inf; promises := ps;
               nextPromise := np;
               components :=
                 <[c := render (with_retained true (with_data d2 comp)) (Some (data comp))
                          (Loaded (TextureCache.texture i2)) (TextureCache.ratio i2)]>
                   (<[c := with_retained true (with_data d2 comp)]>
                      (<[c := with_data d2 comp]> comps));
               microtasks := [];
               effects := (es ++ [Emit c "image-loading"])
                            ++ announce c (with_retained true (with_data d2 comp))
                                 (Loaded (TextureCache.texture i2)) |}).
  { unfold step. cbn -[update drain]. rewrite Hc. cbn -[update drain].
    unfold update. cbn -[drop_previous]. rewrite lookup_insert_eq. cbn -[drop_previous].
    rewrite Hs. rewrite bool_decide_eq_false_2 by done.
    unfold drop_previous. cbn. rewrite lookup_insert_eq. cbn. rewrite Hm, Hmm.
    cbn. rewrite lookup_insert_eq. cbn. rewrite Hret.
    unfold TextureCache.has. rewrite Hk2.
    rewrite bool_decide_eq_true_2 by eauto.
    unfold TextureCache.get. rewrite Hk2.
    unfold on_item. cbn -[after_try]. rewrite lookup_insert_eq.
    unfold after_try. cbn -[render announce]. rewrite lookup_insert_eq.
    reflexivity. }
  eexists _, _. split; [exact Hstep|].
  split; [reflexivity|].
  split. { unfold Shown.image. cbn [components]. by rewrite lookup_insert_eq. }
  split. { unfold Shown.retained. cbn [components]. by rewrite lookup_insert_eq. }
  split; [reflexivity|].
  unfold step. cbn [components]. rewrite lookup_insert_eq.
  unfold remove. cbn -[release render]. rewrite lookup_insert_eq.
  cbn -[release]. rewrite Hs.
  unfold release, TextureCache.release.
  destruct (batch d2); cbn; rewrite Hk2; cbn;
    destruct (Z.leb_spec (TextureCache.count i2 - 1) 0); cbn;
    rewrite lookup_insert_eq; cbn; unfold drain; cbn;
    (split; [unfold Shown.count; cbn;
             first [ rewrite lookup_delete_eq; lia | by rewrite lookup_insert_eq ]
            | intros k1 Hk1;
              first [ by rewrite lookup_delete_ne | by rewrite lookup_insert_ne ] ]).
Qed.

End ImageRuns.

(** The two components of the first witness again, with the entity of
    the first removed while the image is loading. *)
Lemma stale_initiator_spoils_waiter_witness :
  exists w' es',
    MediaImage.run
      [MediaImage.SetData 1 (Example.image_data "a.png");
       MediaImage.SetData 2 (Example.image_data "a.png");
       MediaImage.Detach 1;
       MediaImage.Settle 0 (Fulfilled (Example.png 7))] MediaImage.empty = w'
    /\ MediaImage.textureCache w' = ∅
    /\ MediaImage.inflightTextures w' = ∅
    /\ MediaImage.microtasks w' = []
    /\ MediaImage.effects w' = [] ++ es'
    /\ MediaImage.loads_started "a.png" es' = 1
    /\ Observe.texture_disposals 7 es' = 1
    /\ ConsoleError "Error loading image a.png" ∈ es'
    /\ Shown.image 2 w' = Some MediaImage.ErrorTexture
    /\ Shown.retained 2 w' = Some false.
Proof.
  apply (stale_initiator_spoils_waiter MediaImage.empty "a.png" "createImageTexture" 1 2
           (Example.image_data "a.png") (Example.image_data "a.png") (Example.png 7));
    first [reflexivity | discriminate | lia | exact I].
Defined.

Lemma image_load_then_remove_restores_witness :
  exists w1 w2 es',
    MediaImage.run
      [MediaImage.SetData 1 (Example.image_data "a.png");
       MediaImage.Settle 0 (Fulfilled (Example.png 7))] MediaImage.empty = w1
    /\ Shown.count "a.png" w1 = 1%Z
    /\ Shown.image 1 w1 = Some (MediaImage.Loaded (Example.png 7))
    /\ Shown.retained 1 w1 = Some true
    /\ MediaImage.step (MediaImage.Detach 1) w1 = w2
    /\ MediaImage.textureCache w2 = ∅
    /\ MediaImage.inflightTextures w2 = ∅
    /\ Shown.retained 1 w2 = Some false
    /\ MediaImage.effects w2 = [] ++ es'
    /\ MediaImage.loads_started "a.png" es' = 1
    /\ Observe.texture_disposals 7 es' = 1.
Proof.
  apply (image_load_then_remove_restores MediaImage.empty "a.png" "createImageTexture" 1
           (Example.image_data "a.png") (Example.png 7));
    first [reflexivity | discriminate | exact I].
Defined.

Lemma unknown_content_type_shows_placeholder_witness :
  exists w',
    MediaImage.step (MediaImage.SetData 1 Example2.pdf_as_image) MediaImage.empty = w'
    /\ MediaImage.textureCache w' = ∅
    /\ MediaImage.inflightTextures w' = ∅
    /\ MediaImage.promises w' = ∅
    /\ MediaImage.effects w'
       = [] ++ [Emit 1 "image-loading";
                ConsoleError "Error loading image a.pdf";
                Emit 1 "image-loaded"]
    /\ Shown.image 1 w' = Some MediaImage.ErrorTexture
    /\ Shown.retained 1 w' = Some false.
Proof.
  apply (unknown_content_type_shows_placeholder MediaImage.empty "a.pdf" 1
           Example2.pdf_as_image);
    first [reflexivity | discriminate | exact I].
Defined.

(** Component 3 shows "y.png" and is switched to "x.png", which two
    other components hold; then its entity is removed. *)
Lemma switching_cached_sources_moves_no_reference_witness :
  exists w1 w2,
    MediaImage.step (MediaImage.SetData 3 (Example.image_data "x.png")) Example2.gallery = w1
    /\ MediaImage.textureCache w1 = MediaImage.textureCache Example2.gallery
    /\ Shown.image 3 w1 = Some (MediaImage.Loaded (Example.png 7))
    /\ Shown.retained 3 w1 = Some true
    /\ MediaImage.step (MediaImage.Detach 3) w1 = w2
    /\ Shown.count "x.png" w2 = (2 - 1)%Z
    /\ forall k1, k1 <> "x.png"%string ->
         MediaImage.textureCache w2 !! k1 = MediaImage.textureCache Example2.gallery !! k1.
Proof.
  apply (switching_cached_sources_moves_no_reference Example2.gallery 3
           Example2.gallery_component Example2.gallery_mesh
           (Example.image_data "x.png") "x.png"
           {| TextureCache.texture := Example.png 7;
              TextureCache.ratio := (30, 40)%Z;
              TextureCache.count := 2 |});
    first [ (vm_compute; reflexivity) | discriminate | lia ].
Defined.

(** ** The model loader and the model component over whole runs *)

Section ModelRuns.
Context `{Three.Math}.
Import Three GltfModelPlus.

(** A load computation started without the cache settles: the caller
    receives what the parser produced. *)
Lemma settle_direct (w : World) (t p : nat) (g : GLTF) :
  loads w !! p = Some (Pending [Direct (External t)]) ->
  microtasks w = [] ->
  exists g',
    step (Settle p (Fulfilled g)) w
    = record_return t (Fulfilled g')
        (set_microtasks []
           (set_loads (<[p := Done (Fulfilled g')]> (loads w))
              (set_nextOid (nextOid w + length (traverse (scene g))) w)))
    /\ oids (scene g') = seq (nextOid w) (length (traverse (scene g)))
    /\ forget_identity (scene g') = forget_identity (scene (parsed g w).1).
Proof.
  intros Hp Hq.
  destruct (parsed_spec g w) as (g' & Hparsed & Hoids & Hlen & _).
  exists g'. split; [|split; [exact Hoids | by rewrite Hparsed]].
  unfold step. rewrite Hp, Hparsed.
  unfold Promise.settle. cbn [loads set_nextOid]. rewrite Hp.
  cbn [fmap list_fmap]. unfold enqueue at 1. cbn [microtasks set_loads set_nextOid].
  rewrite Hq. cbn [app]. unfold drain.
  cbn [microtasks set_microtasks fmap list_fmap weight sum_list sum_list_with].
  change (id 2 + 0) with 2.
  erewrite drain_steps_S by reflexivity. cbn [run_task resume_load].
  unfold enqueue. cbn [microtasks set_microtasks app].
  erewrite drain_steps_S by reflexivity. cbn [run_task].
  rewrite drain_steps_done by reflexivity.
  reflexivity.
Qed.

Lemma direct_model_call (w : World) (key : string) (t : nat) :
  microtasks w = [] ->
  step (Call t key false) w
  = set_nextPromise (S (nextPromise w))
      (set_loads (<[nextPromise w := Pending [Direct (External t)]]> (loads w))
         (log [LoadStarted "loadGLTF" key (nextPromise w)] w)).
Proof.
  intros Hq. unfold step, loadModel. cbn -[drain]. apply drain_idle. exact Hq.
Qed.

(** X8.  Without the cache every call loads for itself.  Two calls for
    one key with [useCache] off start two load computations; neither
    the cache nor the in-flight registry is touched, and each caller
    receives the very objects its own load produced: no clone is made,
    so the only objects created are those of the two parsed scenes. *)
Theorem uncached_calls_load_separately (w : World) (k : string) (t1 t2 : nat)
    (g1 g2 : GLTF) :
  microtasks w = [] ->
  exists w' r1 r2 es',
    run [Call t1 k false; Call t2 k false;
         Settle (nextPromise w) (Fulfilled g1);
         Settle (S (nextPromise w)) (Fulfilled g2)] w = w'
    /\ gltfCache w' = gltfCache w
    /\ inflightGltfs w' = inflightGltfs w
    /\ effects w' = effects w ++ es'
    /\ loads_started k es' = 2
    /\ returned w' = returned w ++ [(t1, Fulfilled r1); (t2, Fulfilled r2)]
    /\ oids (scene r1) = seq (nextOid w) (length (traverse (scene g1)))
    /\ oids (scene r2)
       = seq (nextOid w + length (traverse (scene g1))) (length (traverse (scene g2)))
    /\ nextOid w'
       = nextOid w + length (traverse (scene g1)) + length (traverse (scene g2)).
Proof.
  intros Hq. unfold run. cbn [foldl].
  rewrite (direct_model_call w k t1) by exact Hq.
  rewrite direct_model_call by exact Hq.
  cbn [nextPromise set_nextPromise set_loads log loads].
  match goal with
  | |- context [step (Settle ?p (Fulfilled g1)) ?W] =>
      destruct (settle_direct W t1 p g1) as (r1 & -> & Ho1 & _);
        [ cbn [loads set_nextPromise set_loads];
          by rewrite lookup_insert_ne, lookup_insert_eq by lia
        | exact Hq | ]
  end.
  match goal with
  | |- context [step (Settle ?p (Fulfilled g2)) ?W] =>
      destruct (settle_direct W t2 p g2) as (r2 & -> & Ho2 & _);
        [ cbn; by rewrite lookup_insert_ne, lookup_insert_eq by lia
        | reflexivity | ]
  end.
  eexists _, r1, r2, _. split; [reflexivity|].
  cbn. split; [reflexivity|]. split; [reflexivity|].
  split. { rewrite <- app_assoc. reflexivity. }
  split. { cbn. rewrite bool_decide_eq_true_2 by done. reflexivity. }
  split. { by rewrite <- app_assoc. }
  split; [exact Ho1|]. split; [exact Ho2|]. reflexivity.
Qed.

(** A component asks for a source that is neither cached nor in
    flight: a load starts and [applySrc] waits for it. *)
Lemma component_requests (w : World) (c : nat) (comp : Component) (k : string) :
  components w !! c = Some comp ->
  resolveAsset (src (data comp)) w = Ok k ->
  lastSrc comp <> Some k -> k <> ""%string ->
  useCache (data comp) = true ->
  gltfCache w !! k = None -> inflightGltfs w !! k = None ->
  update c w
  = set_inflight (<[k := nextPromise w]> (inflightGltfs w))
      (set_nextPromise (S (nextPromise w))
         (set_loads
            (<[nextPromise w := Pending [AwaitLoad (ApplySrc c k (lastSrc comp)) k]]>
               (loads w))
            (log [LoadStarted "loadGLTF" k (nextPromise w)]
               (log [Emit c "model-loading"]
                  (set_component c (with_lastSrc (Some k) comp) w))))).
Proof.
  intros Hc Hres Hlast Hne Hcache Hk Hinf.
  unfold update. rewrite Hc, Hres. unfold applySrc. rewrite Hc.
  rewrite bool_decide_eq_false_2 by done.
  rewrite (bool_decide_eq_false_2 (k = ""%string)) by done.
  rewrite Hcache. unfold loadModel, GLTFCache.has.
  cbn [gltfCache inflightGltfs log set_component]. rewrite Hk, Hinf.
  rewrite bool_decide_eq_false_2 by (by intros [? ?]).
  reflexivity.
Qed.

(** The load of a component settles with the asset: the asset is
    cached with count 1 and [applySrc] resumes with a fresh clone. *)
Lemma settle_component_load (w : World) (c p : nat) (k : string) last (g : GLTF) :
  loads w !! p = Some (Pending [AwaitLoad (ApplySrc c k last) k]) ->
  microtasks w = [] ->
  exists g' clone,
    step (Settle p (Fulfilled g)) w
    = resume_applySrc c k last (Fulfilled clone)
        (set_microtasks []
           (set_nextOid (nextOid w + length (traverse (scene g))
                         + length (traverse (scene g)))
              (set_cache
                 (<[k := {| GLTFCache.gltf := g'; GLTFCache.count := 1 |}]>
                    (<[k := {| GLTFCache.gltf := g'; GLTFCache.count := 0 |}]>
                       (gltfCache w)))
                 (set_inflight (delete k (inflightGltfs w))
                    (set_loads (<[p := Done (Fulfilled g')]> (loads w)) w)))))
    /\ oids (scene g') = seq (nextOid w) (length (traverse (scene g)))
    /\ gltf_animations clone = gltf_animations g
    /\ oids (scene clone)
       = seq (nextOid w + length (traverse (scene g))) (length (traverse (scene g)))
    /\ forget_identity (scene clone) = forget_identity (scene g')
    /\ name (scene clone) = name (scene g)
    /\ uuid (scene clone) = uuid (scene g).
Proof.
  intros Hp Hq.
  destruct (parsed_spec g w) as (g' & Hparsed & Hoids & Hlen & _ & Hanim).
  unfold step. rewrite Hp, Hparsed.
  unfold Promise.settle. cbn [loads set_nextOid]. rewrite Hp.
  cbn [fmap list_fmap]. unfold enqueue at 1. cbn [microtasks set_loads set_nextOid].
  rewrite Hq. cbn [app]. unfold drain.
  cbn [microtasks set_microtasks fmap list_fmap weight sum_list sum_list_with].
  change (id 2 + 0) with 2.
  erewrite drain_steps_S by reflexivity. cbn [run_task].
  match goal with
  | |- context [resume_load (AwaitLoad ?kk ?ky) (Fulfilled ?gg) ?W] =>
      destruct (resume_load_initiator W kk ky gg) as (clone & Heq1 & Hf1); rewrite Heq1;
      clear Heq1
  end.
  destruct Hf1 as (Hco & Hcs & Hca).
  exists g', clone.
  split.
  - unfold enqueue. cbn [microtasks set_microtasks set_nextOid set_cache set_inflight
                         set_loads app].
    erewrite drain_steps_S by reflexivity. cbn [run_task drain_steps].
    cbn [nextOid set_loads set_nextOid set_inflight]. rewrite Hlen.
    reflexivity.
  - split; [exact Hoids|].
    split; [by rewrite Hca|].
    split; [rewrite Hco; cbn [nextOid set_loads set_nextOid set_inflight];
            by rewrite Hlen|].
    split; [exact Hcs|].
    rewrite !forget_identity_unfold in Hcs. injection Hcs as Hn Hu _.
    assert (Hg' : g' = (parsed g w).1) by (by rewrite Hparsed).
    unfold parsed in Hg'. rewrite allocate_unfold in Hg'.
    destruct (allocate_children (children (scene g)) (S (nextOid w))) as [n1 cs].
    cbn in Hg'. subst g'. cbn in Hn, Hu. done.
Qed.

(** Evaluate the field updates of a world, innermost first. *)
Ltac eval_world :=
  cbv [log set_cache set_microtasks set_loads set_inflight set_nextPromise set_component
       set_nextOid set_ticks record_return enqueue
       gltfCache inflightGltfs loads ticks nextPromise nextOid components registered
       aframe_components assets microtasks effects returned];
  cbn [with_data with_lastSrc with_model with_mesh with_mixer with_inflatedEl with_appended
       new_component data lastSrc inflatedEl model templates
       appended mesh animation_mixer].

(** X9.  A failed model load.  The rejection reaches the [catch] of
    [applySrc], which releases the source although nothing was cached
    under it (so the cache reports an uncached release), logs the
    failure and emits model-error.  The component keeps the failed
    source as its last source and the rejected promise stays in the
    registry, so setting the same source again does nothing at all: no
    new load is started. *)
Theorem failed_model_load_is_not_retried (w : World) (c : nat) (d : Data)
    (ts : Inflater.Templates) (k e : string) :
  resolveAsset (src d) w = Ok k -> k <> ""%string -> useCache d = true ->
  gltfCache w !! k = None -> inflightGltfs w !! k = None ->
  microtasks w = [] ->
  exists w1,
    run [Init c d ts; Settle (nextPromise w) (Rejected e)] w = w1
    /\ effects w1
       = effects w ++ [Emit c "model-loading";
                       LoadStarted "loadGLTF" k (nextPromise w);
                       ConsoleError ("Releasing uncached gltf " ++ k);
                       ConsoleError "Failed to load glTF model";
                       Emit c "model-error"]
    /\ gltfCache w1 = gltfCache w
    /\ inflightGltfs w1 !! k = Some (nextPromise w)
    /\ loads w1 !! nextPromise w = Some (Done (Rejected e))
    /\ (lastSrc <$> components w1 !! c) = Some (Some k)
    /\ step (SetData c d) w1 = w1.
Proof.
  intros Hres Hne Hcache Hk Hinf Hq.
  destruct w as [gc inf ls tks np no comps reg afc ass q es ret].
  cbn [gltfCache inflightGltfs loads nextPromise microtasks effects] in *. subst q.
  assert (Hres' : forall W, assets W = ass -> resolveAsset (src d) W = Ok k).
  { intros W HW. unfold resolveAsset in *. by rewrite HW. }
  unfold run. cbn [foldl].
  unfold step at 2.
  rewrite (component_requests _ c (new_component d ts) k);
    [| apply lookup_insert_eq | by apply Hres' | done | done | done | done | done].
  rewrite drain_idle by reflexivity.
  cbn [lastSrc new_component nextPromise set_component inflightGltfs loads].
  unfold step, Promise.settle.
  cbn [loads set_inflight set_nextPromise set_loads]. rewrite lookup_insert_eq.
  cbn [fmap list_fmap]. unfold enqueue at 1. unfold drain.
  cbn [microtasks set_microtasks set_inflight set_nextPromise set_loads log set_component
       app fmap list_fmap weight sum_list sum_list_with].
  change (id 2 + 0) with 2.
  erewrite drain_steps_S by reflexivity. cbn [run_task resume_load].
  unfold enqueue. cbn [microtasks set_microtasks app].
  erewrite drain_steps_S by reflexivity. cbn [run_task drain_steps resume_applySrc].
  unfold on_error, release, GLTFCache.release.
  cbn [gltfCache set_microtasks set_loads set_inflight set_nextPromise log set_component].
  rewrite Hk.
  eexists. split; [reflexivity|].
  cbn. split. { by rewrite <- !app_assoc. }
  split; [reflexivity|].
  split; [apply lookup_insert_eq|].
  split; [apply lookup_insert_eq|].
  split; [by rewrite lookup_insert_eq|].
  rewrite lookup_insert_eq. cbn -[update drain].
  unfold update. cbn -[resolveAsset applySrc drain]. rewrite lookup_insert_eq.
  cbn -[resolveAsset applySrc drain].
  erewrite Hres' by reflexivity.
  unfold applySrc. cbn. rewrite lookup_insert_eq. cbn.
  rewrite bool_decide_eq_true_2 by done.
  unfold drain.
  eval_world. cbn [fmap list_fmap weight sum_list sum_list_with drain_steps].
  by rewrite !insert_insert_eq.
Qed.

Lemma root_is_first_object (s : Node) (n m : nat) :
  oids s = seq n m -> oid s = n.
Proof.
  unfold oids. rewrite traverse_unfold. cbn [fmap list_fmap].
  destruct m; [discriminate|]. cbn [seq]. by intros [= -> _].
Qed.

Lemma disposeLastInflatedEl_none (w : World) (c : nat) (comp : Component) :
  components w !! c = Some comp -> inflatedEl comp = None ->
  disposeLastInflatedEl c w = w.
Proof. intros Hc Hi. unfold disposeLastInflatedEl. by rewrite Hc, Hi. Qed.

Lemma modify_some (w : World) (c : nat) (comp : Component) f :
  components w !! c = Some comp -> modify c f w = set_component c (f comp) w.
Proof. intros Hc. unfold modify. by rewrite Hc. Qed.

(** [applySrc] resumed with the asset on a component that does not
    inflate and has nothing inflated: up to the final statements. *)
Lemma resume_applySrc_plain (w : World) (c : nat) (k : string) last (clone : GLTF)
    (comp : Component) anims :
  components w !! c = Some comp -> lastSrc comp = Some k ->
  inflatedEl comp = None -> gltf_animations clone = Some anims ->
  inflate (data comp) = false ->
  resume_applySrc c k last (Fulfilled clone) w
  = finish c last (oid (scene clone))
      (log ((if batch (data comp) then [BatchAdd c] else [])
              ++ [if bool_decide (anims = [])
                  then GenerateMeshBVH (oid (scene clone)) else InitMixer c])
         (set_component c
            (if bool_decide (anims = [])
             then with_model (Some (scene clone)) comp
             else with_mixer true (with_model (Some (scene clone)) comp))
            w)).
Proof.
  intros Hc Hlast Hinfl Hanims Hflat.
  unfold resume_applySrc. rewrite Hc, Hlast.
  rewrite bool_decide_eq_true_2 by done. cbn [negb].
  rewrite (disposeLastInflatedEl_none w c comp) by done.
  rewrite (modify_some w c comp) by done.
  rewrite Hanims, Hflat.
  destruct (batch (data comp)), (bool_decide (anims = [])).
  - f_equal. unfold log, set_component. cbn. by rewrite <- app_assoc.
  - erewrite modify_some by (cbn; apply lookup_insert_eq).
    f_equal. unfold log, set_component. cbn.
    by rewrite insert_insert_eq, <- app_assoc.
  - f_equal.
  - erewrite modify_some by (cbn; apply lookup_insert_eq).
    f_equal. unfold log, set_component. cbn. by rewrite insert_insert_eq.
Qed.

(** X10.  Switching a model component to another source hands over its
    reference.  The component shows a cached asset that it alone holds
    and is set to a source that is neither cached nor in flight.  When
    the new load succeeds the new asset is cached with count 1, the
    component takes a fresh clone of it as its mesh, and only then is
    the old source released, which disposes every node of the old
    scene once and removes its entry. *)
Theorem switching_model_source_hands_over (w : World) (c : nat) (comp : Component)
    (d2 : Data) (k1 k2 : string) (i1 : GLTFCache.CacheItem) (g : GLTF) anims :
  components w !! c = Some comp ->
  lastSrc comp = Some k1 -> inflatedEl comp = None ->
  gltfCache w !! k1 = Some i1 -> GLTFCache.count i1 = 1%Z ->
  k1 <> ""%string -> k2 <> ""%string -> k1 <> k2 ->
  resolveAsset (src d2) w = Ok k2 ->
  useCache d2 = true -> inflate d2 = false ->
  gltfCache w !! k2 = None -> inflightGltfs w !! k2 = None ->
  gltf_animations g = Some anims ->
  microtasks w = [] ->
  exists w' g',
    run [SetData c d2; Settle (nextPromise w) (Fulfilled g)] w = w'
    /\ gltfCache w' !! k1 = None
    /\ gltfCache w' !! k2 = Some {| GLTFCache.gltf := g'; GLTFCache.count := 1 |}
    /\ inflightGltfs w' !! k2 = None
    /\ (mesh <$> components w' !! c)
       = Some (Some (nextOid w + length (traverse (scene g))))
    /\ (forall o, o ∈ oids (scene g') ->
          o < nextOid w + length (traverse (scene g)))
    /\ effects w'
       = effects w
           ++ [Emit c "model-loading"; LoadStarted "loadGLTF" k2 (nextPromise w)]
           ++ (if batch d2 then [BatchAdd c] else [])
           ++ [if bool_decide (anims = [])
               then GenerateMeshBVH (nextOid w + length (traverse (scene g)))
               else InitMixer c]
           ++ GLTFCache.dispose (GLTFCache.gltf i1)
           ++ [SetObject3D c "mesh" (nextOid w + length (traverse (scene g)));
               Emit c "model-loaded"].
Proof.
  intros Hc Hlast Hinfl Hk1 Hone Hne1 Hne2 Hneq Hres Hcache Hflat Hk2 Hinf Hanims Hq.
  destruct w as [gc inf ls tks np no comps reg afc ass q es ret].
  cbn [gltfCache inflightGltfs loads nextPromise microtasks effects components
       nextOid] in *.
  subst q.
  assert (Hres' : forall W, assets W = ass -> resolveAsset (src d2) W = Ok k2).
  { intros W HW. unfold resolveAsset in *. by rewrite HW. }
  unfold run. cbn [foldl].
  unfold step at 2. cbn [components]. rewrite Hc.
  rewrite (component_requests _ c (with_data d2 comp) k2);
    [| apply lookup_insert_eq | by apply Hres' | by cbn; rewrite Hlast; intros [= ?]
     | done | done | done | done].
  rewrite drain_idle by reflexivity.
  eval_world. rewrite Hlast.
  match goal with
  | |- context [step (Settle ?p (Fulfilled g)) ?W] =>
      destruct (settle_component_load W c p k2 (Some k1) g)
        as (g' & clone & -> & Hog & Hca & Hoc & _ & _ & _);
        [ apply lookup_insert_eq | reflexivity | ]
  end.
  pose proof (root_is_first_object _ _ _ Hoc) as Hroot.
  cbn [nextOid] in Hroot, Hog.
  eval_world. rewrite insert_insert_eq.
  rewrite (resume_applySrc_plain _ c k2 (Some k1) clone
             (with_lastSrc (Some k2) (with_data d2 comp)) anims);
    [| apply lookup_insert_eq | reflexivity | exact Hinfl | by rewrite Hca | exact Hflat ].
  rewrite Hroot. eval_world. rewrite insert_insert_eq. cbn [batch].
  unfold finish. rewrite bool_decide_eq_false_2 by done.
  unfold release. eval_world. unfold GLTFCache.release.
  rewrite !(lookup_insert_ne _ k2 k1) by done. rewrite Hk1.
  cbn [GLTFCache.count GLTFCache.with_count GLTFCache.gltf]. rewrite Hone.
  change (1 - 1 <=? 0)%Z with true. cbv iota beta.
  eval_world.
  erewrite modify_some by (cbn; apply lookup_insert_eq).
  eval_world. rewrite insert_insert_eq.
  eexists _, g'. split; [reflexivity|].
  cbn [gltfCache inflightGltfs components effects].
  split; [by rewrite lookup_delete_eq|].
  split; [by rewrite lookup_delete_ne, lookup_insert_eq by done|].
  split; [by rewrite lookup_delete_eq|].
  split.
  { rewrite lookup_insert_eq. by destruct (bool_decide (anims = [])). }
  split; [intros o Ho; rewrite Hog in Ho; apply elem_of_seq in Ho; lia|].
  by rewrite <- !app_assoc.
Qed.
(** The root always gets an entity, so a root whose class name comes
    out empty makes the inflater throw, whatever lies below it. *)
Lemma root_without_class_throws idx (node : Node) ts m :
  Inflater.sanitize (JS.str_or (Inflater.legacy_name (name node)) (uuid node)) = ""%string ->
  exists e, Inflater.inflateEntities idx node ts true m = Throw e.
Proof.
  intros Hcls. rewrite inflateEntities_unfold.
  destruct (Inflater.inflate_children ts (children node) idx) as [[[idx1 kept] els]|e];
    [|eauto].
  cbn [negb]. rewrite andb_false_r. cbv zeta. rewrite Hcls.
  rewrite bool_decide_eq_true_2 by done. eauto.
Qed.

(** [applySrc] resumed with the asset on a component that inflates,
    when the inflater throws. *)
Lemma resume_applySrc_throws (w : World) (c : nat) (k : string) last (clone : GLTF)
    (comp : Component) anims e :
  components w !! c = Some comp -> lastSrc comp = Some k ->
  inflatedEl comp = None -> gltf_animations clone = Some anims ->
  inflate (data comp) = true ->
  Inflater.inflateEntities ∅ (scene clone) (templates comp) true
    (modelToWorldScale (data comp)) = Throw e ->
  resume_applySrc c k last (Fulfilled clone) w
  = on_error c k
      (log ((if batch (data comp) then [BatchAdd c] else [])
              ++ [if bool_decide (anims = [])
                  then GenerateMeshBVH (oid (scene clone)) else InitMixer c])
         (set_component c
            (if bool_decide (anims = [])
             then with_model (Some (scene clone)) comp
             else with_mixer true (with_model (Some (scene clone)) comp))
            w)).
Proof.
  intros Hc Hlast Hinfl Hanims Hinflate Hthrow.
  unfold resume_applySrc. rewrite Hc, Hlast.
  rewrite bool_decide_eq_true_2 by done. cbn [negb].
  rewrite (disposeLastInflatedEl_none w c comp) by done.
  rewrite (modify_some w c comp) by done.
  rewrite Hanims, Hinflate, Hthrow.
  destruct (batch (data comp)), (bool_decide (anims = [])).
  - f_equal. unfold log, set_component. cbn. by rewrite <- app_assoc.
  - erewrite modify_some by (cbn; apply lookup_insert_eq).
    f_equal. unfold log, set_component. cbn.
    by rewrite insert_insert_eq, <- app_assoc.
  - f_equal.
  - erewrite modify_some by (cbn; apply lookup_insert_eq).
    f_equal. unfold log, set_component. cbn. by rewrite insert_insert_eq.
Qed.

(** X11.  A root whose name has no character of a class name.  The
    class of an entity is the node name (or, for an unnamed node, its
    uuid) without the characters outside letters, digits, underscore
    and hyphen; when nothing is left [classList.add] throws.  A model
    with such a root on a component that inflates therefore ends in
    model-error: the [catch] gives back the reference the load took,
    which disposes the nodes of the cached scene, and cache and
    registry are as before the request; model-loaded is never
    emitted. *)
Theorem unusable_root_name_fails_the_model (w : World) (c : nat) (d : Data)
    (ts : Inflater.Templates) (k : string) (g : GLTF) anims :
  resolveAsset (src d) w = Ok k -> k <> ""%string ->
  useCache d = true -> inflate d = true ->
  gltfCache w !! k = None -> inflightGltfs w !! k = None ->
  gltf_animations g = Some anims ->
  Inflater.sanitize
    (JS.str_or (Inflater.legacy_name (name (scene g))) (uuid (scene g))) = ""%string ->
  microtasks w = [] ->
  exists w',
    run [Init c d ts; Settle (nextPromise w) (Fulfilled g)] w = w'
    /\ gltfCache w' = gltfCache w
    /\ inflightGltfs w' = inflightGltfs w
    /\ (mesh <$> components w' !! c) = Some None
    /\ (lastSrc <$> components w' !! c) = Some (Some k)
    /\ effects w'
       = effects w
           ++ [Emit c "model-loading"; LoadStarted "loadGLTF" k (nextPromise w)]
           ++ (if batch d then [BatchAdd c] else [])
           ++ [if bool_decide (anims = [])
               then GenerateMeshBVH (nextOid w + length (traverse (scene g)))
               else InitMixer c]
           ++ (DisposeNode <$> seq (nextOid w) (length (traverse (scene g))))
           ++ [ConsoleError "Failed to load glTF model"; Emit c "model-error"].
Proof.
  intros Hres Hne Hcache Hinflate Hk Hinf Hanims Hcls Hq.
  destruct w as [gc inf ls tks np no comps reg afc ass q es ret].
  cbn [gltfCache inflightGltfs loads nextPromise microtasks effects components
       nextOid] in *.
  subst q.
  assert (Hres' : forall W, assets W = ass -> resolveAsset (src d) W = Ok k).
  { intros W HW. unfold resolveAsset in *. by rewrite HW. }
  unfold run. cbn [foldl].
  unfold step at 2.
  rewrite (component_requests _ c (new_component d ts) k);
    [| apply lookup_insert_eq | by apply Hres' | done | done | done | done | done].
  rewrite drain_idle by reflexivity.
  eval_world.
  match goal with
  | |- context [step (Settle ?p (Fulfilled g)) ?W] =>
      destruct (settle_component_load W c p k None g)
        as (g' & clone & -> & Hog & Hca & Hoc & _ & Hname & Huuid);
        [ apply lookup_insert_eq | reflexivity | ]
  end.
  pose proof (root_is_first_object _ _ _ Hoc) as Hroot.
  cbn [nextOid] in Hroot, Hog.
  destruct (root_without_class_throws ∅ (scene clone) ts (modelToWorldScale d))
    as [e He]; [by rewrite Hname, Huuid|].
  eval_world. rewrite insert_insert_eq.
  rewrite (resume_applySrc_throws _ c k None clone
             (with_lastSrc (Some k) (new_component d ts)) anims e);
    [| apply lookup_insert_eq | reflexivity | reflexivity | by rewrite Hca
     | exact Hinflate | exact He ].
  rewrite Hroot. eval_world. rewrite insert_insert_eq. cbn [batch].
  unfold on_error, release. eval_world. unfold GLTFCache.release.
  rewrite lookup_insert_eq.
  cbn [GLTFCache.count GLTFCache.with_count GLTFCache.gltf].
  change (1 - 1 <=? 0)%Z with true. cbv iota beta.
  eval_world.
  eexists. split; [reflexivity|].
  cbn [gltfCache inflightGltfs components effects].
  split; [by rewrite !delete_insert_eq, delete_id|].
  split; [by rewrite delete_insert_eq, delete_id|].
  split. { rewrite lookup_insert_eq. by destruct (bool_decide (anims = [])). }
  split. { rewrite lookup_insert_eq. by destruct (bool_decide (anims = [])). }
  unfold GLTFCache.dispose. rewrite Hog.
  by rewrite <- !app_assoc.
Qed.
End ModelRuns.

Section ModelRunExamples.
#[local] Existing Instance Example.ZScalar.
#[local] Existing Instance Example.ZMath.

(** Two callers that bypass the cache. *)
Lemma uncached_calls_load_separately_witness :
  exists w' r1 r2 es',
    @GltfModelPlus.run Example.ZScalar Example.ZMath
      [GltfModelPlus.Call 1 "a.glb" false; GltfModelPlus.Call 2 "a.glb" false;
       GltfModelPlus.Settle 0 (Fulfilled Example.small_gltf);
       GltfModelPlus.Settle 1 (Fulfilled Example.small_gltf)] GltfModelPlus.empty = w'
    /\ GltfModelPlus.gltfCache w' = ∅
    /\ GltfModelPlus.inflightGltfs w' = ∅
    /\ GltfModelPlus.effects w' = [] ++ es'
    /\ GltfModelPlus.loads_started "a.glb" es' = 2
    /\ GltfModelPlus.returned w' = [] ++ [(1, Fulfilled r1); (2, Fulfilled r2)]
    /\ Three.oids (Three.scene r1) = seq 0 3
    /\ Three.oids (Three.scene r2) = seq (0 + 3) 3
    /\ GltfModelPlus.nextOid w' = 0 + 3 + 3.
Proof.
  apply (@uncached_calls_load_separately Example.ZScalar Example.ZMath
           GltfModelPlus.empty "a.glb" 1 2 Example.small_gltf Example.small_gltf).
  reflexivity.
Defined.

(** A model that cannot be fetched, asked for twice. *)
Lemma failed_model_load_is_not_retried_witness :
  exists w1,
    @GltfModelPlus.run Example.ZScalar Example.ZMath
      [GltfModelPlus.Init 1 (Example.model_data "m.glb") [];
       GltfModelPlus.Settle 0 (Rejected "404")] GltfModelPlus.empty = w1
    /\ GltfModelPlus.effects w1
       = [] ++ [Emit 1 "model-loading";
                LoadStarted "loadGLTF" "m.glb" 0;
                ConsoleError "Releasing uncached gltf m.glb";
                ConsoleError "Failed to load glTF model";
                Emit 1 "model-error"]
    /\ GltfModelPlus.gltfCache w1 = ∅
    /\ GltfModelPlus.inflightGltfs w1 !! "m.glb"%string = Some 0
    /\ GltfModelPlus.loads w1 !! 0 = Some (Done (Rejected "404"))
    /\ (GltfModelPlus.lastSrc <$> GltfModelPlus.components w1 !! 1)
       = Some (Some "m.glb"%string)
    /\ GltfModelPlus.step (GltfModelPlus.SetData 1 (Example.model_data "m.glb")) w1 = w1.
Proof.
  apply (@failed_model_load_is_not_retried Example.ZScalar Example.ZMath
           GltfModelPlus.empty 1 (Example.model_data "m.glb") [] "m.glb" "404");
    first [reflexivity | discriminate].
Defined.

(** The component that shows "a.glb" is set to "b.glb". *)
Lemma switching_model_source_hands_over_witness :
  exists w' g',
    GltfModelPlus.run
      [GltfModelPlus.SetData 1 (Example.model_data "b.glb");
       GltfModelPlus.Settle 1 (Fulfilled Example.small_gltf)] Example2.model_shown = w'
    /\ GltfModelPlus.gltfCache w' !! "a.glb"%string = None
    /\ GltfModelPlus.gltfCache w' !! "b.glb"%string
       = Some (@GLTFCache.Build_CacheItem Example.ZScalar Example.ZMath g' 1%Z)
    /\ GltfModelPlus.inflightGltfs w' !! "b.glb"%string = None
    /\ (GltfModelPlus.mesh <$> GltfModelPlus.components w' !! 1) = Some (Some (6 + 3))
    /\ (forall o, o ∈ Three.oids (Three.scene g') -> o < 6 + 3)
    /\ GltfModelPlus.effects w'
       = GltfModelPlus.effects Example2.model_shown
           ++ [Emit 1 "model-loading"; LoadStarted "loadGLTF" "b.glb" 1]
           ++ []
           ++ [GenerateMeshBVH (6 + 3)]
           ++ [DisposeNode 0; DisposeNode 1; DisposeNode 2]
           ++ [SetObject3D 1 "mesh" (6 + 3); Emit 1 "model-loaded"].
Proof.
  apply (@switching_model_source_hands_over Example.ZScalar Example.ZMath
           Example2.model_shown 1 Example2.shown_component
           (Example.model_data "b.glb") "a.glb" "b.glb" Example2.shown_item
           Example.small_gltf []);
    first [ (vm_compute; reflexivity) | discriminate ].
Defined.

(** A scene whose root is named with punctuation only. *)
Lemma unusable_root_name_fails_the_model_witness :
  exists w',
    @GltfModelPlus.run Example.ZScalar Example.ZMath
      [GltfModelPlus.Init 1 (Example2.inflating "odd.glb") [];
       GltfModelPlus.Settle 0 (Fulfilled Example2.odd_gltf)] GltfModelPlus.empty = w'
    /\ GltfModelPlus.gltfCache w' = ∅
    /\ GltfModelPlus.inflightGltfs w' = ∅
    /\ (GltfModelPlus.mesh <$> GltfModelPlus.components w' !! 1) = Some None
    /\ (GltfModelPlus.lastSrc <$> GltfModelPlus.components w' !! 1)
       = Some (Some "odd.glb"%string)
    /\ GltfModelPlus.effects w'
       = [] ++ [Emit 1 "model-loading"; LoadStarted "loadGLTF" "odd.glb" 0]
           ++ []
           ++ [GenerateMeshBVH (0 + 2)]
           ++ (DisposeNode <$> seq 0 2)
           ++ [ConsoleError "Failed to load glTF model"; Emit 1 "model-error"].
Proof.
  apply (@unusable_root_name_fails_the_model Example.ZScalar Example.ZMath
           GltfModelPlus.empty 1 (Example2.inflating "odd.glb") [] "odd.glb"
           Example2.odd_gltf []);
    first [reflexivity | discriminate].
Defined.

End ModelRunExamples.
